(** * AFBaseball: the TruMedia chart scraper and the report formatters

    A shallow embedding of [scripts/utils/trumedia_scraper.py] (class
    [TruMediaScraper], together with the JavaScript it injects into the page)
    and of [format_percentage] from [scripts/reports/pitching_report.py],
    followed by properties of them: those the specification states, and
    further ones of the same code, of [_ensure_debugger_target], of
    [scrape_pitcher_charts] from [scripts/reports/scouting_report.py], of
    the keys [scrape_charts] of the pitching report gives the captured
    files, and of its [format_stat].

    Conventions.
    - A Python [str] is a Rocq [string] (its UTF-8 bytes); [bytes] is a list
      of [byte].
    - The DOM is a finite tree of elements; an element may carry an open
      shadow root (a second list of children).
    - Python code runs in the monad [Py]: a state (the scraper's cached frame
      id, the file system, standard output) and an outcome that is a value or
      a raised exception.
    - JavaScript code runs in [js]: a value or a thrown error.  Recursion that
      JavaScript leaves unbounded takes a [fuel] argument that stands for the
      call stack; running out of it is the engine's [RangeError].  The
      scripts' entry points hand over the number of nodes of the tree they
      walk, which is always enough: [findCharts_fuel], [findChart_fuel] and
      [findSvg_fuel] show that any larger budget gives the same answer.
    - What the browser, the debugging protocol and [base64] compute is not
      this repository's code: they are parameters ([Browser], [Driver],
      [Chrome], [b64decode]); so are the answers of the debugger's HTTP
      endpoints ([Debugger]) and of [requests.get]. *)

From Stdlib Require Import ZArith Strings.String Strings.Ascii Strings.Byte List Floats Lia.
From stdpp Require Import gmap strings list pretty.

Open Scope string_scope.
Open Scope list_scope.
Open Scope nat_scope.

(** ** Python strings and bytes *)

Definition bytes : Type := list byte.

(** A bytes literal of ASCII characters, [b"..."] *)
Definition bytes_lit (s : string) : bytes := list_byte_of_string s.

(** [data.encode()]: a [str] is kept as its UTF-8 bytes. *)
Definition str_encode (s : string) : bytes := list_byte_of_string s.

(** [binary.startswith(sig)] *)
Fixpoint bytes_startswith (binary sig : bytes) {struct sig} : bool :=
  match sig with
  | [] => true
  | s :: sig' =>
      match binary with
      | [] => false
      | c :: binary' => Byte.eqb c s && bytes_startswith binary' sig'
      end
  end.

(** [s.startswith(p)] *)
Definition startswith (s p : string) : bool := String.prefix p s.

(** [s.endswith(p)] *)
Definition endswith (s p : string) : bool :=
  String.prefix (String.rev p) (String.rev s).

(** [c.lower()] on one character; only [A-Z] change.  (Python lowers
    non-ASCII letters too; as UTF-8 bytes they stay outside the ASCII range
    either way, see [_detect_image].) *)
Definition ascii_lower (c : ascii) : ascii :=
  let n := nat_of_ascii c in
  if (65 <=? n)%nat && (n <=? 90)%nat then ascii_of_nat (n + 32) else c.

(** [s.lower()], also JavaScript's [s.toLowerCase()] *)
Fixpoint lower (s : string) : string :=
  match s with
  | EmptyString => EmptyString
  | String c s' => String (ascii_lower c) (lower s')
  end.

Definition toLowerCase := lower.

(** [s[:n]] and [s[n:]] *)
Fixpoint str_take (n : nat) (s : string) : string :=
  match n, s with
  | S n', String c s' => String c (str_take n' s')
  | _, _ => EmptyString
  end.

Fixpoint str_drop (n : nat) (s : string) : string :=
  match n, s with
  | S n', String _ s' => str_drop n' s'
  | _, _ => s
  end.

(** [s.replace(old, new)]: every non-overlapping occurrence, left to right.
    [old] is not empty at either call site. *)
Fixpoint replace_go (fuel : nat) (s old new : string) : string :=
  match fuel with
  | O => s
  | S fuel' =>
      match s with
      | EmptyString => EmptyString
      | String c s' =>
          if startswith s old
          then new +:+ replace_go fuel' (str_drop (String.length old) s) old new
          else String c (replace_go fuel' s' old new)
      end
  end.

Definition replace (s old new : string) : string :=
  replace_go (String.length s) s old new.

(** [s.rfind(c)] for a single character: [None] is Python's [-1]. *)
Fixpoint rfind (c : ascii) (s : string) : option nat :=
  match s with
  | EmptyString => None
  | String a s' =>
      match rfind c s' with
      | Some i => Some (S i)
      | None => if Ascii.eqb a c then Some O else None
      end
  end.

(** [c in s] *)
Fixpoint contains (c : ascii) (s : string) : bool :=
  match s with
  | EmptyString => false
  | String a s' => Ascii.eqb a c || contains c s'
  end.

(** [s.split(sep)] for a single-character separator *)
Fixpoint split_go (sep : ascii) (cur : string) (s : string) : list string :=
  match s with
  | EmptyString => [String.rev cur]
  | String c s' =>
      if Ascii.eqb c sep then String.rev cur :: split_go sep EmptyString s'
      else split_go sep (String c cur) s'
  end.

Definition split (sep : ascii) (s : string) : list string :=
  split_go sep EmptyString s.

(** [sep.join(l)] *)
Fixpoint join (sep : string) (l : list string) : string :=
  match l with
  | [] => EmptyString
  | [x] => x
  | x :: l' => x +:+ sep +:+ join sep l'
  end.

(** [data_url.partition(",")]: the text after the first comma, or the empty
    string when there is none. *)
Fixpoint partition_payload (s : string) : string :=
  match s with
  | EmptyString => EmptyString
  | String c s' => if Ascii.eqb c "," then s' else partition_payload s'
  end.

(** Truthiness of a Python or JavaScript string *)
Definition truthy (s : string) : bool := negb (String.eqb s "").

(** [a || b] on strings that may be [null] *)
Definition js_or (a : option string) (d : string) : string :=
  match a with
  | Some s => if truthy s then s else d
  | None => d
  end.

(** ** [pathlib.PurePosixPath], as far as [with_suffix] needs it *)

Record PurePath := { root : string; parts : list string }.

Definition is_component (c : string) : bool :=
  truthy c && negb (String.eqb c ".").

Definition Path (p : string) : PurePath :=
  {| root := if startswith p "/"
             then if startswith p "//" && negb (startswith p "///")
                  then "//" else "/"
             else "";
     parts := List.filter is_component (split "/" p) |}.

(** [str(path)] *)
Definition path_str (p : PurePath) : string :=
  match root p, parts p with
  | EmptyString, [] => "."
  | r, ps => r +:+ join "/" ps
  end.

(** [path.name] *)
Definition path_name (p : PurePath) : string := List.last (parts p) "".

Definition name_suffix (name : string) : string :=
  match rfind "." name with
  | Some i =>
      if (0 <? i)%nat && (i <? String.length name - 1)%nat
      then str_drop i name else ""
  | None => ""
  end.

(** [path.suffix] *)
Definition path_suffix (p : PurePath) : string := name_suffix (path_name p).

(** ** Outcomes of JavaScript and Python code *)

Inductive js_error := RangeError | SecurityError | TypeError | InvalidStateError.

(** A JavaScript computation: its value, or the error it throws. *)
Inductive js (A : Type) : Type :=
| JsOk (a : A)
| JsThrow (e : js_error).
Arguments JsOk {A} a.
Arguments JsThrow {A} e.

#[global] Instance js_ret : MRet js := λ A a, JsOk a.
#[global] Instance js_bind : MBind js := λ A B f m,
  match m with
  | JsOk a => f a
  | JsThrow e => JsThrow e
  end.

Inductive exception :=
| JavascriptException (e : js_error)
| WebDriverException (msg : string)
| SessionNotCreatedException (msg : string)
| RuntimeError (msg : string)
| ValueError (msg : string)
| BinasciiError
| OverflowError.

Inductive outcome (A : Type) : Type :=
| Ok (a : A)
| Raise (e : exception).
Arguments Ok {A} a.
Arguments Raise {A} e.

(** ** The page: a tree of elements with shadow roots *)

#[warnings="-register-all"] Inductive element := Element {
  tagName : string;
  attributes : list (string * string);
  currentSrc : string;
  naturalWidth : nat;
  width : nat;
  naturalHeight : nat;
  height : nat;
  children : list element;
  (** [el.shadowRoot]: the children of the attached open shadow root;
      [None] when there is none or it is closed. *)
  shadowRoot : option (list element)
}.

(** What JavaScript calls a node here: an element, or a shadow root (a
    fragment, with children but no tag, no attributes and no shadow root of
    its own). *)
Inductive node :=
| NElement (e : element)
| NShadowRoot (kids : list element).

Definition node_children (nd : node) : list element :=
  match nd with
  | NElement e => children e
  | NShadowRoot kids => kids
  end.

Definition node_shadowRoot (nd : node) : option (list element) :=
  match nd with
  | NElement e => shadowRoot e
  | NShadowRoot _ => None
  end.

(** [el.getAttribute(name)] *)
Fixpoint assoc (name : string) (l : list (string * string)) : option string :=
  match l with
  | [] => None
  | (k, v) :: l' => if String.eqb k name then Some v else assoc name l'
  end.

Definition getAttribute (e : element) (name : string) : option string :=
  assoc name (attributes e).

(** An element followed by its descendants, in document order; shadow trees
    are not entered. *)
Fixpoint subtree (e : element) : list element :=
  match e with
  | Element _ _ _ _ _ _ _ kids _ => e :: flat_map subtree kids
  end.

(** [root.querySelectorAll('*')] where [kids] are the children of [root] *)
Definition querySelectorAll (kids : list element) : list element :=
  flat_map subtree kids.

(** [el.matches(selector)] for a type selector *)
Definition matches (e : element) (selector : string) : bool :=
  String.eqb (toLowerCase (tagName e)) selector.

(** [root.querySelector(selector)] for a type selector *)
Definition querySelector (kids : list element) (selector : string)
  : option element :=
  List.find (λ e, matches e selector) (querySelectorAll kids).

(** The number of nodes of a tree, shadow roots and their trees included.
    It bounds every nesting depth, so it serves as the fuel the entry points
    hand to the recursive functions. *)
Fixpoint size_el (e : element) : nat :=
  match e with
  | Element _ _ _ _ _ _ _ kids sh =>
      S (list_sum (List.map size_el kids)
         + match sh with
           | Some sr => S (list_sum (List.map size_el sr))
           | None => 0
           end)
  end.

Definition size_list (l : list element) : nat := list_sum (List.map size_el l).

(** Induction over an element with its children and its shadow tree. *)
Fixpoint element_tree_ind (P : element → Prop)
  (step : ∀ e, Forall P (children e)
               → match shadowRoot e with
                 | Some sr => Forall P sr
                 | None => True
                 end
               → P e)
  (e : element) {struct e} : P e :=
  let all := fix all (l : list element) : Forall P l :=
    match l with
    | [] => @List.Forall_nil _ P
    | c :: l' => @List.Forall_cons _ P c l' (element_tree_ind P step c) (all l')
    end in
  match e as e0 return P e0 with
  | Element t a cs nw w nh h kids sh =>
      step (Element t a cs nw w nh h kids sh) (all kids)
        match sh as o return match o with
                             | Some sr => Forall P sr
                             | None => True
                             end with
        | Some sr => all sr
        | None => I
        end
  end.

(** [el.outerHTML]: the element and its light-DOM descendants; a shadow tree
    is not part of the markup.  Text nodes are not modelled. *)
Definition dquote : string := String (ascii_of_nat 34) EmptyString.

Fixpoint attrs_markup (l : list (string * string)) : string :=
  match l with
  | [] => EmptyString
  | (k, v) :: l' => " " +:+ k +:+ "=" +:+ dquote +:+ v +:+ dquote +:+ attrs_markup l'
  end.

Fixpoint outerHTML (e : element) : string :=
  match e with
  | Element tag attrs _ _ _ _ _ kids _ =>
      "<" +:+ tag +:+ attrs_markup attrs +:+ ">"
      +:+ String.concat "" (List.map outerHTML kids)
      +:+ "</" +:+ tag +:+ ">"
  end.

(** ** The browser the driver is attached to *)

Record XhrResponse := {
  xhr_status : nat;
  xhr_response : bytes;
  xhr_contentType : option string
}.

(** The loaded document and the browser functions the injected scripts call.
    What they compute is the browser's business; the scripts only see whether
    they return or throw. *)
Record Browser := {
  (** the top-level elements of [document] *)
  document : list element;
  (** draw [img] on a fresh canvas of the given size and export it:
      [canvas.toDataURL('image/png')] *)
  drawImage_toDataURL : element → nat → nat → js string;
  (** [canvasEl.toDataURL('image/png')] *)
  canvas_toDataURL : element → js string;
  (** [new URL(href, location.href).toString()] *)
  resolve_URL : string → js string;
  (** the synchronous credentialed GET of [captureImage] *)
  xhr_get : string → js XhrResponse;
  btoa : bytes → string
}.

(** ** The injected scripts *)

(** The object a capture script returns, by its [kind] field. *)
Inductive capture_result :=
| KindSvg (svg : string)
| KindInline (data : string) (mime : option string)
| KindHref (href : string)
| KindMissing (reason : option string).

(** One entry of the array [findCharts] builds: [{tag, element: el}] *)
Record chart := { chart_tag : string; chart_element : element }.

(** [for (const x of l) { const found = f(x); if (found) return found; }
     return null;] *)
Fixpoint first_found {A B : Type} (f : A → option B) (l : list A) : option B :=
  match l with
  | [] => None
  | x :: l' =>
      match f x with
      | Some y => Some y
      | None => first_found f l'
      end
  end.

Fixpoint js_first_found {A B : Type} (f : A → js (option B)) (l : list A)
  : js (option B) :=
  match l with
  | [] => JsOk None
  | x :: l' =>
      found ← f x;
      match found with
      | Some y => JsOk (Some y)
      | None => js_first_found f l'
      end
  end.

(** [a || b] on numbers *)
Definition nat_or (a d : nat) : nat := if (a =? 0)%nat then d else a.

Section Scripts.

Variable B : Browser.

(** [findCharts(root, chartTypes)] of [find_charts_in_shadow_dom] *)
Fixpoint findCharts (fuel : nat) (root : option (list element))
  (chartTypes : list string) : js (list chart) :=
  match root with
  | None => JsOk []
  | Some kids =>
      match fuel with
      | O => JsThrow RangeError
      | S fuel' =>
          foldl
            (λ acc el,
               charts ← acc;
               let tag := toLowerCase (tagName el) in
               let charts :=
                 if bool_decide (tag ∈ chartTypes)
                 then charts ++ [{| chart_tag := tag; chart_element := el |}]
                 else charts in
               match shadowRoot el with
               | Some sr =>
                   inner ← findCharts fuel' (Some sr) chartTypes;
                   JsOk (charts ++ inner)
               | None => JsOk charts
               end)
            (JsOk []) (querySelectorAll kids)
      end
  end.

(** [deepQuery(node, selector, depth)].  It recurses only while
    [depth <= 12]; [gas] is [13 - depth]. *)
Fixpoint deepQuery_at (gas : nat) (nd : node) (selector : string)
  (depth : nat) : option element :=
  if (12 <? depth)%nat then None
  else
    match gas with
    | O => None
    | S gas' =>
        let self :=
          match nd with
          | NElement e => if matches e selector then Some e else None
          | NShadowRoot _ => None
          end in
        match self with
        | Some e => Some e
        | None =>
            match querySelector (node_children nd) selector with
            | Some direct => Some direct
            | None =>
                let shadowResult :=
                  match node_shadowRoot nd with
                  | Some sr =>
                      deepQuery_at gas' (NShadowRoot sr) selector (depth + 1)
                  | None => None
                  end in
                match shadowResult with
                | Some r => Some r
                | None =>
                    first_found
                      (λ child,
                         deepQuery_at gas' (NElement child) selector (depth + 1))
                      (node_children nd)
                end
            end
        end
    end.

Definition deepQuery (nd : node) (selector : string) : option element :=
  deepQuery_at 13 nd selector 0.

(** [findSvg(node)] *)
Fixpoint findSvg_at (fuel : nat) (nd : node) : js (option element) :=
  match fuel with
  | O => JsThrow RangeError
  | S fuel' =>
      let self :=
        match nd with
        | NElement e =>
            if String.eqb (toLowerCase (tagName e)) "svg" then Some e else None
        | NShadowRoot _ => None
        end in
      match self with
      | Some e => JsOk (Some e)
      | None =>
          found ← js_first_found (λ child, findSvg_at fuel' (NElement child))
                    (querySelectorAll (node_children nd));
          match found with
          | Some e => JsOk (Some e)
          | None =>
              match node_shadowRoot nd with
              | Some sr => findSvg_at fuel' (NShadowRoot sr)
              | None => JsOk None
              end
          end
      end
  end.

Definition findSvg (el : element) : js (option element) :=
  findSvg_at (size_el el) (NElement el).

(** [captureImage(node)], from [const svgImg = deepQuery(node, 'image')] on *)
Definition captureImage_image (el : element) : js (option capture_result) :=
  match deepQuery (NElement el) "image" with
  | Some svgImg =>
      let href := js_or (getAttribute svgImg "href")
                    (js_or (getAttribute svgImg "xlink:href") "") in
      if truthy href then
        abs ← resolve_URL B href;
        match xhr_get B abs with
        | JsOk xhr =>
            if (200 <=? xhr_status xhr)%nat && (xhr_status xhr <? 300)%nat then
              let base64 := btoa B (xhr_response xhr) in
              let type := js_or (xhr_contentType xhr) "image/png" in
              JsOk (Some (KindInline ("data:" +:+ type +:+ ";base64," +:+ base64)
                            (Some type)))
            else JsOk (Some (KindHref abs))
        | JsThrow _ => JsOk (Some (KindHref abs))
        end
      else JsOk None
  | None => JsOk None
  end.

(** [captureImage(node)], from [const canvasEl = deepQuery(node, 'canvas')] on *)
Definition captureImage_canvas (el : element) : js (option capture_result) :=
  match deepQuery (NElement el) "canvas" with
  | Some canvasEl =>
      match canvas_toDataURL B canvasEl with
      | JsOk data => JsOk (Some (KindInline data None))
      | JsThrow _ => captureImage_image el
      end
  | None => captureImage_image el
  end.

Definition captureImage (el : element) : js (option capture_result) :=
  match deepQuery (NElement el) "img" with
  | Some img =>
      let src := js_or (getAttribute img "src") (js_or (Some (currentSrc img)) "") in
      if startswith src "data:image/" then JsOk (Some (KindInline src None))
      else
        let w := nat_or (naturalWidth img) (nat_or (width img) 0) in
        let h := nat_or (naturalHeight img) (nat_or (height img) 0) in
        if negb (w =? 0)%nat && negb (h =? 0)%nat then
          data ← drawImage_toDataURL B img w h;
          JsOk (Some (KindInline data None))
        else captureImage_canvas el
  | None => captureImage_canvas el
  end.

(** The body of [findChart] once [el] is the element asked for. *)
Definition capture (el : element) (preferImage : bool) : js capture_result :=
  let useImageFirst := preferImage in
  svg ← findSvg el;
  let svgResult := (λ s, KindSvg (outerHTML s)) <$> svg in
  imageResult ← captureImage el;
  if useImageFirst then
    match imageResult, svgResult with
    | Some r, _ => JsOk r
    | None, Some r => JsOk r
    | None, None => JsOk (KindMissing None)
    end
  else
    match svgResult, imageResult with
    | Some r, _ => JsOk r
    | None, Some r => JsOk r
    | None, None => JsOk (KindMissing None)
    end.

(** The [for (const el of nodes)] loop of [findChart]; [inner] is the
    recursive call on a shadow root, and the shared counter [state.idx] goes
    in and comes out. *)
Fixpoint findChart_loop
  (inner : list element → nat → js (option capture_result * nat))
  (targetTag : string) (targetIndex : nat) (preferImage : bool)
  (nodes : list element) (idx : nat) : js (option capture_result * nat) :=
  match nodes with
  | [] => JsOk (None, idx)
  | el :: nodes' =>
      let tag := toLowerCase (tagName el) in
      if String.eqb tag targetTag && (idx =? targetIndex)%nat then
        r ← capture el preferImage;
        JsOk (Some r, idx)
      else
        let idx := if String.eqb tag targetTag then S idx else idx in
        '(result, idx) ←
          match shadowRoot el with
          | Some sr => inner sr idx
          | None => JsOk (None, idx)
          end;
        match result with
        | Some r => JsOk (Some r, idx)
        | None => findChart_loop inner targetTag targetIndex preferImage nodes' idx
        end
  end.

(** [findChart(root, targetTag, targetIndex, preferImage, state)] *)
Fixpoint findChart (fuel : nat) (root : option (list element))
  (targetTag : string) (targetIndex : nat) (preferImage : bool)
  (state_idx : nat) : js (option capture_result * nat) :=
  match root with
  | None => JsOk (None, state_idx)
  | Some kids =>
      match fuel with
      | O => JsThrow RangeError
      | S fuel' =>
          findChart_loop
            (λ sr idx,
               findChart fuel' (Some sr) targetTag targetIndex preferImage idx)
            targetTag targetIndex preferImage (querySelectorAll kids) state_idx
      end
  end.

(** The script of [find_charts_in_shadow_dom], with [arguments[0]] *)
Definition find_charts_script (chartTypes : list string) : js (list string) :=
  match querySelector (document B) "tmn-ferp-app" with
  | None => JsOk []
  | Some app =>
      match shadowRoot app with
      | None => JsOk []
      | Some sr =>
          found ← findCharts (S (size_list sr)) (Some sr) chartTypes;
          JsOk (List.map chart_tag found)
      end
  end.

(** The script of [capture_chart_by_tag], with [arguments[0..2]] *)
Definition capture_script (tag : string) (index : nat) (prefer_image : bool)
  : js capture_result :=
  match querySelector (document B) "tmn-ferp-app" with
  | None => JsOk (KindMissing (Some "main-app"))
  | Some app =>
      match shadowRoot app with
      | None => JsOk (KindMissing (Some "main-app"))
      | Some sr =>
          '(result, _) ←
            findChart (S (size_list sr)) (Some sr) tag index prefer_image 0;
          JsOk (default (KindMissing None) result)
      end
  end.

End Scripts.

(** ** The Python side: state, exceptions, files *)

Inductive content :=
| Text (s : string)
| Binary (bs : bytes).

Inductive event :=
| Printed (line : string)
| Slept (seconds : nat)
| MadeDirs (path : string).

Record world := {
  (** [self._frame_id] *)
  _frame_id : option string;
  (** the files written so far, by path *)
  files : gmap string content;
  (** what was printed and waited for, oldest first *)
  trace : list event
}.

Definition Py (A : Type) : Type := world → outcome A * world.

#[global] Instance Py_ret : MRet Py := λ A a w, (Ok a, w).
#[global] Instance Py_bind : MBind Py := λ A B f m w,
  match m w with
  | (Ok a, w') => f a w'
  | (Raise e, w') => (Raise e, w')
  end.

Definition raise {A : Type} (e : exception) : Py A := λ w, (Raise e, w).

Definition lift {A : Type} (o : outcome A) : Py A := λ w, (o, w).

Definition log (ev : event) : Py unit := λ w,
  (Ok tt, {| _frame_id := _frame_id w; files := files w; trace := trace w ++ [ev] |}).

Definition print (line : string) : Py unit := log (Printed line).
Definition sleep (seconds : nat) : Py unit := log (Slept seconds).

(** [final.write_text(s)] and [final.write_bytes(bs)]; the file system is
    taken to accept the write. *)
Definition write (p : PurePath) (c : content) : Py unit := λ w,
  (Ok tt, {| _frame_id := _frame_id w;
             files := <[path_str p := c]> (files w);
             trace := trace w |}).

Definition get_frame_id : Py (option string) := λ w, (Ok (_frame_id w), w).

Definition set_frame_id (fid : string) : Py unit := λ w,
  (Ok tt, {| _frame_id := Some fid; files := files w; trace := trace w |}).

(** [driver.execute_script(js, ...)]: a script that throws surfaces as a
    [JavascriptException]. *)
Definition execute_script {A : Type} (script : js A) : Py A :=
  match script with
  | JsOk a => mret a
  | JsThrow e => raise (JavascriptException e)
  end.

(** [path.with_suffix(suffix)] *)
Definition with_suffix (p : PurePath) (suffix : string) : outcome PurePath :=
  if contains "/" suffix then Raise (ValueError "Invalid suffix")
  else if (truthy suffix && negb (startswith suffix ".")) || String.eqb suffix "."
  then Raise (ValueError "Invalid suffix")
  else
    let name := path_name p in
    if negb (truthy name) then Raise (ValueError "empty name")
    else
      let old_suffix := path_suffix p in
      let name :=
        if negb (truthy old_suffix) then name +:+ suffix
        else str_take (String.length name - String.length old_suffix) name +:+ suffix in
      Ok {| root := root p; parts := removelast (parts p) ++ [name] |}.

(** [os.path.join(a, p)] *)
Definition os_path_join (a p : string) : string :=
  if startswith p "/" then p
  else if negb (truthy a) || endswith a "/" then a +:+ p
  else a +:+ "/" +:+ p.

(** The responses of the two protocol calls, as the code reads them. *)
Record Frame := { frame_id : option string }.
Record FrameTree := { frame : option Frame }.
Record FrameTreeResponse := { frameTree : option FrameTree }.

Record ResourceContent := {
  (** [content.get("content")] *)
  resource_content : option string;
  (** the truth value of [content.get("base64Encoded")] *)
  base64Encoded : bool
}.

(** The attached driver: the browser of the scripts and the protocol calls. *)
Record Driver := {
  browser : Browser;
  (** [execute_cdp_cmd("Page.getFrameTree", {})] *)
  Page_getFrameTree : outcome FrameTreeResponse;
  (** [execute_cdp_cmd("Page.getResourceContent", {"frameId": f, "url": u})] *)
  Page_getResourceContent : string → string → outcome ResourceContent
}.

Definition CHART_TYPES : list string := [
  "tmn-pie-chart-baseball";
  "tmn-pitch-chart-baseball";
  "tmn-pitch-break-chart-baseball";
  "tmn-release-point-chart-baseball";
  "tmn-radial-histogram-chart-baseball";
  "tmn-extension-point-chart-baseball";
  "tmn-heat-map-baseball"
].

(** [_detect_image(binary, url)] *)
Definition signatures : list (bytes * string) := [
  (Byte.x89 :: bytes_lit "PNG" ++ [Byte.x0d; Byte.x0a; Byte.x1a; Byte.x0a], "png");
  ([Byte.xff; Byte.xd8; Byte.xff], "jpg");
  (bytes_lit "GIF87a", "gif");
  (bytes_lit "GIF89a", "gif");
  (bytes_lit "RIFF", "webp")
].

Definition _detect_image (binary : bytes) (url : string) : string :=
  match List.find (λ '(sig, _), bytes_startswith binary sig) signatures with
  | Some (_, ext) => ext
  | None =>
      let lower := lower url in
      match List.find (λ ext, endswith lower ("." +:+ ext))
              ["png"; "jpg"; "jpeg"; "gif"; "webp"] with
      | Some ext => if String.eqb ext "jpeg" then "jpg" else ext
      | None => "png"
      end
  end.

(** [_mime_to_ext(mime)] *)
Definition _mime_to_ext (mime : option string) : string :=
  match mime with
  | None => "png"
  | Some mime =>
      if negb (truthy mime) then "png"
      else
        let mime := lower mime in
        default "png"
          (assoc mime [("image/png", "png"); ("image/jpeg", "jpg");
                       ("image/jpg", "jpg"); ("image/gif", "gif");
                       ("image/webp", "webp")])
  end.

(** [chart_counts], a dict in insertion order *)
Fixpoint dict_get (d : list (string * nat)) (k : string) (dflt : nat) : nat :=
  match d with
  | [] => dflt
  | (k', v) :: d' => if String.eqb k' k then v else dict_get d' k dflt
  end.

Fixpoint dict_set (d : list (string * nat)) (k : string) (v : nat)
  : list (string * nat) :=
  match d with
  | [] => [(k, v)]
  | (k', v') :: d' =>
      if String.eqb k' k then (k', v) :: d' else (k', v') :: dict_set d' k v
  end.

Definition nl : string := String (ascii_of_nat 10) EmptyString.

(** ** class TruMediaScraper *)

Section TruMediaScraper.

(** [self.heat_map_png] and [self.driver] *)
Variable heat_map_png : bool.
Variable driver : Driver.

(** [base64.b64decode]; [None] stands for [binascii.Error]. *)
Variable b64decode : string → option bytes.

Definition b64decode_or_raise (payload : string) : Py bytes :=
  match b64decode payload with
  | Some binary => mret binary
  | None => raise BinasciiError
  end.

Definition find_charts_in_shadow_dom : Py (list string) :=
  execute_script (find_charts_script (browser driver) CHART_TYPES).

Definition _write_data_url (path data_url : string) (mime : option string)
  : Py (option string) :=
  if negb (startswith data_url "data:") then mret None
  else
    let payload := partition_payload data_url in
    binary ← b64decode_or_raise payload;
    let extension := _mime_to_ext mime in
    final ← lift (with_suffix (Path path) ("." +:+ extension));
    write final (Binary binary);;
    mret (Some (path_str final)).

Definition _get_frame_id : Py string :=
  tree ← lift (Page_getFrameTree driver);
  let frame_id := (frameTree tree ≫= frame) ≫= frame_id in
  match frame_id with
  | Some fid =>
      if truthy fid then set_frame_id fid;; mret fid
      else raise (RuntimeError "Unable to determine frame id for resource download")
  | None => raise (RuntimeError "Unable to determine frame id for resource download")
  end.

(** [self._frame_id or self._get_frame_id()] *)
Definition cached_or_fetched_frame_id : Py string :=
  cached ← get_frame_id;
  match cached with
  | Some fid => if truthy fid then mret fid else _get_frame_id
  | None => _get_frame_id
  end.

Definition _download_resource (path url : string) : Py (option string) :=
  frame_id ← cached_or_fetched_frame_id;
  content ← lift (Page_getResourceContent driver frame_id url);
  match resource_content content with
  | None =>
      print ("⚠️  Unable to fetch heat map image at " +:+ url);;
      mret None
  | Some data =>
      binary ←
        (if base64Encoded content then b64decode_or_raise data
         else mret (str_encode data));
      let ext := _detect_image binary url in
      final ← lift (with_suffix (Path path) ("." +:+ ext));
      write final (Binary binary);;
      mret (Some (path_str final))
  end.

(** The script always answers with an object that has a [kind], so the
    [if not result: return None] of the code is never taken. *)
Definition capture_chart_by_tag (tag : string) (index : nat)
  (output_path : string) : Py (option string) :=
  let prefer_image := heat_map_png && String.eqb tag "tmn-heat-map-baseball" in
  result ← execute_script (capture_script (browser driver) tag index prefer_image);
  match result with
  | KindSvg svg =>
      if truthy svg then
        write (Path output_path) (Text svg);;
        mret (Some output_path)
      else mret None
  | KindInline data mime =>
      if truthy data then _write_data_url output_path data mime else mret None
  | KindHref href =>
      if truthy href then _download_resource output_path href else mret None
  | KindMissing _ => mret None
  end.

(** The first loop of [scrape_current_page], run from the dict
    [chart_counts]; the code starts it from the empty dict. *)
Definition count_from (chart_counts : list (string * nat)) (charts : list string)
  : list (string * nat) :=
  foldl (λ chart_counts tag, dict_set chart_counts tag (dict_get chart_counts tag 0 + 1))
    chart_counts charts.

Definition count_charts (charts : list string) : list (string * nat) :=
  count_from [] charts.

Definition chart_name (tag : string) : string :=
  replace (replace tag "tmn-" "") "-baseball" "".

Definition chart_filename (tag : string) (idx count : nat) : string :=
  if (1 <? count)%nat then chart_name tag +:+ "_" +:+ pretty idx +:+ ".svg"
  else chart_name tag +:+ ".svg".

(** The iterations of the two nested loops of [scrape_current_page], in
    order: the tag, the index and the path handed to
    [capture_chart_by_tag]. *)
Definition capture_plan (chart_counts : list (string * nat))
  (output_dir : string) : list (string * nat * string) :=
  flat_map
    (λ '(tag, count),
       List.map
         (λ idx, (tag, idx, os_path_join output_dir (chart_filename tag idx count)))
         (seq 0 count))
    chart_counts.

Fixpoint capture_each (plan : list (string * nat * string))
  (captured : list string) : Py (list string) :=
  match plan with
  | [] => mret captured
  | (tag, idx, filepath) :: plan' =>
      saved_path ← capture_chart_by_tag tag idx filepath;
      match saved_path with
      | Some saved =>
          if truthy saved then
            print ("  ✓ " +:+ path_name (Path saved));;
            capture_each plan' (captured ++ [saved])
          else capture_each plan' captured
      | None => capture_each plan' captured
      end
  end.

Definition scrape_current_page (output_dir : string) : Py (list string) :=
  print (nl +:+ "Waiting for charts to load...");;
  sleep 7;;
  print "Finding charts in shadow DOM...";;
  charts ← find_charts_in_shadow_dom;
  match charts with
  | [] =>
      print "⚠️  No charts found";;
      mret []
  | _ =>
      print ("✓ Found " +:+ pretty (length charts) +:+ " chart element(s)");;
      let chart_counts := count_charts charts in
      log (MadeDirs output_dir);;
      print (nl +:+ "Capturing charts...");;
      capture_each (capture_plan chart_counts output_dir) []
  end.

End TruMediaScraper.

(** ** [TruMediaScraper.connect] *)

(** What [connect] does to the outside world, in order.  The helpers
    [_wait_for_debugger_ready], [_ensure_debugger_target] and
    [_log_debugger_snapshot] are single steps here: what the first two give,
    an answer or the error that leaves them, comes from the environment, and
    their own polling is not part of [connect].  [_log_debugger_snapshot]
    catches every error of its requests and gives nothing back. *)
Inductive step :=
| Say (line : string)
| Wait (seconds : nat)
| WaitForDebuggerReady (timeout : nat)
| EnsureDebuggerTarget
| StartService
| Attach
| StopService
| LogDebuggerSnapshot.

(** The environment [connect] runs against.  The [k]-th call of a helper or
    of [webdriver.Chrome] gets the [k]-th answer (from 0). *)
Record Chrome := {
  debug_port : N;
  (** [_find_chromedriver()]: the path, [None], or the error it raises *)
  chromedriver : outcome (option string);
  (** [_ensure_debug_session()]: [launched], or the error it raises *)
  debug_session : outcome bool;
  (** [_wait_for_debugger_ready(timeout)]: its answer, or the error that
      leaves it (its [data.get] and the decoding of the body are not
      guarded) *)
  debugger_ready : nat → outcome bool;
  (** [_ensure_debugger_target()]: its answer, or the error that leaves it
      (the [json.loads] after a new tab was asked for is not guarded) *)
  debugger_target : nat → outcome bool;
  (** [webdriver.Chrome(service=service, options=chrome_options)] *)
  attach : nat → outcome unit
}.

Record session := {
  ready_calls : nat;
  target_calls : nat;
  attach_calls : nat;
  steps : list step
}.

Definition Conn (A : Type) : Type := session → outcome A * session.

#[global] Instance Conn_ret : MRet Conn := λ A a s, (Ok a, s).
#[global] Instance Conn_bind : MBind Conn := λ A B f m s,
  match m s with
  | (Ok a, s') => f a s'
  | (Raise e, s') => (Raise e, s')
  end.

Definition conn_raise {A : Type} (e : exception) : Conn A := λ s, (Raise e, s).

Definition record (st : step) : Conn unit := λ s,
  (Ok tt, {| ready_calls := ready_calls s; target_calls := target_calls s;
             attach_calls := attach_calls s; steps := steps s ++ [st] |}).

Section Connect.

Variable chrome : Chrome.

Definition _wait_for_debugger_ready (timeout : nat) : Conn bool := λ s,
  (debugger_ready chrome (ready_calls s),
   {| ready_calls := S (ready_calls s); target_calls := target_calls s;
      attach_calls := attach_calls s;
      steps := steps s ++ [WaitForDebuggerReady timeout] |}).

Definition _ensure_debugger_target : Conn bool := λ s,
  (debugger_target chrome (target_calls s),
   {| ready_calls := ready_calls s; target_calls := S (target_calls s);
      attach_calls := attach_calls s;
      steps := steps s ++ [EnsureDebuggerTarget] |}).

(** [webdriver.Chrome(...)] inside the [try]: the outcome is handed back so
    that the [except] clause can look at it. *)
Definition webdriver_Chrome : Conn (outcome unit) := λ s,
  (Ok (attach chrome (attach_calls s)),
   {| ready_calls := ready_calls s; target_calls := target_calls s;
      attach_calls := S (attach_calls s); steps := steps s ++ [Attach] |}).

Definition retry_message (attempt wait_time : nat) : string :=
  "Chrome not ready for remote debugging (attempt " +:+ pretty (attempt + 1)
  +:+ "/4). Retrying in " +:+ pretty wait_time +:+ " seconds...".

(** [for attempt in range(4): ...]; the result tells whether the loop was
    left by [break]. *)
Fixpoint attach_loop (attempts : list nat) : Conn bool :=
  match attempts with
  | [] => mret false
  | attempt :: attempts' =>
      record StartService;;
      attached ← webdriver_Chrome;
      match attached with
      | Ok _ => mret true
      | Raise (SessionNotCreatedException msg) =>
          record StopService;;
          if (attempt <? 3)%nat then
            let wait_time := 2 + attempt in
            record (Say (retry_message attempt wait_time));;
            record (Wait wait_time);;
            _wait_for_debugger_ready 15;;
            _ensure_debugger_target;;
            attach_loop attempts'
          else
            record LogDebuggerSnapshot;;
            conn_raise (SessionNotCreatedException msg)
      | Raise e => conn_raise e
      end
  end.

Definition connect : Conn unit :=
  driver_path ← (λ s, (chromedriver chrome, s));
  match driver_path with
  | None => conn_raise (RuntimeError "chromedriver not found in ./chromedriver directory")
  | Some driver_path =>
      if negb (truthy driver_path)
      then conn_raise (RuntimeError "chromedriver not found in ./chromedriver directory")
      else
        launched ← (λ s, (debug_session chrome, s));
        ready ← _wait_for_debugger_ready 60;
        if negb ready
        then conn_raise
               (RuntimeError
                  ("Chrome remote debugger on port " +:+ pretty (debug_port chrome)
                   +:+ " did not become ready. Ensure the debugging Chrome window"
                   +:+ " is open and not blocked by dialogs."))
        else
          target ← _ensure_debugger_target;
          (if negb target then
             record (Say "No Chrome tabs found. Creating new tab...");;
             record (Wait 2);;
             target ← _ensure_debugger_target;
             if negb target
             then conn_raise
                    (RuntimeError
                       ("Chrome remote debugger is running but no tab is available. "
                        +:+ "Please ensure Chrome debug window has at least one tab open."))
             else mret tt
           else mret tt);;
          attach_loop (seq 0 4);;
          let state := if launched : bool then "fresh session" else "existing session" in
          record (Say ("✓ Connected to Chrome on port " +:+ pretty (debug_port chrome)
                       +:+ " (" +:+ state +:+ ")"))
  end.

End Connect.

Definition new_session : session :=
  {| ready_calls := 0; target_calls := 0; attach_calls := 0; steps := [] |}.

(** The waits [connect] makes once it has started attaching. *)
Fixpoint waits (l : list step) : list nat :=
  match l with
  | [] => []
  | Wait n :: l' => n :: waits l'
  | _ :: l' => waits l'
  end.

Fixpoint from_first_attach (l : list step) : list step :=
  match l with
  | [] => []
  | Attach :: l' => Attach :: l'
  | _ :: l' => from_first_attach l'
  end.

Definition backoff_waits (l : list step) : list nat := waits (from_first_attach l).

Definition attach_count (l : list step) : nat :=
  length (List.filter (λ st, match st with Attach => true | _ => false end) l).

(** ** [format_percentage] of the pitching report *)

(** The values a statistic takes: [None], an integer, a float (NaN included),
    or an object [float()] rejects.  Numeric strings are not modelled. *)
Inductive pyvalue :=
| PyNone
| PyInt (z : Z)
| PyFloat (f : float)
| PyObject.


(** [float(value)] *)
Definition to_float (value : pyvalue) : outcome float :=
  match value with
  | PyFloat f => Ok f
  | PyInt z =>
      match binary_normalize prec emax z 0 false with
      | S754_infinity _ => Raise OverflowError
      | sf => Ok (SF2Prim sf)
      end
  | _ => Raise (ValueError "could not convert to float")
  end.

(** [num / den] rounded to the nearest integer, ties to even; [den > 0]. *)
Definition round_half_even (num den : Z) : Z :=
  let q := (num / den)%Z in
  let r := (num mod den)%Z in
  match (2 * r ?= den)%Z with
  | Lt => q
  | Gt => (q + 1)%Z
  | Eq => if Z.even q then q else (q + 1)%Z
  end.

(** [k] zeros before [s] *)
Fixpoint zeros_before (k : nat) (s : string) : string :=
  match k with
  | O => s
  | S k' => "0" +:+ zeros_before k' s
  end.

(** [s] padded with zeros on the left to the width [n] *)
Definition zero_pad (n : nat) (s : string) : string :=
  zeros_before (n - String.length s) s.

(** The digits of [n / 10^decimals] with [decimals] places; [n >= 0]. *)
Definition fixed_digits (n : Z) (decimals : nat) : string :=
  let p := (10 ^ Z.of_nat decimals)%Z in
  pretty (Z.to_N (n / p))
  +:+ match decimals with
      | O => ""
      | _ => "." +:+ zero_pad decimals (pretty (Z.to_N (n mod p)))
      end.

Definition sign_str (s : bool) : string := if s then "-" else "".

(** [f"{x:.{decimals}f}"]: the exact value of the float, correctly rounded. *)
Definition format_fixed (x : float) (decimals : nat) : string :=
  match Prim2SF x with
  | S754_nan => "nan"
  | S754_infinity s => sign_str s +:+ "inf"
  | S754_zero s => sign_str s +:+ fixed_digits 0 decimals
  | S754_finite s m e =>
      let scaled := (Zpos m * 10 ^ Z.of_nat decimals)%Z in
      let n :=
        match e with
        | Zneg p => round_half_even scaled (2 ^ Zpos p)
        | _ => (scaled * 2 ^ e)%Z
        end in
      sign_str s +:+ fixed_digits n decimals
  end.


(** ** [TruMediaScraper._ensure_debugger_target] *)

Module DebuggerTarget.

(** What [urllib.request.urlopen(...)] followed by [read()] (and
    [decode("utf-8")]) comes to: the text, an error of the family the code
    catches ([URLError], [TimeoutError], [ConnectionError], [OSError]), or
    any other error. *)
Inductive answer (A : Type) : Type :=
| Answered (a : A)
| Unreachable
| Broke (e : exception).
Arguments Answered {A} a.
Arguments Unreachable {A}.
Arguments Broke {A} e.

(** The debugger's HTTP endpoints: the [k]-th request to [/json/list] and to
    [/json/new] (from 0), and [json.loads] as far as the code looks at its
    result: whether the value is truthy, or the [JSONDecodeError]. *)
Record Debugger := {
  json_list : nat → answer string;
  json_new : nat → answer unit;
  json_loads : string → outcome bool
}.

Record probe := {
  list_calls : nat;
  new_calls : nat;
  (** what was printed and slept, oldest first *)
  output : list event
}.

Definition Probe (A : Type) : Type := probe → outcome A * probe.

#[global] Instance Probe_ret : MRet Probe := λ A a s, (Ok a, s).
#[global] Instance Probe_bind : MBind Probe := λ A B f m s,
  match m s with
  | (Ok a, s') => f a s'
  | (Raise e, s') => (Raise e, s')
  end.

Definition probe_raise {A : Type} (e : exception) : Probe A := λ s, (Raise e, s).

Definition emit (ev : event) : Probe unit := λ s,
  (Ok tt, {| list_calls := list_calls s; new_calls := new_calls s;
             output := output s ++ [ev] |}).

Section Target.

Variable debugger : Debugger.

(** [urlopen(tabs_endpoint, timeout=1)] and [response.read().decode("utf-8")] *)
Definition urlopen_list : Probe (answer string) := λ s,
  (Ok (json_list debugger (list_calls s)),
   {| list_calls := S (list_calls s); new_calls := new_calls s;
      output := output s |}).

(** [urlopen(".../json/new", timeout=2).read()] *)
Definition urlopen_new : Probe (answer unit) := λ s,
  (Ok (json_new debugger (new_calls s)),
   {| list_calls := list_calls s; new_calls := S (new_calls s);
      output := output s |}).

(** [for attempt in range(3): ...] *)
Fixpoint create_tab_loop (attempts : list nat) : Probe bool :=
  match attempts with
  | [] => mret false
  | attempt :: attempts' =>
      let except : Probe bool :=
        (if (attempt <? 2)%nat then emit (Slept 1) else mret tt);;
        create_tab_loop attempts' in
      created ← urlopen_new;
      match created with
      | Broke e => probe_raise e
      | Unreachable => except
      | Answered _ =>
          emit (Slept 1);;
          listed ← urlopen_list;
          match listed with
          | Broke e => probe_raise e
          | Unreachable => except
          | Answered body =>
              match json_loads debugger body with
              | Raise e => probe_raise e
              | Ok pages =>
                  if pages then
                    emit (Printed "✓ New tab created successfully");;
                    mret true
                  else create_tab_loop attempts'
              end
          end
      end
  end.

Definition _ensure_debugger_target : Probe bool :=
  listed ← urlopen_list;
  match listed with
  | Unreachable => mret false
  | Broke e => probe_raise e
  | Answered body =>
      match json_loads debugger body with
      | Raise _ => mret false
      | Ok pages =>
          if pages then mret true
          else
            emit (Printed "No tabs open in Chrome. Attempting to create a new tab...");;
            create_tab_loop (seq 0 3)
      end
  end.

End Target.

(** The seconds slept. *)
Fixpoint slept (l : list event) : nat :=
  match l with
  | [] => 0
  | Slept n :: l' => n + slept l'
  | _ :: l' => slept l'
  end.

(** [s'] continues [s] with at most [lists] requests for the tab list, [news]
    requests for a new tab and [secs] seconds of sleep. *)
Definition within (s s' : probe) (lists news secs : nat) : Prop :=
  list_calls s ≤ list_calls s' ≤ list_calls s + lists
  ∧ new_calls s ≤ new_calls s' ≤ new_calls s + news
  ∧ ∃ extra, output s' = output s ++ extra ∧ slept extra ≤ secs.

(** A debugger without tabs that opens one at the second request. *)
Definition debugger_opens_tab_late : Debugger :=
  {| json_list := λ k, if (k <? 2)%nat then Answered "[]" else Answered "[{}]";
     json_new := λ k, if (k <? 1)%nat then Unreachable else Answered tt;
     json_loads := λ body, Ok (negb (String.eqb body "[]")) |}.

Definition new_probe : probe := {| list_calls := 0; new_calls := 0; output := [] |}.

End DebuggerTarget.

(** ** [scrape_pitcher_charts] of the scouting report *)

(** The dict the function fills and returns. *)
Record pitcher_charts := {
  heatmaps : list string;
  movement : option string;
  headshot : option string
}.

(** [pitcher_info], as far as the function reads it: [pitcher_info['name']]
    and [pitcher_info.get('headshot', '').strip()]. *)
Record pitcher := {
  pitcher_name : string;
  headshot_url : string
}.

(** [requests.get(url, timeout=10)]: [status_code] and [content] *)
Record Response := {
  status_code : nat;
  response_content : bytes
}.

(** The body of the [try] works on the world and on the dict [charts], which
    keeps what it holds when the body raises. *)
Definition Scraping (A : Type) : Type :=
  pitcher_charts → world → outcome A * pitcher_charts * world.

#[global] Instance Scraping_ret : MRet Scraping := λ A a charts w, (Ok a, charts, w).
#[global] Instance Scraping_bind : MBind Scraping := λ A B f m charts w,
  match m charts w with
  | (Ok a, charts', w') => f a charts' w'
  | (Raise e, charts', w') => (Raise e, charts', w')
  end.

Definition py {A : Type} (m : Py A) : Scraping A := λ charts w,
  let '(r, w') := m w in (r, charts, w').

(** [charts['heatmaps'].append(path)] *)
Definition append_heatmap (path : string) : Scraping unit := λ charts w,
  (Ok tt, {| heatmaps := heatmaps charts ++ [path]; movement := movement charts;
             headshot := headshot charts |}, w).

(** [charts['movement'] = path] *)
Definition set_movement (path : string) : Scraping unit := λ charts w,
  (Ok tt, {| heatmaps := heatmaps charts; movement := Some path;
             headshot := headshot charts |}, w).

(** [charts['headshot'] = filename] *)
Definition set_headshot (filename : string) : Scraping unit := λ charts w,
  (Ok tt, {| heatmaps := heatmaps charts; movement := movement charts;
             headshot := Some filename |}, w).

(** [try: body except Exception as e: handler(e)] *)
Definition try_except {A : Type} (body : Scraping A) (handler : exception → Scraping A)
  : Scraping A := λ charts w,
  match body charts w with
  | (Ok a, charts', w') => (Ok a, charts', w')
  | (Raise e, charts', w') => handler e charts' w'
  end.

(** The heat maps [scrape_pitcher_charts] asks for, in order: the index given
    to [capture_chart_by_tag] and the file.  [located] is
    [len(heat_map_charts)]; where the code's [range] gets a negative bound the
    truncated subtraction gives 0, and both make no iteration. *)
Definition heat_map_plan (pitcher_index located : nat) (pitcher_dir : string)
  : list (nat * string) :=
  let charts_per_pitcher := 18 in
  let chart_offset := pitcher_index * charts_per_pitcher in
  List.map
    (λ idx, (chart_offset + idx,
             os_path_join pitcher_dir ("heatmap_" +:+ pretty idx +:+ ".png")))
    (seq 0 (Nat.min 18 (located - chart_offset))).

Section ScoutingReport.

Variable heat_map_png : bool.
Variable driver : Driver.
Variable b64decode : string → option bytes.
(** [requests.get(headshot_url, timeout=10)] *)
Variable requests_get : string → outcome Response.
(** [str(e)], as the messages print it *)
Variable exception_str : exception → string.

Fixpoint capture_heat_maps (plan : list (nat * string)) : Scraping unit :=
  match plan with
  | [] => mret tt
  | (index, filename) :: plan' =>
      path ← py (capture_chart_by_tag heat_map_png driver b64decode
                   "tmn-heat-map-baseball" index filename);
      match path with
      | Some path =>
          (if truthy path then append_heatmap path else mret tt);;
          capture_heat_maps plan'
      | None => capture_heat_maps plan'
      end
  end.

Definition download_headshot (pitcher_dir headshot_url : string) : Scraping unit :=
  try_except
    (response ← py (lift (requests_get headshot_url));
     if (status_code response =? 200)%nat then
       let filename := os_path_join pitcher_dir "headshot.png" in
       py (write (Path filename) (Binary (response_content response)));;
       set_headshot filename;;
       py (print ("      ✓ Headshot captured and saved to: " +:+ filename));;
       py (print ("      ✓ File size: "
                  +:+ pretty (length (response_content response)) +:+ " bytes"))
     else
       py (print ("      ⚠ Headshot download failed with status "
                  +:+ pretty (status_code response))))
    (λ e, py (print ("      ⚠ Could not download headshot: " +:+ exception_str e))).

(** [if len(movement_charts) > pitcher_index: ...] *)
Definition capture_movement (pitcher_index : nat) (pitcher_dir : string)
  (movement_charts : list string) : Scraping unit :=
  if (pitcher_index <? length movement_charts)%nat then
    let filename := os_path_join pitcher_dir "movement.svg" in
    path ← py (capture_chart_by_tag heat_map_png driver b64decode
                 "tmn-pitch-break-chart-baseball" pitcher_index filename);
    match path with
    | Some path =>
        if truthy path then
          set_movement path;;
          py (print "      ✓ Movement chart captured")
        else mret tt
    | None => mret tt
    end
  else mret tt.

(** [if headshot_url: ...] *)
Definition capture_headshot (pitcher_dir headshot_url : string) : Scraping unit :=
  if truthy headshot_url then
    py (print ("      Headshot URL: " +:+ str_take 100 headshot_url +:+ "..."));;
    download_headshot pitcher_dir headshot_url
  else mret tt.

Definition scrape_pitcher_charts_body (pitcher_info : pitcher)
  (pitcher_index : nat) (pitcher_dir : string) : Scraping unit :=
  heat_maps ← py (find_charts_in_shadow_dom driver);
  let heat_map_charts :=
    List.filter (String.eqb "tmn-heat-map-baseball") heat_maps in
  py (print ("      Found " +:+ pretty (length heat_map_charts) +:+ " heat map(s)"));;
  capture_heat_maps (heat_map_plan pitcher_index (length heat_map_charts) pitcher_dir);;
  let movement_charts :=
    List.filter (String.eqb "tmn-pitch-break-chart-baseball") heat_maps in
  capture_movement pitcher_index pitcher_dir movement_charts;;
  let headshot_url := headshot_url pitcher_info in
  capture_headshot pitcher_dir headshot_url.

Definition scrape_pitcher_charts (pitcher_info : pitcher) (pitcher_index : nat)
  (output_dir : string) : Py pitcher_charts := λ w,
  let charts := {| heatmaps := []; movement := None; headshot := None |} in
  let pitcher_name := pitcher_name pitcher_info in
  let pitcher_dir := os_path_join output_dir ("pitcher_" +:+ pretty pitcher_index) in
  let '(r, charts, w) :=
    (py (log (MadeDirs pitcher_dir));;
     py (print ("   Scraping charts for " +:+ pitcher_name +:+ "..."));;
     try_except
       (scrape_pitcher_charts_body pitcher_info pitcher_index pitcher_dir)
       (λ e, py (print ("      ⚠ Error scraping charts: " +:+ exception_str e))))
      charts w in
  match r with
  | Ok _ => (Ok charts, w)
  | Raise e => (Raise e, w)
  end.

End ScoutingReport.

(** ** [scrape_charts] of the pitching report *)

(** [os.path.basename(p)] *)
Definition os_path_basename (p : string) : string :=
  match rfind "/" p with
  | Some i => str_drop (S i) p
  | None => p
  end.

Fixpoint all_dots (s : string) : bool :=
  match s with
  | EmptyString => true
  | String c s' => Ascii.eqb c "." && all_dots s'
  end.

(** [os.path.splitext(p)]: the split is at the last dot, when that dot comes
    after the last slash and after a character of the name that is not a
    dot. *)
Definition os_path_splitext (p : string) : string * string :=
  match rfind "." p with
  | Some dotIndex =>
      let filenameIndex :=
        match rfind "/" p with
        | Some sepIndex => S sepIndex
        | None => 0
        end in
      if (filenameIndex <=? dotIndex)%nat
         && negb (all_dots (str_take (dotIndex - filenameIndex) (str_drop filenameIndex p)))
      then (str_take dotIndex p, str_drop dotIndex p)
      else (p, "")
  | None => (p, "")
  end.

(** The list [scrape_charts] returns, from the paths [scrape_player]
    captured: [(os.path.splitext(os.path.basename(path))[0], path)]. *)
Definition scraped_charts (captured : list string) : list (string * string) :=
  List.map (λ path, (fst (os_path_splitext (os_path_basename path)), path)) captured.

(** ** [format_stat] of the pitching report *)

(** The values [format_stat] is called with: [None], a [str], an [int]
    ([bool] included, as 0 and 1) or a [float].  Other objects, whose
    [pd.isna], [==] and [str()] are their own, are not modelled, and the
    last line of the code, [return str(value)], with them. *)
Inductive stat :=
| StNone
| StStr (s : string)
| StInt (z : Z)
| StFloat (f : float).

(** [int(x)] of a float: towards zero *)
Definition int_of_float (x : float) : outcome Z :=
  match Prim2SF x with
  | S754_nan => Raise (ValueError "cannot convert float NaN to integer")
  | S754_infinity _ => Raise OverflowError
  | S754_zero _ => Ok 0%Z
  | S754_finite s m e =>
      let magnitude :=
        match e with
        | Zneg p => (Zpos m / 2 ^ Zpos p)%Z
        | _ => (Zpos m * 2 ^ e)%Z
        end in
      Ok (if s then (- magnitude)%Z else magnitude)
  end.

(** [format_stat(value, decimals, blank_if_zero)].  The first test,
    [pd.isna(value) or value == 'nan' or value is None or value == 'N/A'],
    holds for [None], for a NaN and for the two strings. *)
Definition format_stat (value : stat) (decimals : nat) (blank_if_zero : bool)
  : outcome string :=
  match value with
  | StNone => Ok ""
  | StStr s =>
      if String.eqb s "nan" || String.eqb s "N/A" then Ok ""
      else if negb (String.eqb (lower s) "nan") then Ok s else Ok ""
  | StInt z =>
      if blank_if_zero && (z =? 0)%Z then Ok ""
      else if (decimals =? 0)%nat then Ok (pretty z)
      else
        (* an [int] is formatted through [float(value)] *)
        match to_float (PyInt z) with
        | Ok x => Ok (format_fixed x decimals)
        | Raise e => Raise e
        end
  | StFloat f =>
      if PrimFloat.is_nan f then Ok ""
      else if blank_if_zero && (f =? 0)%float then Ok ""
      else if (decimals =? 0)%nat then
        match int_of_float f with
        | Ok z => Ok (pretty z)
        | Raise e => Raise e
        end
      else Ok (format_fixed f decimals)
  end.

(** * The specification's wording, as definitions

    These follow the sentences of the specification, not the code; the
    properties below compare them with the code. *)

(** The extensions a captured image can get. *)
Definition image_extension (ext : string) : Prop :=
  ext = "png" ∨ ext = "jpg" ∨ ext = "gif" ∨ ext = "webp".

(** "sniffs the image format from leading byte signatures": PNG, JPEG,
    GIF87a or GIF89a, RIFF (WebP). *)
Definition signature_extension (binary : bytes) : option string :=
  if bytes_startswith binary
       (Byte.x89 :: bytes_lit "PNG" ++ [Byte.x0d; Byte.x0a; Byte.x1a; Byte.x0a])
  then Some "png"
  else if bytes_startswith binary [Byte.xff; Byte.xd8; Byte.xff] then Some "jpg"
  else if bytes_startswith binary (bytes_lit "GIF87a")
          || bytes_startswith binary (bytes_lit "GIF89a") then Some "gif"
  else if bytes_startswith binary (bytes_lit "RIFF") then Some "webp"
  else None.

(** "falls back to the URL's file extension": png, jpg, jpeg, gif or webp at
    the end of the lowercased URL, jpeg read as jpg. *)
Definition url_extension (url : string) : option string :=
  let l := lower url in
  if endswith l ".png" then Some "png"
  else if endswith l ".jpg" || endswith l ".jpeg" then Some "jpg"
  else if endswith l ".gif" then Some "gif"
  else if endswith l ".webp" then Some "webp"
  else None.

(** "... then to PNG" *)
Definition extension_by_fallback (binary : bytes) (url : string) : string :=
  match signature_extension binary with
  | Some ext => ext
  | None => default "png" (url_extension url)
  end.

(** The elements of a component tree in traversal order: an element, then
    the tree under its shadow root, then its children.  This is the order of
    "depth-first traversal of nested encapsulated subtrees" in which ordinal
    indices are counted. *)
Fixpoint traversal_el (e : element) : list element :=
  match e with
  | Element _ _ _ _ _ _ _ kids sh =>
      e :: match sh with
           | Some sr => flat_map traversal_el sr
           | None => []
           end
        ++ flat_map traversal_el kids
  end.

Definition traversal (kids : list element) : list element :=
  flat_map traversal_el kids.

Definition has_tag (tag : string) (e : element) : bool :=
  String.eqb (toLowerCase (tagName e)) tag.

(** Every element of the page, shadow trees included, in traversal order. *)
Definition page_elements (B : Browser) : list element := traversal (document B).

(** The elements of tag [tag] in the tree under the shadow root of the
    application element, in traversal order; none when the application
    element or its shadow root is absent. *)
Definition matching_elements (B : Browser) (tag : string) : list element :=
  match querySelector (document B) "tmn-ferp-app" with
  | Some app =>
      match shadowRoot app with
      | Some sr => List.filter (has_tag tag) (traversal sr)
      | None => []
      end
  | None => []
  end.


Definition is_digit (c : ascii) : bool :=
  (48 <=? nat_of_ascii c) && (nat_of_ascii c <=? 57).




(** "the tag with the tmn- prefix and -baseball suffix stripped" *)
Definition strip_prefix (p s : string) : string :=
  if startswith s p then str_drop (String.length p) s else s.

Definition strip_suffix (p s : string) : string :=
  if endswith s p then str_take (String.length s - String.length p) s else s.

Definition chart_type_name (tag : string) : string :=
  strip_suffix "-baseball" (strip_prefix "tmn-" tag).

(** The file stem of an instance: the type name, with the ordinal when the
    type has several instances. *)
Definition file_stem (tag : string) (idx : nat) (several : bool) : string :=
  chart_type_name tag +:+ (if several then "_" +:+ pretty idx else "").

(** How many charts of tag [tag] a list of discovered charts holds. *)
Definition occurrences (tag : string) (charts : list string) : nat :=
  length (List.filter (String.eqb tag) charts).

(** The descriptors of the discovered charts: each tag with its 0-based rank
    among the charts of the same tag before it. *)
Fixpoint descriptors_from (seen charts : list string) : list (string * nat) :=
  match charts with
  | [] => []
  | tag :: charts' =>
      (tag, occurrences tag seen) :: descriptors_from (seen ++ [tag]) charts'
  end.

Definition descriptors (charts : list string) : list (string * nat) :=
  descriptors_from [] charts.

(** * Notions the proofs use *)

(** What one iteration of either script's loop over
    [root.querySelectorAll('*')] covers: the element, then the tree under its
    shadow root. *)
Definition visit (e : element) : list element :=
  e :: match shadowRoot e with
       | Some sr => traversal sr
       | None => []
       end.

(** The entries [findCharts] makes of a run of elements. *)
Definition charts_in (chartTypes : list string) (l : list element) : list chart :=
  List.map (λ e, {| chart_tag := toLowerCase (tagName e); chart_element := e |})
    (List.filter (λ e, bool_decide (toLowerCase (tagName e) ∈ chartTypes)) l).

(** What [findChart] answers when the elements of the tag it still has to
    meet are [M] and the counter stands at [idx]: it captures the element at
    rank [i], or reports none and the counter after [M]. *)
Definition found_at (B : Browser) (i : nat) (p : bool) (M : list element)
  (idx : nat) : js (option capture_result * nat) :=
  match M !! (i - idx) with
  | Some el => r ← capture B el p; JsOk (Some r, i)
  | None => JsOk (None, idx + length M)
  end.


(** Everything under a node, shadow trees included. *)
Definition composed (nd : node) : list element :=
  match nd with
  | NElement e => traversal_el e
  | NShadowRoot kids => traversal kids
  end.


Definition size_node (nd : node) : nat :=
  match nd with
  | NElement e => size_el e
  | NShadowRoot kids => S (size_list kids)
  end.


(** [r] is a right answer of [findSvg] over the elements [within]. *)
Definition svg_answer (r : option element) (within : list element) : Prop :=
  match r with
  | Some s => has_tag "svg" s = true ∧ In s within
  | None => Forall (λ x, has_tag "svg" x = false) within
  end.

(** The instances a dict of counts stands for. *)
Definition expand (chart_counts : list (string * nat)) : list (string * nat) :=
  flat_map (λ '(tag, count), List.map (λ idx, (tag, idx)) (seq 0 count)) chart_counts.

(** [s'] continues [s] with steps of which at most [n] are attachments. *)
Definition extends (s s' : session) (n : nat) : Prop :=
  ∃ extra, steps s' = steps s ++ extra ∧ attach_count extra ≤ n.

(** ** Notions of the further properties *)

(** The world after writing [c] to the file [p]. *)
Definition with_file (w : world) (p : string) (c : content) : world :=
  {| _frame_id := _frame_id w; files := <[p := c]> (files w); trace := trace w |}.

(** The bytes of an answer of [Page.getResourceContent] that has a
    [content]: decoded when the answer says it is base64, encoded as text
    otherwise. *)
Definition downloaded (b64decode : string → option bytes)
  (content : ResourceContent) (binary : bytes) : Prop :=
  ∃ data,
    resource_content content = Some data
    ∧ if base64Encoded content then b64decode data = Some binary
      else binary = str_encode data.



(** [except SessionNotCreatedException] *)
Definition is_session_not_created (attached : outcome unit) : bool :=
  match attached with
  | Raise (SessionNotCreatedException _) => true
  | _ => false
  end.

(** What [connect] does for the attempts that fail and are retried. *)
Definition retry_steps (attempts : list nat) : list step :=
  flat_map (λ attempt, [StartService; Attach; StopService;
                        Say (retry_message attempt (2 + attempt));
                        Wait (2 + attempt);
                        WaitForDebuggerReady 15; EnsureDebuggerTarget])
    attempts.

Definition connected_message (chrome : Chrome) (launched : bool) : string :=
  "✓ Connected to Chrome on port " +:+ pretty (debug_port chrome)
  +:+ " (" +:+ (if launched then "fresh session" else "existing session") +:+ ")".

(** A helper of [connect] returned, whatever it answered. *)
Definition returned (answer : outcome bool) : bool :=
  match answer with
  | Ok _ => true
  | Raise _ => false
  end.

(** The preconditions of [connect] hold: chromedriver is found, the
    debugging session is ensured ([launched] tells whether it was started),
    the debugger is ready, and a tab is there at the first look
    ([first_look]) or else at the second. *)
Definition ready_to_attach (chrome : Chrome) (launched first_look : bool) : Prop :=
  (∃ driver_path,
     chromedriver chrome = Ok (Some driver_path) ∧ truthy driver_path = true)
  ∧ debug_session chrome = Ok launched
  ∧ debugger_ready chrome 0 = Ok true
  ∧ debugger_target chrome 0 = Ok first_look
  ∧ (first_look = false → debugger_target chrome 1 = Ok true).

(** How often [connect] has looked for a tab before it attaches. *)
Definition looks (first_look : bool) : nat := if first_look then 1 else 2.

(** What [connect] does before it attaches. *)
Definition preamble_steps (first_look : bool) : list step :=
  [WaitForDebuggerReady 60; EnsureDebuggerTarget]
  ++ (if first_look then []
      else [Say "No Chrome tabs found. Creating new tab..."; Wait 2;
            EnsureDebuggerTarget]).

Definition attaching (first_look : bool) : session :=
  {| ready_calls := 1; target_calls := looks first_look; attach_calls := 0;
     steps := preamble_steps first_look |}.

(** A file stem: not empty, without slash or dot. *)
Definition plain (s : string) : Prop :=
  truthy s = true ∧ contains "/" s = false ∧ contains "." s = false.

(** A string that starts with a digit, a minus sign or the letter i is not
    nan, however it is cased. *)
Definition numeric_start (s : string) : Prop :=
  ∃ c t, s = String c t ∧ (is_digit c = true ∨ c = "-"%char ∨ c = "i"%char).

(** * A sample page

    The page of the specification's end-to-end scenario: two heat maps and
    one pitch-break chart, each holding both an [svg] and an [img] whose
    source is a data URL. *)

Definition el (tag : string) (attrs : list (string * string))
  (kids : list element) (shadow : option (list element)) : element :=
  Element tag attrs "" 0 0 0 0 kids shadow.

Definition sample_svg : element :=
  el "svg" [("viewBox", "0 0 10 10")] [el "circle" [("r", "4")] [] None] None.

Definition sample_img : element :=
  el "IMG" [("src", "data:image/png;base64,iVBORw0KGgo=")] [] None.

Definition sample_heat_map : element :=
  el "TMN-HEAT-MAP-BASEBALL" [] [] (Some [sample_svg; sample_img]).

Definition sample_pitch_break : element :=
  el "TMN-PITCH-BREAK-CHART-BASEBALL" [] []
    (Some [el "DIV" [] [sample_svg; sample_img] None]).

Definition sample_shadow_tree : list element :=
  [el "DIV" [] [sample_heat_map;
                el "TMN-PANEL" [] [] (Some [sample_pitch_break; sample_heat_map])]
     None].

Definition sample_app : element := el "TMN-FERP-APP" [] [] (Some sample_shadow_tree).

Definition sample_document : list element :=
  [el "HTML" [] [el "HEAD" [] [] None; el "BODY" [] [sample_app] None] None].

Definition sample_browser : Browser :=
  {| document := sample_document;
     drawImage_toDataURL := λ _ _ _, JsThrow SecurityError;
     canvas_toDataURL := λ _, JsThrow SecurityError;
     resolve_URL := λ href, JsOk href;
     xhr_get := λ _, JsThrow InvalidStateError;
     btoa := λ _, "" |}.

Definition sample_driver : Driver :=
  {| browser := sample_browser;
     Page_getFrameTree :=
       Ok {| frameTree := Some {| frame := Some {| frame_id := Some "F1" |} |} |};
     Page_getResourceContent := λ _ url,
       if String.eqb url "https://example.test/heat.PNG"
       then Ok {| resource_content := Some "GIF89a-payload"; base64Encoded := false |}
       else Ok {| resource_content := None; base64Encoded := false |} |}.

(** A decoder that knows the one payload of the sample page: the eight bytes
    of the PNG signature. *)
Definition sample_b64decode (payload : string) : option bytes :=
  if String.eqb payload "iVBORw0KGgo="
  then Some (Byte.x89 :: bytes_lit "PNG" ++ [Byte.x0d; Byte.x0a; Byte.x1a; Byte.x0a])
  else None.

Definition new_world : world :=
  {| _frame_id := None; files := ∅; trace := [] |}.

(** A browser that refuses every attachment. *)
Definition chrome_never_attaches : Chrome :=
  {| debug_port := 9222%N;
     chromedriver := Ok (Some "./chromedriver/chromedriver");
     debug_session := Ok false;
     debugger_ready := λ _, Ok true;
     debugger_target := λ _, Ok true;
     attach := λ _, Raise (SessionNotCreatedException "session not created") |}.


(** A browser that refuses the first [k] attachments and answers the next
    with [answer]. *)
Definition chrome_answers_after (k : nat) (answer : outcome unit) : Chrome :=
  {| debug_port := 9222%N;
     chromedriver := Ok (Some "./chromedriver/chromedriver");
     debug_session := Ok true;
     debugger_ready := λ _, Ok true;
     debugger_target := λ _, Ok true;
     attach := λ i, if i <? k
                    then Raise (SessionNotCreatedException "session not created")
                    else answer |}.

(** A browser without a tab at the first look and with one at the second,
    that refuses the first two attachments and accepts the third. *)
Definition chrome_opens_tab_late : Chrome :=
  {| debug_port := 9222%N;
     chromedriver := Ok (Some "./chromedriver/chromedriver");
     debug_session := Ok true;
     debugger_ready := λ _, Ok true;
     debugger_target := λ i, Ok (0 <? i);
     attach := λ i, if i <? 2
                    then Raise (SessionNotCreatedException "session not created")
                    else Ok tt |}.

(** A browser that refuses every attachment and whose list of tabs, from the
    third look on, is not JSON: [json.loads] raises [JSONDecodeError], a
    [ValueError], inside [_ensure_debugger_target]. *)
Definition chrome_loses_debugger : Chrome :=
  {| debug_port := 9222%N;
     chromedriver := Ok (Some "./chromedriver/chromedriver");
     debug_session := Ok false;
     debugger_ready := λ _, Ok true;
     debugger_target := λ i, if i <? 2 then Ok true
                             else Raise (ValueError "Expecting value");
     attach := λ _, Raise (SessionNotCreatedException "session not created") |}.

(** * Properties *)

(** ** The resource downloader: [_detect_image] *)

Ltac case_tests :=
  repeat match goal with
         | |- context [bytes_startswith ?x ?y] => destruct (bytes_startswith x y)
         | |- context [endswith ?x ?y] => destruct (endswith x y)
         end.

Lemma detect_image_cases binary url :
  _detect_image binary url = "png" ∨ _detect_image binary url = "jpg"
  ∨ _detect_image binary url = "gif" ∨ _detect_image binary url = "webp".
Proof.
  unfold _detect_image, signatures. cbn [List.find].
  case_tests; vm_compute; tauto.
Qed.

(** C10.  [_detect_image] always answers, with one of png, jpg, gif or webp;
    and a payload that starts with the four bytes RIFF is webp whatever
    follows them and whatever the URL. *)
Theorem detect_image_total_riff_is_webp :
  (∀ binary url, In (_detect_image binary url) ["png"; "jpg"; "gif"; "webp"])
  ∧ (∀ rest url, _detect_image (bytes_lit "RIFF" ++ rest) url = "webp").
Proof.
  split.
  - intros binary url. cbn [In].
    destruct (detect_image_cases binary url) as [H | [H | [H | H]]];
      rewrite H; tauto.
  - intros rest url. vm_compute. reflexivity.
Qed.

(** *** Strings and paths *)

Lemma length_app_str s t :
  String.length (s +:+ t) = String.length s + String.length t.
Proof. induction s as [|c s IH]; simpl; [done | by rewrite IH]. Qed.

Lemma str_drop_app s t : str_drop (String.length s) (s +:+ t) = t.
Proof. induction s as [|c s IH]; simpl; [by destruct t | done]. Qed.

Lemma length_str_take n s :
  (n ≤ String.length s)%nat → String.length (str_take n s) = n.
Proof.
  revert s. induction n as [|n IH]; intros [|c s]; simpl; try done; try lia.
  intros H. rewrite IH; [done | lia].
Qed.

Lemma length_str_drop n s :
  String.length (str_drop n s) = String.length s - n.
Proof.
  revert s. induction n as [|n IH]; intros [|c s]; simpl; try done; lia.
Qed.

Lemma truthy_length s : truthy s = true ↔ 0 < String.length s.
Proof. destruct s; simpl; split; try done; lia. Qed.

Lemma rfind_absent c s : contains c s = false → rfind c s = None.
Proof.
  induction s as [|a s IH]; simpl; [done |].
  intros [Ha Hs]%orb_false_elim. by rewrite IH, Ha.
Qed.

Lemma rfind_last c s t :
  contains c t = false → rfind c (s +:+ String c t) = Some (String.length s).
Proof.
  intros Ht. induction s as [|a s IH]; simpl.
  - by rewrite rfind_absent, Ascii.eqb_refl.
  - by rewrite IH.
Qed.

(** The suffix of a name that ends in a dot and a dot-free extension. *)
Lemma name_suffix_app stem ext :
  truthy stem = true → truthy ext = true → contains "." ext = false →
  name_suffix (stem +:+ "." +:+ ext) = "." +:+ ext.
Proof.
  intros Hstem%truthy_length Hext%truthy_length Hdot. unfold name_suffix.
  change ("." +:+ ext) with (String "." ext).
  rewrite rfind_last by done.
  rewrite length_app_str. simpl String.length.
  replace (0 <? String.length stem)%nat with true
    by (symmetry; apply Nat.ltb_lt; lia).
  replace (String.length stem <? String.length stem + S (String.length ext) - 1)%nat
    with true by (symmetry; apply Nat.ltb_lt; lia).
  simpl. apply str_drop_app.
Qed.

Lemma name_suffix_length name :
  truthy (name_suffix name) = true →
  (0 < String.length name - String.length (name_suffix name) ≤ String.length name)%nat.
Proof.
  unfold name_suffix. destruct (rfind "." name) as [i|]; [|done].
  destruct (0 <? i)%nat eqn:H0; cbn [andb]; [|done].
  destruct (i <? String.length name - 1)%nat eqn:H1; [|done].
  apply Nat.ltb_lt in H0, H1. intros _. rewrite length_str_drop. lia.
Qed.

(** [with_suffix] with one of the four image extensions succeeds on every
    path that has a name, and the suffix of the result is that extension. *)
Lemma with_suffix_image_extension p ext :
  image_extension ext → truthy (path_name p) = true →
  ∃ final, with_suffix p ("." +:+ ext) = Ok final
           ∧ path_suffix final = "." +:+ ext.
Proof.
  intros Hext Hname.
  assert (Hprops : truthy ext = true ∧ contains "." ext = false
                   ∧ contains "/" ("." +:+ ext) = false
                   ∧ ((truthy ("." +:+ ext) && negb (startswith ("." +:+ ext) "."))
                      || String.eqb ("." +:+ ext) ".") = false).
  { destruct Hext as [-> | [-> | [-> | ->]]]; by vm_compute. }
  destruct Hprops as (Ht & Hd & Hs & Hv).
  unfold with_suffix. rewrite Hs, Hv, Hname. cbn [negb].
  eexists. split; [reflexivity |].
  unfold path_suffix at 1, path_name at 1. cbn [parts].
  rewrite last_last.
  destruct (truthy (path_suffix p)) eqn:Hold; cbn [negb].
  - apply name_suffix_app; [| done..].
    apply truthy_length. rewrite length_str_take.
    + apply name_suffix_length in Hold. unfold path_suffix. lia.
    + lia.
  - by apply name_suffix_app.
Qed.

(** *** The fallback order *)

Lemma detect_image_fallback binary url :
  _detect_image binary url = extension_by_fallback binary url.
Proof.
  unfold _detect_image, extension_by_fallback, signature_extension,
    url_extension, signatures.
  cbv beta iota zeta delta [List.find String.append].
  case_tests; reflexivity.
Qed.

Lemma extension_by_fallback_image binary url :
  image_extension (extension_by_fallback binary url).
Proof. rewrite <- detect_image_fallback. apply detect_image_cases. Qed.

(** *** Running Python code *)

Ltac py_unfold :=
  unfold mbind, mret, Py_bind, Py_ret, lift, raise, print, sleep, log, write,
    get_frame_id, set_frame_id in *.

(** Resolving the frame id touches neither the files nor the output. *)
Lemma cached_or_fetched_frame_id_pure driver w r w1 :
  cached_or_fetched_frame_id driver w = (r, w1) →
  files w1 = files w ∧ trace w1 = trace w.
Proof.
  unfold cached_or_fetched_frame_id, _get_frame_id. py_unfold.
  destruct (_frame_id w) as [fid|] eqn:Hc.
  - destruct (truthy fid); [by intros [= <- <-] |].
    destruct (Page_getFrameTree driver) as [tree|e]; [| by intros [= <- <-]].
    destruct (option_bind _ _ frame_id _) as [fid'|]; [| by intros [= <- <-]].
    destruct (truthy fid'); by intros [= <- <-].
  - destruct (Page_getFrameTree driver) as [tree|e]; [| by intros [= <- <-]].
    destruct (option_bind _ _ frame_id _) as [fid'|]; [| by intros [= <- <-]].
    destruct (truthy fid'); by intros [= <- <-].
Qed.

(** C7.  When [Page.getResourceContent] answers without a [content] field,
    [_download_resource] prints the warning and returns [None]: no exception,
    and the files are what they were. *)
Theorem download_resource_no_content
  driver b64decode path url w w1 fid response :
  cached_or_fetched_frame_id driver w = (Ok fid, w1) →
  Page_getResourceContent driver fid url = Ok response →
  resource_content response = None →
  ∃ w', _download_resource driver b64decode path url w = (Ok None, w')
        ∧ files w' = files w
        ∧ trace w' =
            trace w ++ [Printed ("⚠️  Unable to fetch heat map image at " +:+ url)].
Proof.
  intros Hfid Hcall Hnone.
  destruct (cached_or_fetched_frame_id_pure _ _ _ _ Hfid) as [Hfiles Htrace].
  unfold _download_resource. py_unfold.
  rewrite Hfid, Hcall, Hnone. cbn.
  eexists. split; [reflexivity |]. cbn. by rewrite Hfiles, Htrace.
Qed.

(** C6.  [_download_resource] names the file after the payload: the
    extension is the one of the leading signature, else the one the
    lowercased URL ends in, else png ([extension_by_fallback]); the bytes go
    to the path with exactly that suffix, and that path is returned. *)
Theorem download_resource_extension
  driver b64decode path url w w1 fid response data binary :
  cached_or_fetched_frame_id driver w = (Ok fid, w1) →
  Page_getResourceContent driver fid url = Ok response →
  resource_content response = Some data →
  (if base64Encoded response then b64decode data else Some (str_encode data))
    = Some binary →
  truthy (path_name (Path path)) = true →
  let ext := extension_by_fallback binary url in
  _detect_image binary url = ext
  ∧ ∃ final w',
      with_suffix (Path path) ("." +:+ ext) = Ok final
      ∧ path_suffix final = "." +:+ ext
      ∧ _download_resource driver b64decode path url w
        = (Ok (Some (path_str final)), w')
      ∧ files w' = <[path_str final := Binary binary]> (files w)
      ∧ trace w' = trace w.
Proof.
  intros Hfid Hcall Hdata Hbin Hname ext.
  destruct (cached_or_fetched_frame_id_pure _ _ _ _ Hfid) as [Hfiles Htrace].
  split; [apply detect_image_fallback |].
  destruct (with_suffix_image_extension (Path path) ext) as (final & Hfinal & Hsuffix);
    [apply extension_by_fallback_image | done |].
  exists final. eexists. split; [done |]. split; [done |].
  unfold _download_resource, b64decode_or_raise. py_unfold.
  rewrite Hfid, Hcall, Hdata.
  destruct (base64Encoded response).
  - rewrite Hbin. cbn. rewrite detect_image_fallback. fold ext.
    rewrite Hfinal. cbn.
    split; [reflexivity |]. cbn. by rewrite Hfiles, Htrace.
  - injection Hbin as <-. cbn. rewrite detect_image_fallback. fold ext.
    rewrite Hfinal. cbn.
    split; [reflexivity |]. cbn. by rewrite Hfiles, Htrace.
Qed.

(** ** The page tree *)

Lemma size_el_unfold e :
  size_el e = S (size_list (children e)
                 + match shadowRoot e with
                   | Some sr => S (size_list sr)
                   | None => 0
                   end).
Proof. by destruct e. Qed.

Lemma size_list_cons e l : size_list (e :: l) = size_el e + size_list l.
Proof. reflexivity. Qed.

Lemma size_list_app l1 l2 : size_list (l1 ++ l2) = size_list l1 + size_list l2.
Proof. unfold size_list. by rewrite List.map_app, list_sum_app. Qed.

Lemma size_el_in e l : In e l → size_el e ≤ size_list l.
Proof.
  induction l as [|c l IH]; [done |].
  rewrite size_list_cons. intros [-> | H]; [lia |]. apply IH in H. lia.
Qed.

Lemma subtree_unfold e : subtree e = e :: querySelectorAll (children e).
Proof. by destruct e. Qed.

Lemma traversal_el_unfold e :
  traversal_el e = visit e ++ traversal (children e).
Proof. by destruct e as [? ? ? ? ? ? ? kids [sr|]]. Qed.

Lemma size_el_subtree e x : In x (subtree e) → size_el x ≤ size_el e.
Proof.
  revert x. induction e as [e IHkids _] using element_tree_ind. intros x.
  rewrite subtree_unfold, (size_el_unfold e). intros [<- | Hx].
  { rewrite (size_el_unfold e). lia. }
  unfold querySelectorAll in Hx. apply in_flat_map in Hx as (c & Hc & Hx).
  rewrite List.Forall_forall in IHkids. specialize (IHkids c Hc x Hx).
  apply size_el_in in Hc. lia.
Qed.

Lemma size_el_querySelectorAll kids x :
  In x (querySelectorAll kids) → size_el x ≤ size_list kids.
Proof.
  unfold querySelectorAll. intros (c & Hc & Hx)%in_flat_map.
  apply size_el_subtree in Hx. apply size_el_in in Hc. lia.
Qed.

Lemma size_shadowRoot e sr : shadowRoot e = Some sr → size_list sr < size_el e.
Proof. rewrite size_el_unfold. intros ->. lia. Qed.

Lemma flat_map_flat_map {A B C : Type} (f : A → list B) (g : B → list C) l :
  flat_map g (flat_map f l) = flat_map (λ x, flat_map g (f x)) l.
Proof.
  induction l as [|x l IH]; [done |]. cbn [flat_map].
  by rewrite flat_map_app, IH.
Qed.

Lemma flat_map_ext_Forall {A B : Type} (f g : A → list B) l :
  Forall (λ x, f x = g x) l → flat_map f l = flat_map g l.
Proof.
  induction 1 as [|x l Hx _ IH]; [done |]. cbn [flat_map]. by rewrite Hx, IH.
Qed.

Lemma traversal_el_subtree e : traversal_el e = flat_map visit (subtree e).
Proof.
  induction e as [e IHkids _] using element_tree_ind.
  rewrite traversal_el_unfold, subtree_unfold. cbn [flat_map]. f_equal.
  unfold traversal, querySelectorAll. rewrite flat_map_flat_map.
  by apply flat_map_ext_Forall.
Qed.

Lemma traversal_querySelectorAll kids :
  traversal kids = flat_map visit (querySelectorAll kids).
Proof.
  unfold traversal, querySelectorAll. rewrite flat_map_flat_map.
  apply flat_map_ext_Forall, List.Forall_forall. intros e _.
  apply traversal_el_subtree.
Qed.

Lemma charts_in_app types l1 l2 :
  charts_in types (l1 ++ l2) = charts_in types l1 ++ charts_in types l2.
Proof. unfold charts_in. by rewrite List.filter_app, List.map_app. Qed.

Lemma findCharts_traversal fuel types kids :
  size_list kids < fuel →
  findCharts fuel (Some kids) types = JsOk (charts_in types (traversal kids)).
Proof.
  revert kids. induction fuel as [|fuel IH]; intros kids Hsize; [lia |].
  cbn [findCharts]. rewrite traversal_querySelectorAll.
  match goal with |- foldl ?f _ _ = _ => set (body := f) end.
  assert (Hloop : ∀ nodes acc,
             (∀ el, In el nodes → size_el el ≤ fuel) →
             foldl body (JsOk acc) nodes
             = JsOk (acc ++ charts_in types (flat_map visit nodes))).
  { induction nodes as [|el nodes IHn]; intros acc Hnodes; cbn [foldl flat_map].
    { by rewrite app_nil_r. }
    assert (Hel : size_el el ≤ fuel) by (apply Hnodes; by left).
    assert (Hstep : body (JsOk acc) el = JsOk (acc ++ charts_in types (visit el))).
    { unfold body, visit. cbn [mbind js_bind].
      change (el :: ?l) with ([el] ++ l). rewrite charts_in_app.
      unfold charts_in at 1. cbn [List.filter List.app].
      destruct (shadowRoot el) as [sr|] eqn:Hsr.
      - rewrite IH by (apply size_shadowRoot in Hsr; lia). cbn [mbind js_bind].
        destruct (bool_decide _); cbn [List.map]; by rewrite <- ?app_assoc.
      - destruct (bool_decide _); cbn [List.map charts_in List.filter];
          by rewrite ?app_nil_r. }
    rewrite Hstep, IHn by (intros; apply Hnodes; by right).
    by rewrite charts_in_app, app_assoc. }
  rewrite Hloop; [done |].
  intros el Hel%size_el_querySelectorAll. lia.
Qed.

Lemma found_at_app B i p M1 M2 idx :
  idx ≤ i →
  found_at B i p (M1 ++ M2) idx
  = match M1 !! (i - idx) with
    | Some el => r ← capture B el p; JsOk (Some r, i)
    | None => found_at B i p M2 (idx + length M1)
    end.
Proof.
  intros Hidx. unfold found_at.
  destruct (M1 !! (i - idx)) as [el|] eqn:H1.
  - by rewrite (lookup_app_l_Some _ _ _ _ H1).
  - apply lookup_ge_None in H1.
    rewrite lookup_app_r by done.
    replace (i - (idx + length M1)) with (i - idx - length M1) by lia.
    rewrite length_app.
    destruct (M2 !! _); [done |]. f_equal. f_equal. lia.
Qed.

Lemma found_at_skip B i p el M idx :
  idx < i → found_at B i p (el :: M) idx = found_at B i p M (S idx).
Proof.
  intros Hidx. unfold found_at.
  replace (i - idx) with (S (i - S idx)) by lia. cbn [lookup list_lookup length].
  destruct (M !! _); [done |]. f_equal. f_equal. lia.
Qed.

Lemma found_at_hit B i p el M :
  found_at B i p (el :: M) i = (r ← capture B el p; JsOk (Some r, i)).
Proof. unfold found_at. by rewrite Nat.sub_diag. Qed.

Lemma findChart_loop_traversal B inner t i p nodes :
  (∀ el sr, In el nodes → shadowRoot el = Some sr →
            ∀ idx, idx ≤ i →
                   inner sr idx
                   = found_at B i p (List.filter (has_tag t) (traversal sr)) idx) →
  ∀ idx, idx ≤ i →
         findChart_loop B inner t i p nodes idx
         = found_at B i p (List.filter (has_tag t) (flat_map visit nodes)) idx.
Proof.
  induction nodes as [|el nodes IH]; intros Hinner idx Hidx.
  { unfold found_at. cbn. f_equal. f_equal. lia. }
  cbn [findChart_loop flat_map]. rewrite List.filter_app.
  unfold visit at 1. cbn [List.filter]. fold (has_tag t el).
  assert (Hrest : ∀ idx', idx' ≤ i →
    ('(result, idx0) ← match shadowRoot el with
                        | Some sr => inner sr idx'
                        | None => JsOk (None, idx')
                        end;
     match result with
     | Some r => JsOk (Some r, idx0)
     | None => findChart_loop B inner t i p nodes idx0
     end)
    = found_at B i p
        (List.filter (has_tag t)
           match shadowRoot el with Some sr => traversal sr | None => [] end
         ++ List.filter (has_tag t) (flat_map visit nodes)) idx').
  { intros idx' Hidx'. rewrite found_at_app by done.
    destruct (shadowRoot el) as [sr|] eqn:Hsr.
    - rewrite (Hinner el sr) by (done || by left). unfold found_at at 1.
      destruct (_ !! (i - idx')) as [x|] eqn:Hx.
      + destruct (capture B x p); reflexivity.
      + apply lookup_ge_None in Hx. cbn [mbind js_bind].
        apply IH; [| lia]. intros; apply (Hinner el0 sr0); [by right | done..].
    - cbn [List.filter length mbind js_bind]. rewrite lookup_nil, Nat.add_0_r.
      apply IH; [| done]. intros; apply (Hinner el0 sr); [by right | done..]. }
  destruct (has_tag t el) eqn:Htag; cbn [andb app].
  - destruct (idx =? i) eqn:Heq.
    + apply Nat.eqb_eq in Heq as ->. by rewrite found_at_hit.
    + apply Nat.eqb_neq in Heq. rewrite found_at_skip by lia.
      apply Hrest. lia.
  - by apply Hrest.
Qed.

Lemma findChart_traversal B fuel t i p kids idx :
  size_list kids < fuel → idx ≤ i →
  findChart B fuel (Some kids) t i p idx
  = found_at B i p (List.filter (has_tag t) (traversal kids)) idx.
Proof.
  revert kids idx. induction fuel as [|fuel IH]; intros kids idx Hsize Hidx; [lia |].
  cbn [findChart]. rewrite traversal_querySelectorAll.
  apply findChart_loop_traversal; [| done].
  intros el sr Hel%size_el_querySelectorAll Hsr%size_shadowRoot idx' Hidx'.
  apply IH; [lia | done].
Qed.

Lemma in_subtree_self e : In e (subtree e).
Proof. rewrite subtree_unfold. by left. Qed.

Lemma in_querySelectorAll_child kids k : In k kids → In k (querySelectorAll kids).
Proof.
  intros Hk. apply in_flat_map. exists k. split; [done | apply in_subtree_self].
Qed.

Lemma in_traversal_el_self e : In e (traversal_el e).
Proof. rewrite traversal_el_unfold. by left. Qed.

Lemma traversal_el_subtree_incl k c s :
  In c (subtree k) → In s (traversal_el c) → In s (traversal_el k).
Proof.
  revert c s. induction k as [k IHkids _] using element_tree_ind. intros c s.
  rewrite subtree_unfold. intros [<- | Hc]; [done |].
  apply in_flat_map in Hc as (k' & Hk' & Hc). intros Hs.
  rewrite traversal_el_unfold. apply in_or_app. right.
  apply in_flat_map. exists k'. split; [done |].
  rewrite List.Forall_forall in IHkids. by apply (IHkids k' Hk' c s).
Qed.

Lemma traversal_querySelectorAll_incl kids c s :
  In c (querySelectorAll kids) → In s (traversal_el c) → In s (traversal kids).
Proof.
  intros (k & Hk & Hc)%in_flat_map Hs. apply in_flat_map. exists k.
  split; [done |]. by apply (traversal_el_subtree_incl k c s).
Qed.

Lemma findSvg_at_spec fuel nd :
  size_node nd ≤ fuel →
  ∃ r, findSvg_at fuel nd = JsOk r ∧ svg_answer r (composed nd).
Proof.
  revert nd. induction fuel as [|fuel IH]; intros nd Hsize.
  { destruct nd as [e|kids]; cbn [size_node] in Hsize;
      [rewrite (size_el_unfold e) in Hsize |]; lia. }
  cbn [findSvg_at].
  (* the descendants *)
  assert (Hdesc : ∀ L, (∀ c, In c L → size_el c ≤ fuel) →
            ∃ r, js_first_found (λ child, findSvg_at fuel (NElement child)) L = JsOk r
                 ∧ match r with
                   | Some s => has_tag "svg" s = true
                               ∧ ∃ c, In c L ∧ In s (traversal_el c)
                   | None => ∀ c, In c L →
                                  Forall (λ x, has_tag "svg" x = false) (traversal_el c)
                   end).
  { induction L as [|c L IHL]; intros HL.
    { exists None. split; [done |]. intros c []. }
    cbn [js_first_found].
    destruct (IH (NElement c)) as (rc & -> & Hrc); [apply HL; by left |].
    cbn [mbind js_bind]. destruct rc as [s|].
    - exists (Some s). split; [done |]. destruct Hrc as [Hs Hin].
      split; [done |]. exists c. split; [by left | done].
    - destruct IHL as (r & -> & Hr); [intros; apply HL; by right |].
      exists r. split; [done |]. destruct r as [s|].
      + destruct Hr as (Hs & c' & Hc' & Hin). split; [done |].
        exists c'. split; [by right | done].
      + intros c' [<- | Hc']; [done | by apply Hr]. }
  assert (Hkids : ∀ c, In c (querySelectorAll (node_children nd)) → size_el c ≤ fuel).
  { intros c Hc%size_el_querySelectorAll.
    destruct nd as [e|kids]; cbn [size_node node_children] in *;
      [rewrite (size_el_unfold e) in Hsize |]; lia. }
  destruct (Hdesc _ Hkids) as (rd & Hrd & Hspec). clear Hdesc.
  assert (Hsub : ∀ s, In s (traversal (node_children nd)) → In s (composed nd)).
  { intros s Hs. destruct nd as [e|kids]; cbn [composed node_children] in *; [| done].
    rewrite traversal_el_unfold. apply in_or_app. by right. }
  assert (Hnone : rd = None →
            Forall (λ x, has_tag "svg" x = false) (traversal (node_children nd))).
  { intros ->. apply List.Forall_forall. intros x (k & Hk & Hx)%in_flat_map.
    specialize (Hspec k (in_querySelectorAll_child _ _ Hk)).
    rewrite List.Forall_forall in Hspec. by apply Hspec. }
  destruct nd as [e|kids]; cbn [node_children node_shadowRoot composed] in *.
  - fold (has_tag "svg" e). destruct (has_tag "svg" e) eqn:Hself.
    { exists (Some e). split; [done |]. split; [done | apply in_traversal_el_self]. }
    rewrite Hrd. cbn [mbind js_bind]. destruct rd as [s|].
    { exists (Some s). split; [done |]. destruct Hspec as (Hs & c & Hc & Hin).
      split; [done |]. apply Hsub. by apply (traversal_querySelectorAll_incl _ c). }
    specialize (Hnone eq_refl).
    rewrite traversal_el_unfold. unfold visit.
    destruct (shadowRoot e) as [sr|] eqn:Hsr.
    + destruct (IH (NShadowRoot sr)) as (rs & -> & Hrs).
      { cbn [size_node] in *. rewrite (size_el_unfold e), Hsr in Hsize. lia. }
      exists rs. split; [done |]. destruct rs as [s|]; cbn [svg_answer composed] in *.
      * destruct Hrs as [Hs Hin]. split; [done |]. right. apply in_or_app. by left.
      * apply List.Forall_cons; [done |]. by apply List.Forall_app.
    + exists None. split; [done |]. cbn [svg_answer app].
      by apply List.Forall_cons.
  - rewrite Hrd. cbn [mbind js_bind]. destruct rd as [s|].
    + exists (Some s). split; [done |]. destruct Hspec as (Hs & c & Hc & Hin).
      split; [done |]. by apply (traversal_querySelectorAll_incl _ c).
    + exists None. split; [done |]. by apply Hnone.
Qed.

Lemma findSvg_spec el :
  ∃ r, findSvg el = JsOk r ∧ svg_answer r (traversal_el el).
Proof. apply (findSvg_at_spec (size_el el) (NElement el)). done. Qed.

(** ** Fuel *)

(** More fuel than the tree has nodes changes nothing. *)
Lemma findCharts_fuel fuel chartTypes kids :
  size_list kids < fuel →
  findCharts fuel (Some kids) chartTypes
  = findCharts (S (size_list kids)) (Some kids) chartTypes.
Proof. intros H. rewrite !findCharts_traversal; [done | lia | done]. Qed.

Lemma findChart_fuel B fuel tag index p kids idx :
  size_list kids < fuel → idx ≤ index →
  findChart B fuel (Some kids) tag index p idx
  = findChart B (S (size_list kids)) (Some kids) tag index p idx.
Proof. intros H Hidx. rewrite !findChart_traversal; [done | lia | done..]. Qed.

Lemma js_first_found_mono {A B : Type} (g g' : A → js (option B)) l r :
  (∀ x rx, In x l → g x = JsOk rx → g' x = JsOk rx) →
  js_first_found g l = JsOk r → js_first_found g' l = JsOk r.
Proof.
  induction l as [|x l IH]; intros Hg; [done |]. cbn [js_first_found].
  destruct (g x) as [rx|e] eqn:Hx; [| done].
  rewrite (Hg x rx) by (done || by left). cbn [mbind js_bind].
  destruct rx; [done |]. apply IH. intros; apply Hg; [by right | done].
Qed.

Lemma findSvg_at_mono fuel fuel' nd r :
  fuel ≤ fuel' → findSvg_at fuel nd = JsOk r → findSvg_at fuel' nd = JsOk r.
Proof.
  revert fuel' nd r. induction fuel as [|fuel IH]; intros fuel' nd r Hle; [done |].
  destruct fuel' as [|fuel']; [lia |]. cbn [findSvg_at].
  destruct (match nd with NElement e => _ | NShadowRoot _ => None end); [done |].
  destruct (js_first_found (λ child, findSvg_at fuel (NElement child)) _)
    as [found|e] eqn:Hfound; [| done].
  rewrite (js_first_found_mono _ (λ child, findSvg_at fuel' (NElement child)) _ _
             (λ x rx _ Hx, IH fuel' (NElement x) rx ltac:(lia) Hx) Hfound).
  cbn [mbind js_bind]. destruct found; [done |].
  destruct (node_shadowRoot nd); [| done]. apply IH. lia.
Qed.

Lemma findSvg_fuel fuel el :
  size_el el ≤ fuel → findSvg_at fuel (NElement el) = findSvg el.
Proof.
  intros Hle. destruct (findSvg_spec el) as (r & Hr & _). rewrite Hr.
  by apply (findSvg_at_mono (size_el el)).
Qed.

(** ** Locating and capturing charts *)

Lemma lookup_map {A B : Type} (f : A → B) (l : list A) (i : nat) :
  List.map f l !! i = f <$> (l !! i).
Proof.
  revert i. induction l as [|x l IH]; intros [|i]; cbn; by try apply IH.
Qed.

(** Among the entries [findCharts] makes, those of a recognized tag are the
    elements of that tag, in the same order. *)
Lemma charts_in_tag types t l :
  In t types →
  List.filter (λ c, String.eqb (chart_tag c) t) (charts_in types l)
  = List.map (λ e, {| chart_tag := toLowerCase (tagName e); chart_element := e |})
      (List.filter (has_tag t) l).
Proof.
  intros Ht. unfold charts_in. induction l as [|e l IH]; [done |].
  cbn [List.filter]. unfold has_tag at 1.
  destruct (String.eqb_spec (toLowerCase (tagName e)) t) as [Heq | Hne].
  - rewrite bool_decide_eq_true_2 by (rewrite Heq; by apply list_elem_of_In).
    cbn [List.map List.filter chart_tag]. rewrite Heq at 1.
    rewrite String.eqb_refl. cbn [List.map]. by f_equal.
  - destruct (bool_decide _); [| done].
    cbn [List.map List.filter chart_tag].
    apply String.eqb_neq in Hne. by rewrite Hne.
Qed.

Lemma capture_script_hit B tag index p el :
  matching_elements B tag !! index = Some el →
  capture_script B tag index p = capture B el p.
Proof.
  unfold matching_elements, capture_script.
  destruct (querySelector _ _) as [app|]; [| done].
  destruct (shadowRoot app) as [sr|]; [| done]. intros Hel.
  rewrite findChart_traversal by lia. unfold found_at.
  rewrite Nat.sub_0_r, Hel. by destruct (capture B el p).
Qed.

Lemma capture_script_miss B tag index p :
  matching_elements B tag !! index = None →
  ∃ reason, capture_script B tag index p = JsOk (KindMissing reason).
Proof.
  unfold matching_elements, capture_script.
  destruct (querySelector _ _) as [app|]; [| by eexists].
  destruct (shadowRoot app) as [sr|]; [| by eexists]. intros Hel.
  rewrite findChart_traversal by lia. unfold found_at.
  rewrite Nat.sub_0_r, Hel. by eexists.
Qed.

(** C3.  Without the application element, or without a shadow root on it,
    [find_charts_in_shadow_dom] returns the empty list: nothing is raised and
    nothing changes. *)
Theorem find_charts_without_root driver w :
  querySelector (document (browser driver)) "tmn-ferp-app" = None
  ∨ (∃ app, querySelector (document (browser driver)) "tmn-ferp-app" = Some app
            ∧ shadowRoot app = None) →
  find_charts_in_shadow_dom driver w = (Ok [], w).
Proof.
  unfold find_charts_in_shadow_dom, find_charts_script.
  intros [-> | (app & -> & ->)]; reflexivity.
Qed.

Lemma find_charts_without_root_witness :
  find_charts_in_shadow_dom
    {| browser :=
         {| document := [el "HTML" [] [el "BODY" [] [el "TMN-FERP-APP" [] [] None] None] None];
            drawImage_toDataURL := drawImage_toDataURL sample_browser;
            canvas_toDataURL := canvas_toDataURL sample_browser;
            resolve_URL := resolve_URL sample_browser;
            xhr_get := xhr_get sample_browser;
            btoa := btoa sample_browser |};
       Page_getFrameTree := Page_getFrameTree sample_driver;
       Page_getResourceContent := Page_getResourceContent sample_driver |}
    new_world
  = (Ok [], new_world).
Proof.
  apply find_charts_without_root. right.
  exists (el "TMN-FERP-APP" [] [] None). split; reflexivity.
Defined.

(** C8.  On one page, [findChart] meets the elements in the order
    [findCharts] does: for a recognized tag [t], the element captured for
    [(t, i)] is the element of the [i]-th entry of tag [t] in the array the
    Locator builds (whose tags, in that order, are what it returns); when
    there is no such entry nothing is captured. *)
Theorem capture_selects_located_instance B chartTypes app sr t i p :
  querySelector (document B) "tmn-ferp-app" = Some app →
  shadowRoot app = Some sr →
  In t chartTypes →
  ∃ found,
    findCharts (S (size_list sr)) (Some sr) chartTypes = JsOk found
    ∧ find_charts_script B chartTypes = JsOk (List.map chart_tag found)
    ∧ capture_script B t i p
      = match List.filter (λ c, String.eqb (chart_tag c) t) found !! i with
        | Some c => capture B (chart_element c) p
        | None => JsOk (KindMissing None)
        end.
Proof.
  intros Happ Hsr Ht. exists (charts_in chartTypes (traversal sr)).
  assert (Hfound : findCharts (S (size_list sr)) (Some sr) chartTypes
                   = JsOk (charts_in chartTypes (traversal sr)))
    by (apply findCharts_traversal; lia).
  split; [done |]. split.
  { unfold find_charts_script. by rewrite Happ, Hsr, Hfound. }
  rewrite charts_in_tag by done. rewrite lookup_map.
  destruct (List.filter (has_tag t) (traversal sr) !! i) as [x|] eqn:Hx; cbn.
  - apply capture_script_hit. unfold matching_elements. by rewrite Happ, Hsr.
  - unfold capture_script. rewrite Happ, Hsr.
    rewrite findChart_traversal by lia. unfold found_at.
    by rewrite Nat.sub_0_r, Hx.
Qed.

(** The tree the scripts search is part of the page. *)
Lemma matching_elements_page B tag :
  length (matching_elements B tag)
  ≤ length (List.filter (has_tag tag) (page_elements B)).
Proof.
  unfold matching_elements, page_elements, querySelector.
  destruct (List.find _ _) as [app|] eqn:Happ; [| cbn; lia].
  destruct (shadowRoot app) as [sr|] eqn:Hsr; [| cbn; lia].
  apply find_some in Happ as [Hin _].
  apply in_split in Hin as (l1 & l2 & Hsplit).
  rewrite (traversal_querySelectorAll (document B)), Hsplit, flat_map_app.
  cbn [flat_map]. unfold visit at 2. rewrite Hsr.
  rewrite !List.filter_app, !length_app.
  change (app :: traversal sr) with ([app] ++ traversal sr).
  rewrite List.filter_app, length_app. lia.
Qed.

(** C2.  When the page holds fewer than [index + 1] elements of the tag, or
    merely the tree under the application's shadow root does,
    [capture_chart_by_tag] returns [None]; it raises nothing and leaves the
    files and the output as they were. *)
Theorem capture_missing_instance heat_map_png driver b64decode tag index path w :
  length (List.filter (has_tag tag) (page_elements (browser driver))) < index + 1
  ∨ length (matching_elements (browser driver) tag) < index + 1 →
  capture_chart_by_tag heat_map_png driver b64decode tag index path w
  = (Ok None, w).
Proof.
  intros Hfew.
  assert (Hfew' : length (matching_elements (browser driver) tag) < index + 1).
  { destruct Hfew as [Hpage | Htree]; [| done].
    pose proof (matching_elements_page (browser driver) tag). lia. }
  unfold capture_chart_by_tag.
  destruct (capture_script_miss (browser driver) tag index
              (heat_map_png && String.eqb tag "tmn-heat-map-baseball"))
    as [reason ->]; [apply lookup_ge_None; lia | reflexivity].
Qed.

Lemma capture_missing_instance_witness :
  capture_chart_by_tag true sample_driver sample_b64decode
    "tmn-heat-map-baseball" 5 "charts/heat-map_5.svg" new_world
  = (Ok None, new_world).
Proof. apply capture_missing_instance. left. vm_compute. lia. Defined.

Lemma capture_selects_located_instance_witness :
  ∃ found,
    findCharts (S (size_list sample_shadow_tree)) (Some sample_shadow_tree) CHART_TYPES
    = JsOk found
    ∧ find_charts_script sample_browser CHART_TYPES = JsOk (List.map chart_tag found)
    ∧ capture_script sample_browser "tmn-heat-map-baseball" 1 true
      = match List.filter (λ c, String.eqb (chart_tag c) "tmn-heat-map-baseball") found
              !! 1 with
        | Some c => capture sample_browser (chart_element c) true
        | None => JsOk (KindMissing None)
        end.
Proof.
  apply (capture_selects_located_instance sample_browser CHART_TYPES sample_app).
  - reflexivity.
  - reflexivity.
  - unfold CHART_TYPES. cbn [In]. tauto.
Defined.


Lemma mime_to_ext_image mime : image_extension (_mime_to_ext mime).
Proof.
  unfold _mime_to_ext, image_extension. destruct mime as [m|]; [| tauto].
  destruct (truthy m); cbn [negb]; [| tauto]. cbn [assoc].
  repeat match goal with
         | |- context [String.eqb ?x ?y] => destruct (String.eqb x y)
         end; cbn [default from_option id]; tauto.
Qed.





(** The end-to-end scenario of the specification on the sample page: three
    descriptors; the first heat map, with the preference, lands in a [.png]
    file; the pitch-break chart lands in the [.svg] file it was given. *)
Example sample_find_charts :
  find_charts_in_shadow_dom sample_driver new_world
  = (Ok ["tmn-heat-map-baseball"; "tmn-pitch-break-chart-baseball";
         "tmn-heat-map-baseball"], new_world).
Proof. reflexivity. Qed.

Example sample_capture_heat_map :
  fst (capture_chart_by_tag true sample_driver sample_b64decode
         "tmn-heat-map-baseball" 0 "charts/heat-map_0.svg" new_world)
  = Ok (Some "charts/heat-map_0.png").
Proof. reflexivity. Qed.

Example sample_capture_pitch_break :
  fst (capture_chart_by_tag true sample_driver sample_b64decode
         "tmn-pitch-break-chart-baseball" 0 "charts/pitch-break-chart.svg" new_world)
  = Ok (Some "charts/pitch-break-chart.svg").
Proof. reflexivity. Qed.

(** ** Connecting *)

Ltac conn_unfold :=
  unfold mbind, mret, Conn_bind, Conn_ret, conn_raise, record,
    _wait_for_debugger_ready, _ensure_debugger_target, webdriver_Chrome in *.

Lemma attach_count_app l1 l2 :
  attach_count (l1 ++ l2) = attach_count l1 + attach_count l2.
Proof. unfold attach_count. by rewrite List.filter_app, length_app. Qed.

Lemma extends_refl s n : extends s s n.
Proof. exists []. split; [by rewrite app_nil_r | cbn; lia]. Qed.

Lemma extends_step s s' st n :
  extends {| ready_calls := ready_calls s; target_calls := target_calls s; attach_calls := attach_calls s; steps := steps s ++ [st] |} s' n → 
  extends s s' (n + attach_count [st]).
Proof.
  intros (extra & Hs & Hn). exists (st :: extra). cbn [steps] in Hs. split.
  - by rewrite Hs, <- app_assoc.
  - change (st :: extra) with ([st] ++ extra). rewrite attach_count_app. lia.
Qed.

Lemma attach_count_cons st l :
  attach_count (st :: l) = attach_count [st] + attach_count l.
Proof. apply (attach_count_app [st] l). Qed.

Ltac count_attaches :=
  cbn [app];
  repeat (rewrite attach_count_app
          || rewrite (attach_count_cons _ (_ :: _))
          || rewrite (attach_count_cons _ (_ ++ _)));
  repeat match goal with
         | |- context [attach_count (?st :: ?l)] =>
             lazymatch l with
             | [] => fail
             | _ => rewrite (attach_count_cons st l)
             end
         end;
  unfold attach_count in *; cbn in *; lia.

(** The steps [extra] were added, none of them an attachment. *)
Ltac extends_here :=
  unfold extends; cbn [steps snd]; rewrite <- ?app_assoc; cbn [app];
  first [ exists []; split; [by rewrite app_nil_r | cbn; lia]
        | eexists; split; [reflexivity | cbn; lia] ].

Lemma attach_loop_extends chrome attempts s :
  extends s (attach_loop chrome attempts s).2 (length attempts).
Proof.
  revert s. induction attempts as [|attempt attempts IH]; intros s.
  { apply extends_refl. }
  cbn [attach_loop length]. conn_unfold.
  cbn [steps ready_calls target_calls attach_calls].
  destruct (attach chrome (attach_calls s)) as [[]|e]; [extends_here |].
  destruct e; try extends_here.
  destruct (attempt <? 3); cbn [steps ready_calls target_calls attach_calls snd];
    [| extends_here].
  destruct (debugger_ready chrome (ready_calls s)) as [ready|e];
    cbn [steps ready_calls target_calls attach_calls snd]; [| extends_here].
  destruct (debugger_target chrome (target_calls s)) as [target|e];
    cbn [steps ready_calls target_calls attach_calls snd]; [| extends_here].
  match goal with
  | |- extends _ (attach_loop _ _ ?s1).2 _ => destruct (IH s1) as (extra & Hs & Hn)
  end.
  cbn [steps] in Hs. eexists. split.
  - rewrite Hs, <- !app_assoc. reflexivity.
  - count_attaches.
Qed.

Lemma connect_extends chrome s : extends s (connect chrome s).2 4.
Proof.
  unfold connect. unfold mbind at 1, Conn_bind at 1.
  destruct (chromedriver chrome) as [[driver_path|]|e]; [| apply extends_refl ..].
  destruct (truthy driver_path); cbn [negb]; [| apply extends_refl].
  conn_unfold. cbn -[attach_loop seq attach_count].
  destruct (debug_session chrome) as [launched|e]; [| apply extends_refl].
  destruct (debugger_ready chrome (ready_calls s)) as [[]|e];
    cbn -[attach_loop seq attach_count]; [| extends_here ..].
  assert (Hloop : ∀ s1 line, extends s s1 0 →
    extends s
      (match attach_loop chrome (seq 0 4) s1 with
       | (Ok _, s2) =>
           (Ok tt,
            {| ready_calls := ready_calls s2; target_calls := target_calls s2;
               attach_calls := attach_calls s2; steps := steps s2 ++ [Say line] |})
       | (Raise e, s2) => (Raise e, s2)
       end).2 4).
  { intros s1 line (before & Hb & Hn).
    destruct (attach_loop_extends chrome (seq 0 4) s1) as (extra & Hs & Hm).
    cbn [length seq] in Hm.
    destruct (attach_loop chrome (seq 0 4) s1) as [[b|e] s2]; cbn [snd steps] in *;
      unfold extends; cbn [steps]; rewrite Hs, Hb, <- ?app_assoc; eexists;
      (split; [reflexivity |]); rewrite ?attach_count_app;
      change (attach_count [Say line]) with 0; lia. }
  destruct (debugger_target chrome (target_calls s)) as [[]|e];
    cbn -[attach_loop seq attach_count]; [| | extends_here].
  - apply Hloop. extends_here.
  - destruct (debugger_target chrome (S (target_calls s))) as [[]|e];
      cbn -[attach_loop seq attach_count]; [| extends_here ..].
    apply Hloop. extends_here.
Qed.

(** An attempt that is refused, followed by checks that return: on to the
    next attempt. *)
Lemma attach_loop_retry chrome attempt attempts s msg :
  attach chrome (attach_calls s) = Raise (SessionNotCreatedException msg) →
  attempt < 3 →
  returned (debugger_ready chrome (ready_calls s)) = true →
  returned (debugger_target chrome (target_calls s)) = true →
  attach_loop chrome (attempt :: attempts) s
  = attach_loop chrome attempts
      {| ready_calls := S (ready_calls s);
         target_calls := S (target_calls s);
         attach_calls := S (attach_calls s);
         steps := steps s ++ [StartService; Attach; StopService;
                              Say (retry_message attempt (2 + attempt));
                              Wait (2 + attempt);
                              WaitForDebuggerReady 15; EnsureDebuggerTarget] |}.
Proof.
  intros Hattach Hlt%Nat.ltb_lt Hready Htarget. cbn [attach_loop]. conn_unfold.
  cbn [steps ready_calls target_calls attach_calls]. rewrite Hattach, Hlt.
  cbn [steps ready_calls target_calls attach_calls].
  destruct (debugger_ready chrome (ready_calls s)); [| done].
  cbn [steps ready_calls target_calls attach_calls].
  destruct (debugger_target chrome (target_calls s)); [| done].
  by rewrite <- !app_assoc.
Qed.

Lemma attach_loop_give_up chrome attempt attempts s msg :
  attach chrome (attach_calls s) = Raise (SessionNotCreatedException msg) →
  3 ≤ attempt →
  attach_loop chrome (attempt :: attempts) s
  = (Raise (SessionNotCreatedException msg),
     {| ready_calls := ready_calls s;
        target_calls := target_calls s;
        attach_calls := S (attach_calls s);
        steps := steps s ++ [StartService; Attach; StopService;
                             LogDebuggerSnapshot] |}).
Proof.
  intros Hattach Hge%Nat.ltb_ge. cbn [attach_loop]. conn_unfold.
  cbn [steps ready_calls target_calls attach_calls]. rewrite Hattach, Hge.
  cbn [steps ready_calls target_calls attach_calls].
  by rewrite <- !app_assoc.
Qed.

(** With its preconditions met, [connect] comes to the attachment loop and,
    when the loop is left by [break], the announcement. *)
Lemma connect_preamble chrome launched first_look :
  ready_to_attach chrome launched first_look →
  connect chrome new_session
  = (attach_loop chrome (seq 0 4);;
     record (Say (connected_message chrome launched))) (attaching first_look).
Proof.
  intros ((driver_path & Hdriver & Hpath) & Hsession & Hready & Htarget & Hsecond).
  unfold connect. unfold mbind at 1, Conn_bind at 1. rewrite Hdriver, Hpath.
  cbn [negb]. unfold mbind at 1, Conn_bind at 1. rewrite Hsession.
  unfold mbind at 1, Conn_bind at 1, _wait_for_debugger_ready at 1.
  cbn [ready_calls new_session]. rewrite Hready. cbn [negb].
  unfold mbind at 1, Conn_bind at 1, _ensure_debugger_target at 1.
  cbn [target_calls new_session]. rewrite Htarget.
  destruct first_look; cbn [negb].
  - reflexivity.
  - unfold mbind at 1, Conn_bind at 1. unfold mbind at 1, Conn_bind at 1.
    unfold mbind at 1, Conn_bind at 1, record at 1.
    unfold mbind at 1, Conn_bind at 1, record at 1.
    unfold mbind at 1, Conn_bind at 1, _ensure_debugger_target at 1.
    cbn [ready_calls target_calls attach_calls steps new_session app].
    rewrite (Hsecond eq_refl). cbn [negb]. reflexivity.
Qed.

(** C5 (amended).  [connect] attaches at most four times.  Let its
    preconditions be met, at the first or at the second look for a tab, let
    all four attempts fail with [SessionNotCreatedException], and let the
    checks it runs again return.  Then after the first, second and third
    failure it stops the service, announces the retry, waits 2, 3 and 4
    seconds and asks again for the debugger and for a tab before the next
    attempt; after the fourth failure it waits no more, logs the debugger
    snapshot and raises the error of that fourth attempt. *)
Theorem connect_attach_retries chrome :
  attach_count (steps (connect chrome new_session).2) ≤ 4
  ∧ ∀ launched first_look m0 m1 m2 m3,
      ready_to_attach chrome launched first_look →
      (∀ i, i < 3 →
            returned (debugger_ready chrome (1 + i)) = true
            ∧ returned (debugger_target chrome (looks first_look + i)) = true) →
      attach chrome 0 = Raise (SessionNotCreatedException m0) →
      attach chrome 1 = Raise (SessionNotCreatedException m1) →
      attach chrome 2 = Raise (SessionNotCreatedException m2) →
      attach chrome 3 = Raise (SessionNotCreatedException m3) →
      connect chrome new_session
      = (Raise (SessionNotCreatedException m3),
         {| ready_calls := 4; target_calls := looks first_look + 3;
            attach_calls := 4;
            steps := preamble_steps first_look
                     ++ [StartService; Attach; StopService;
                         Say (retry_message 0 2); Wait 2;
                         WaitForDebuggerReady 15; EnsureDebuggerTarget;
                         StartService; Attach; StopService;
                         Say (retry_message 1 3); Wait 3;
                         WaitForDebuggerReady 15; EnsureDebuggerTarget;
                         StartService; Attach; StopService;
                         Say (retry_message 2 4); Wait 4;
                         WaitForDebuggerReady 15; EnsureDebuggerTarget;
                         StartService; Attach; StopService;
                         LogDebuggerSnapshot] |}).
Proof.
  split.
  - destruct (connect_extends chrome new_session) as (extra & -> & Hn).
    by rewrite attach_count_app.
  - intros launched first_look m0 m1 m2 m3 Hpre Hchecks H0 H1 H2 H3.
    rewrite (connect_preamble _ _ _ Hpre). unfold mbind, Conn_bind, attaching.
    destruct (Hchecks 0 ltac:(lia)) as [Hr0 Ht0].
    destruct (Hchecks 1 ltac:(lia)) as [Hr1 Ht1].
    destruct (Hchecks 2 ltac:(lia)) as [Hr2 Ht2].
    rewrite Nat.add_0_r in Ht0.
    cbn [seq].
    rewrite attach_loop_retry with (msg := m0) by (done || lia).
    cbn [ready_calls target_calls attach_calls steps].
    rewrite attach_loop_retry with (msg := m1);
      cbn [ready_calls target_calls attach_calls steps];
      [| done | lia | done | by rewrite <- Nat.add_1_r].
    rewrite attach_loop_retry with (msg := m2);
      cbn [ready_calls target_calls attach_calls steps];
      [| done | lia | done
       | by replace (S (S (looks first_look))) with (looks first_look + 2) by lia].
    rewrite attach_loop_give_up with (msg := m3) by (done || lia).
    cbn [ready_calls target_calls attach_calls steps].
    f_equal. f_equal; [lia |]. by rewrite <- !app_assoc.
Qed.

Lemma connect_attach_retries_witness :
  attach_count (steps (connect chrome_never_attaches new_session).2) ≤ 4
  ∧ connect chrome_never_attaches new_session
    = (Raise (SessionNotCreatedException "session not created"),
       {| ready_calls := 4; target_calls := looks true + 3; attach_calls := 4;
          steps := preamble_steps true
                   ++ [StartService; Attach; StopService;
                       Say (retry_message 0 2); Wait 2;
                       WaitForDebuggerReady 15; EnsureDebuggerTarget;
                       StartService; Attach; StopService;
                       Say (retry_message 1 3); Wait 3;
                       WaitForDebuggerReady 15; EnsureDebuggerTarget;
                       StartService; Attach; StopService;
                       Say (retry_message 2 4); Wait 4;
                       WaitForDebuggerReady 15; EnsureDebuggerTarget;
                       StartService; Attach; StopService;
                       LogDebuggerSnapshot] |}).
Proof.
  split.
  - apply (proj1 (connect_attach_retries chrome_never_attaches)).
  - apply (proj2 (connect_attach_retries chrome_never_attaches)
             false true
             "session not created" "session not created"
             "session not created" "session not created");
      try reflexivity.
    + unfold ready_to_attach. split; [by eexists |]. repeat split; done.
    + intros i Hi. split; reflexivity.
Defined.

(** C5 as stated asks for waits of 2, 3, 4 and 5 seconds; against a browser
    that never accepts, the four attempts are separated by 2, 3 and 4. *)
Lemma connect_backoff_counterexample :
  attach_count (steps (connect chrome_never_attaches new_session).2) = 4
  ∧ backoff_waits (steps (connect chrome_never_attaches new_session).2) = [2; 3; 4]
  ∧ backoff_waits (steps (connect chrome_never_attaches new_session).2) ≠ [2; 3; 4; 5].
Proof. vm_compute. split; [reflexivity |]. split; [reflexivity | discriminate]. Qed.

(** ** Naming the captured files *)

Lemma dict_get_set d k v k' :
  dict_get (dict_set d k v) k' 0
  = if String.eqb k k' then v else dict_get d k' 0.
Proof.
  induction d as [|[k0 v0] d IH]; cbn [dict_set dict_get].
  - done.
  - destruct (String.eqb_spec k0 k) as [-> | Hne]; cbn [dict_get].
    + by destruct (String.eqb k k').
    + rewrite IH. destruct (String.eqb_spec k0 k') as [-> | Hne'].
      * apply String.eqb_neq in Hne. rewrite String.eqb_sym in Hne. by rewrite Hne.
      * done.
Qed.

Lemma dict_set_keys d k v x :
  In x (List.map fst (dict_set d k v)) → In x (List.map fst d) ∨ x = k.
Proof.
  induction d as [|[k0 v0] d IH]; cbn [dict_set List.map fst].
  - intros [<- | []]. by right.
  - destruct (String.eqb_spec k0 k) as [-> | Hne]; cbn [List.map fst In].
    + tauto.
    + intros [<- | Hx]; [tauto |]. apply IH in Hx. tauto.
Qed.

Lemma dict_set_NoDup d k v :
  List.NoDup (List.map fst d) → List.NoDup (List.map fst (dict_set d k v)).
Proof.
  induction d as [|[k0 v0] d IH]; cbn [dict_set List.map fst].
  - intros _. constructor; [by intros [] | constructor].
  - intros [Hk0 Hd]%List.NoDup_cons_iff.
    destruct (String.eqb_spec k0 k) as [-> | Hne]; cbn [List.map fst].
    + by constructor.
    + constructor; [| by apply IH].
      intros [Hin | ->]%dict_set_keys; done.
Qed.

Lemma dict_get_in d tag count :
  List.NoDup (List.map fst d) → In (tag, count) d → dict_get d tag 0 = count.
Proof.
  induction d as [|[k0 v0] d IH]; [done |]. cbn [List.map fst dict_get].
  intros Hd%List.NoDup_cons_iff [[= -> ->] | Hin].
  - by rewrite String.eqb_refl.
  - destruct Hd as [Hk0 Hd]. destruct (String.eqb_spec k0 tag) as [-> | Hne].
    + destruct Hk0. apply in_map_iff. by exists (tag, count).
    + by apply IH.
Qed.

Lemma occurrences_snoc tag seen x :
  occurrences tag (seen ++ [x])
  = occurrences tag seen + (if String.eqb tag x then 1 else 0).
Proof.
  unfold occurrences. rewrite List.filter_app, length_app. cbn [List.filter].
  by destruct (String.eqb tag x).
Qed.

Lemma occurrences_in tag charts : 0 < occurrences tag charts → In tag charts.
Proof.
  unfold occurrences. induction charts as [|x charts IH]; cbn [List.filter length].
  - lia.
  - destruct (String.eqb_spec tag x) as [-> | Hne]; [by left |].
    intros H. right. by apply IH.
Qed.

Lemma count_from_invariant d seen charts :
  List.NoDup (List.map fst d) →
  (∀ tag, dict_get d tag 0 = occurrences tag seen) →
  List.NoDup (List.map fst (count_from d charts))
  ∧ ∀ tag, dict_get (count_from d charts) tag 0 = occurrences tag (seen ++ charts).
Proof.
  revert d seen. induction charts as [|x charts IH]; intros d seen Hd Hget.
  { by rewrite app_nil_r. }
  cbn [count_from foldl]. fold (count_from (dict_set d x (dict_get d x 0 + 1)) charts).
  replace (seen ++ x :: charts) with ((seen ++ [x]) ++ charts)
    by by rewrite <- app_assoc.
  apply IH; [by apply dict_set_NoDup |].
  intros tag. rewrite dict_get_set, occurrences_snoc, !Hget.
  rewrite String.eqb_sym. destruct (String.eqb_spec tag x) as [-> | Hne]; lia.
Qed.

Lemma expand_app d1 d2 : expand (d1 ++ d2) = expand d1 ++ expand d2.
Proof. unfold expand. apply flat_map_app. Qed.

Lemma expand_dict_set d tag :
  expand (dict_set d tag (dict_get d tag 0 + 1))
  ≡ₚ expand d ++ [(tag, dict_get d tag 0)].
Proof.
  induction d as [|[k0 v0] d IH]; cbn [dict_set dict_get].
  - done.
  - destruct (String.eqb_spec k0 tag) as [-> | Hne].
    + change ((tag, v0 + 1) :: d) with ([(tag, v0 + 1)] ++ d).
      change ((tag, v0) :: d) with ([(tag, v0)] ++ d).
      rewrite !expand_app. unfold expand at 1 3. cbn [flat_map].
      rewrite !app_nil_r, seq_app, List.map_app. cbn [seq List.map].
      rewrite <- !app_assoc. apply Permutation_app_head, Permutation_app_comm.
    + change ((k0, v0) :: ?l) with ([(k0, v0)] ++ l).
      rewrite !expand_app, IH. by rewrite <- app_assoc.
Qed.

Lemma expand_count_from d seen charts :
  (∀ tag, dict_get d tag 0 = occurrences tag seen) →
  expand (count_from d charts) ≡ₚ expand d ++ descriptors_from seen charts.
Proof.
  revert d seen. induction charts as [|x charts IH]; intros d seen Hget.
  { by rewrite app_nil_r. }
  cbn [count_from foldl descriptors_from].
  fold (count_from (dict_set d x (dict_get d x 0 + 1)) charts).
  rewrite (IH _ (seen ++ [x])).
  - rewrite expand_dict_set, Hget, <- app_assoc. done.
  - intros tag. rewrite dict_get_set, occurrences_snoc, !Hget.
    rewrite String.eqb_sym. destruct (String.eqb_spec tag x) as [-> | Hne]; lia.
Qed.

Lemma capture_plan_instances d output_dir :
  List.map (λ '(tag, idx, _), (tag, idx)) (capture_plan d output_dir) = expand d.
Proof.
  unfold capture_plan, expand. induction d as [|[tag count] d IH]; [done |].
  cbn [flat_map]. rewrite List.map_app, IH. f_equal.
  rewrite List.map_map. done.
Qed.

Lemma length_descriptors_from seen charts :
  length (descriptors_from seen charts) = length charts.
Proof.
  revert seen. induction charts as [|x charts IH]; intros seen; cbn; [done |].
  by rewrite IH.
Qed.

Lemma str_app_assoc (s1 s2 s3 : string) : (s1 +:+ s2) +:+ s3 = s1 +:+ s2 +:+ s3.
Proof.
  induction s1 as [|c s1 IH]; [done |].
  change (String c ((s1 +:+ s2) +:+ s3) = String c (s1 +:+ s2 +:+ s3)).
  by f_equal.
Qed.

Lemma chart_name_strips tag : In tag CHART_TYPES → chart_name tag = chart_type_name tag.
Proof.
  unfold CHART_TYPES. cbn [In].
  intros [<- | [<- | [<- | [<- | [<- | [<- | [<- | []]]]]]]]; by vm_compute.
Qed.

Lemma find_charts_recognized driver w charts w' :
  find_charts_in_shadow_dom driver w = (Ok charts, w') →
  ∀ tag, In tag charts → In tag CHART_TYPES.
Proof.
  unfold find_charts_in_shadow_dom, find_charts_script.
  destruct (querySelector _ _) as [app|]; [| by intros [= <- <-] tag []].
  destruct (shadowRoot app) as [sr|]; [| by intros [= <- <-] tag []].
  rewrite findCharts_traversal by lia. cbn. intros [= <- <-] tag.
  unfold charts_in. rewrite List.map_map. cbn [chart_tag].
  intros (e & <- & He)%in_map_iff. apply filter_In in He as [_ He].
  apply bool_decide_eq_true_1 in He. apply list_elem_of_In in He. exact He.
Qed.

Lemma descriptors_from_rank seen charts tag rank :
  In (tag, rank) (descriptors_from seen charts) → occurrences tag seen ≤ rank.
Proof.
  revert seen. induction charts as [|x charts IH]; intros seen; [done |].
  cbn [descriptors_from]. intros [[= -> ->] | Hin]; [done |].
  apply IH in Hin. rewrite occurrences_snoc in Hin. lia.
Qed.

(** No two descriptors share both tag and ordinal index. *)
Lemma descriptors_from_NoDup seen charts : List.NoDup (descriptors_from seen charts).
Proof.
  revert seen. induction charts as [|x charts IH]; intros seen; [constructor |].
  cbn [descriptors_from]. constructor; [| apply IH].
  intros Hin%descriptors_from_rank. rewrite occurrences_snoc, String.eqb_refl in Hin.
  lia.
Qed.

(** The plan for the sample page. *)
Example sample_capture_plan :
  capture_plan
    (count_charts ["tmn-heat-map-baseball"; "tmn-pitch-break-chart-baseball";
                   "tmn-heat-map-baseball"]) "charts"
  = [("tmn-heat-map-baseball", 0, "charts/heat-map_0.svg");
     ("tmn-heat-map-baseball", 1, "charts/heat-map_1.svg");
     ("tmn-pitch-break-chart-baseball", 0, "charts/pitch-break-chart.svg")].
Proof. by vm_compute. Qed.

(** ** The downloader on the sample driver *)

Lemma download_resource_no_content_witness :
  ∃ w', _download_resource sample_driver sample_b64decode "charts/heat-map.svg"
          "https://example.test/gone.png" new_world = (Ok None, w')
        ∧ files w' = files new_world
        ∧ trace w' =
            trace new_world
            ++ [Printed ("⚠️  Unable to fetch heat map image at "
                         +:+ "https://example.test/gone.png")].
Proof.
  apply (download_resource_no_content sample_driver sample_b64decode
           "charts/heat-map.svg" "https://example.test/gone.png" new_world
           {| _frame_id := Some "F1"; files := ∅; trace := [] |} "F1"
           {| resource_content := None; base64Encoded := false |});
    reflexivity.
Defined.

Lemma download_resource_extension_witness :
  let binary := str_encode "GIF89a-payload" in
  let url := "https://example.test/heat.PNG" in
  let ext := extension_by_fallback binary url in
  _detect_image binary url = ext
  ∧ ∃ final w',
      with_suffix (Path "charts/heat-map.svg") ("." +:+ ext) = Ok final
      ∧ path_suffix final = "." +:+ ext
      ∧ _download_resource sample_driver sample_b64decode "charts/heat-map.svg" url
          new_world
        = (Ok (Some (path_str final)), w')
      ∧ files w' = <[path_str final := Binary binary]> (files new_world)
      ∧ trace w' = trace new_world.
Proof.
  apply (download_resource_extension sample_driver sample_b64decode
           "charts/heat-map.svg" "https://example.test/heat.PNG" new_world
           {| _frame_id := Some "F1"; files := ∅; trace := [] |} "F1"
           {| resource_content := Some "GIF89a-payload"; base64Encoded := false |}
           "GIF89a-payload" (str_encode "GIF89a-payload"));
    reflexivity.
Defined.

(** The signature wins over the URL: a GIF served under a [.PNG] name is
    saved as [.gif]. *)
Example sample_download :
  fst (_download_resource sample_driver sample_b64decode "charts/heat-map.svg"
         "https://example.test/heat.PNG" new_world)
  = Ok (Some "charts/heat-map.gif").
Proof. reflexivity. Qed.

(** * Further properties *)

(** ** The Locator *)

Lemma occurrences_map_tag types tag l :
  occurrences tag (List.map chart_tag (charts_in types l))
  = length (List.filter (λ c, String.eqb (chart_tag c) tag) (charts_in types l)).
Proof.
  unfold occurrences. induction (charts_in types l) as [|c cs IH]; [done |].
  cbn [List.map List.filter]. rewrite (String.eqb_sym tag).
  destruct (String.eqb (chart_tag c) tag); cbn [length]; by rewrite IH.
Qed.

(** X1.  [find_charts_in_shadow_dom] never raises and changes nothing.  Every
    tag it reports is one of [CHART_TYPES], and for each of those it reports
    as many charts as the tree under the application's shadow root holds
    elements of that tag. *)
Theorem find_charts_reports_recognized_elements driver w :
  ∃ charts,
    find_charts_in_shadow_dom driver w = (Ok charts, w)
    ∧ Forall (λ tag, In tag CHART_TYPES) charts
    ∧ ∀ tag, In tag CHART_TYPES →
             occurrences tag charts
             = length (matching_elements (browser driver) tag).
Proof.
  unfold find_charts_in_shadow_dom, find_charts_script, matching_elements.
  destruct (querySelector _ _) as [app|].
  2:{ exists []. split; [done |]. split; [constructor | done]. }
  destruct (shadowRoot app) as [sr|].
  2:{ exists []. split; [done |]. split; [constructor | done]. }
  rewrite findCharts_traversal by lia. eexists. split; [reflexivity |]. split.
  - apply List.Forall_forall. intros tag (c & <- & Hc)%in_map_iff.
    unfold charts_in in Hc. apply in_map_iff in Hc as (e & <- & He).
    apply filter_In in He as [_ He]. apply bool_decide_eq_true_1 in He.
    apply list_elem_of_In in He. exact He.
  - intros tag Htag. rewrite occurrences_map_tag, charts_in_tag by done.
    by rewrite length_map.
Qed.

(** ** Searching inside a chart *)

(** X2.  [findSvg] always returns: an element only if it is an [svg] lying in
    the chart's tree (shadow trees included), and [null] only if that tree
    holds no [svg] at all. *)
Theorem findSvg_finds_exactly_when_present chart :
  ∃ r, findSvg chart = JsOk r
       ∧ match r with
         | Some svg => has_tag "svg" svg = true ∧ In svg (traversal_el chart)
         | None => Forall (λ x, has_tag "svg" x = false) (traversal_el chart)
         end.
Proof. apply findSvg_spec. Qed.

Lemma in_querySelectorAll_traversal kids x :
  In x (querySelectorAll kids) → In x (traversal kids).
Proof.
  intros Hx. rewrite traversal_querySelectorAll. apply in_flat_map.
  exists x. split; [done | by left].
Qed.

Lemma traversal_children_composed nd x :
  In x (traversal (node_children nd)) → In x (composed nd).
Proof.
  destruct nd as [e|kids]; cbn [node_children composed]; [| done].
  rewrite traversal_el_unfold. intros Hx. apply in_or_app. by right.
Qed.

Lemma traversal_shadow_composed nd sr x :
  node_shadowRoot nd = Some sr → In x (traversal sr) → In x (composed nd).
Proof.
  destruct nd as [e|kids]; cbn [node_shadowRoot composed]; [| done].
  intros Hsr Hx. rewrite traversal_el_unfold. apply in_or_app. left.
  unfold visit. rewrite Hsr. by right.
Qed.

Lemma first_found_some {A B : Type} (f : A → option B) l y :
  first_found f l = Some y → ∃ x, In x l ∧ f x = Some y.
Proof.
  induction l as [|x l IH]; [done |]. cbn [first_found].
  destruct (f x) as [y'|] eqn:Hx.
  - intros [= ->]. exists x. split; [by left | done].
  - intros (x' & Hin & Hx')%IH. exists x'. split; [by right | done].
Qed.

Lemma deepQuery_at_sound gas nd selector depth e :
  deepQuery_at gas nd selector depth = Some e →
  matches e selector = true ∧ In e (composed nd).
Proof.
  revert nd depth. induction gas as [|gas IH]; intros nd depth.
  { cbn [deepQuery_at]. by destruct (12 <? depth). }
  cbn [deepQuery_at]. destruct (12 <? depth); [done |].
  destruct nd as [el|kids]; cbn [node_children node_shadowRoot composed].
  - destruct (matches el selector) eqn:Hself.
    { intros [= <-]. split; [done | apply in_traversal_el_self]. }
    destruct (querySelector (children el) selector) as [direct|] eqn:Hdirect.
    { intros [= <-]. apply find_some in Hdirect as [Hin Hm]. split; [done |].
      apply (traversal_children_composed (NElement el)).
      by apply in_querySelectorAll_traversal. }
    destruct (shadowRoot el) as [sr|] eqn:Hsr.
    + destruct (deepQuery_at gas (NShadowRoot sr) selector (depth + 1)) as [r|] eqn:Hr.
      { intros [= <-]. apply IH in Hr as [Hm Hin]. split; [done |].
        by apply (traversal_shadow_composed (NElement el) sr). }
      intros (child & Hchild & Hfound)%first_found_some.
      apply IH in Hfound as [Hm Hin]. split; [done |].
      apply (traversal_children_composed (NElement el)).
      apply in_flat_map. by exists child.
    + intros (child & Hchild & Hfound)%first_found_some.
      apply IH in Hfound as [Hm Hin]. split; [done |].
      apply (traversal_children_composed (NElement el)).
      apply in_flat_map. by exists child.
  - destruct (querySelector kids selector) as [direct|] eqn:Hdirect.
    { intros [= <-]. apply find_some in Hdirect as [Hin Hm]. split; [done |].
      by apply in_querySelectorAll_traversal. }
    intros (child & Hchild & Hfound)%first_found_some.
    apply IH in Hfound as [Hm Hin]. split; [done |].
    apply in_flat_map. by exists child.
Qed.

(** X3.  What [deepQuery] returns matches the selector and lies in the tree
    of the node it was given, shadow trees included. *)
Theorem deepQuery_returns_matching_descendant nd selector e :
  deepQuery nd selector = Some e →
  matches e selector = true ∧ In e (composed nd).
Proof. apply deepQuery_at_sound. Qed.

Lemma deepQuery_returns_matching_descendant_witness :
  matches sample_img "img" = true ∧ In sample_img (composed (NElement sample_heat_map)).
Proof.
  apply (deepQuery_returns_matching_descendant (NElement sample_heat_map) "img").
  reflexivity.
Defined.

(** ** Writing captured images *)

Lemma write_data_url_cases b64decode path data mime w :
  (startswith data "data:" = false
   ∧ _write_data_url b64decode path data mime w = (Ok None, w))
  ∨ (∃ e, _write_data_url b64decode path data mime w = (Raise e, w))
  ∨ (∃ final binary,
       b64decode (partition_payload data) = Some binary
       ∧ path_suffix final = "." +:+ _mime_to_ext mime
       ∧ _write_data_url b64decode path data mime w
         = (Ok (Some (path_str final)), with_file w (path_str final) (Binary binary))).
Proof.
  unfold _write_data_url, b64decode_or_raise.
  destruct (startswith data "data:") eqn:Hdata; cbn [negb]; [| by left].
  right. py_unfold.
  destruct (b64decode (partition_payload data)) as [binary|] eqn:Hbin;
    [| left; by eexists].
  destruct (truthy (path_name (Path path))) eqn:Hname.
  - destruct (with_suffix_image_extension (Path path) (_mime_to_ext mime))
      as (final & Hfinal & Hsuffix); [apply mime_to_ext_image | done |].
    right. exists final, binary. rewrite Hfinal. by repeat split.
  - left. unfold with_suffix.
    destruct (contains "/" _); [by eexists |].
    destruct (_ || _); [by eexists |].
    rewrite Hname. by eexists.
Qed.

(** X4.  [_write_data_url] has three outcomes and no other: [None] for a
    string that is not a data URL, an exception, or the path of the one file
    it wrote, whose suffix is the extension of the MIME type and whose
    content is the decoded payload.  In the first two cases nothing is
    written. *)
Theorem write_data_url_writes_only_on_success b64decode path data mime w :
  (startswith data "data:" = false
   ∧ _write_data_url b64decode path data mime w = (Ok None, w))
  ∨ (∃ e, _write_data_url b64decode path data mime w = (Raise e, w))
  ∨ (∃ final binary,
       b64decode (partition_payload data) = Some binary
       ∧ path_suffix final = "." +:+ _mime_to_ext mime
       ∧ _write_data_url b64decode path data mime w
         = (Ok (Some (path_str final)), with_file w (path_str final) (Binary binary))).
Proof. apply write_data_url_cases. Qed.

(** ** The frame id *)

Lemma get_frame_id_cases driver w :
  (∃ msg, _get_frame_id driver w = (Raise msg, w))
  ∨ (∃ fid, truthy fid = true
            ∧ _get_frame_id driver w
              = (Ok fid, {| _frame_id := Some fid; files := files w; trace := trace w |})).
Proof.
  unfold _get_frame_id. py_unfold.
  destruct (Page_getFrameTree driver) as [tree|e]; [| left; by eexists].
  destruct (option_bind _ _ frame_id _) as [fid|]; [| left; by eexists].
  destruct (truthy fid) eqn:Hfid; [| left; by eexists].
  right. by exists fid.
Qed.

(** X5.  [_get_frame_id] either raises and leaves the scraper as it was, or
    returns a non-empty frame id and stores exactly that id in
    [self._frame_id]; files and output are untouched either way. *)
Theorem get_frame_id_caches_nonempty_id driver w :
  (∃ e, _get_frame_id driver w = (Raise e, w))
  ∨ (∃ fid, truthy fid = true
            ∧ _get_frame_id driver w
              = (Ok fid, {| _frame_id := Some fid; files := files w; trace := trace w |})).
Proof. apply get_frame_id_cases. Qed.

Lemma cached_or_fetched_frame_id_cached driver w fid w1 :
  cached_or_fetched_frame_id driver w = (Ok fid, w1) →
  truthy fid = true ∧ _frame_id w1 = Some fid.
Proof.
  unfold cached_or_fetched_frame_id. py_unfold.
  destruct (_frame_id w) as [cached|] eqn:Hc.
  - destruct (truthy cached) eqn:Ht.
    + by intros [= <- <-].
    + destruct (get_frame_id_cases driver w) as [(e & ->) | (fid' & Hfid & ->)];
        [done | by intros [= <- <-]].
  - destruct (get_frame_id_cases driver w) as [(e & ->) | (fid' & Hfid & ->)];
      [done | by intros [= <- <-]].
Qed.

(** X6.  Once a frame id has been resolved it is reused: from the state a
    successful resolution leaves, resolving again gives the same id without
    asking the browser, whatever [Page.getFrameTree] would answer now. *)
Theorem frame_id_resolved_once driver driver' w fid w1 :
  cached_or_fetched_frame_id driver w = (Ok fid, w1) →
  cached_or_fetched_frame_id driver' w1 = (Ok fid, w1).
Proof.
  intros [Hfid Hcached]%cached_or_fetched_frame_id_cached.
  unfold cached_or_fetched_frame_id. py_unfold. by rewrite Hcached, Hfid.
Qed.

Lemma frame_id_resolved_once_witness :
  cached_or_fetched_frame_id
    {| browser := sample_browser;
       Page_getFrameTree := Raise (WebDriverException "target closed");
       Page_getResourceContent := Page_getResourceContent sample_driver |}
    {| _frame_id := Some "F1"; files := ∅; trace := [] |}
  = (Ok "F1", {| _frame_id := Some "F1"; files := ∅; trace := [] |}).
Proof.
  apply (frame_id_resolved_once sample_driver _ new_world). reflexivity.
Defined.

(** ** Downloading *)

Lemma download_resource_cases driver b64decode path url w :
  ∃ r w', _download_resource driver b64decode path url w = (r, w')
          ∧ match r with
            | Ok (Some p) =>
                ∃ frame_id w1 content binary final,
                  cached_or_fetched_frame_id driver w = (Ok frame_id, w1)
                  ∧ Page_getResourceContent driver frame_id url = Ok content
                  ∧ downloaded b64decode content binary
                  ∧ with_suffix (Path path) ("." +:+ _detect_image binary url)
                    = Ok final
                  ∧ path_suffix final = "." +:+ _detect_image binary url
                  ∧ p = path_str final
                  ∧ w' = with_file w1 p (Binary binary)
                  ∧ files w' = <[p := Binary binary]> (files w)
                  ∧ trace w' = trace w
            | Ok None =>
                (∃ frame_id w1 content,
                   cached_or_fetched_frame_id driver w = (Ok frame_id, w1)
                   ∧ Page_getResourceContent driver frame_id url = Ok content
                   ∧ resource_content content = None)
                ∧ files w' = files w
                ∧ trace w' = trace w
                             ++ [Printed ("⚠️  Unable to fetch heat map image at " +:+ url)]
            | Raise _ => files w' = files w ∧ trace w' = trace w
            end.
Proof.
  unfold _download_resource, b64decode_or_raise.
  unfold mbind at 1, Py_bind at 1.
  destruct (cached_or_fetched_frame_id driver w) as [[fid|e] w1] eqn:Hfid;
    destruct (cached_or_fetched_frame_id_pure _ _ _ _ Hfid) as [Hfiles Htrace].
  2:{ by exists (Raise e), w1. }
  py_unfold.
  destruct (Page_getResourceContent driver fid url) as [response|e] eqn:Hresponse.
  2:{ by exists (Raise e), w1. }
  destruct (resource_content response) as [data|] eqn:Hdata.
  2:{ eexists (Ok None), _. split; [reflexivity |]. cbn.
      rewrite Hfiles, Htrace. split; [| done]. by exists fid, w1, response. }
  assert (Hwrite : ∀ binary,
    downloaded b64decode response binary →
    ∃ r w',
      match with_suffix (Path path) ("." +:+ _detect_image binary url) with
      | Ok final =>
          (Ok (Some (path_str final)),
           {| _frame_id := _frame_id w1;
              files := <[path_str final := Binary binary]> (files w1);
              trace := trace w1 |})
      | Raise e => (Raise e, w1)
      end = (r, w')
      ∧ match r with
        | Ok (Some p) =>
            ∃ frame_id w0 content binary' final,
              (Ok fid, w1) = (Ok frame_id, w0)
              ∧ Page_getResourceContent driver frame_id url = Ok content
              ∧ downloaded b64decode content binary'
              ∧ with_suffix (Path path) ("." +:+ _detect_image binary' url)
                = Ok final
              ∧ path_suffix final = "." +:+ _detect_image binary' url
              ∧ p = path_str final
              ∧ w' = with_file w0 p (Binary binary')
              ∧ files w' = <[p := Binary binary']> (files w)
              ∧ trace w' = trace w
        | Ok None => False
        | Raise _ => files w' = files w ∧ trace w' = trace w
        end).
  { intros binary Hbinary.
    destruct (truthy (path_name (Path path))) eqn:Hname.
    - destruct (with_suffix_image_extension (Path path) (_detect_image binary url))
        as (final & Hfinal & Hsuffix); [apply detect_image_cases | done |].
      rewrite Hfinal. eexists _, _. split; [reflexivity |].
      exists fid, w1, response, binary, final. unfold with_file.
      cbn [files trace]. rewrite Hfiles, Htrace. by repeat split.
    - unfold with_suffix.
      destruct (contains "/" _); [by eexists _, _ |].
      destruct (_ || _); [by eexists _, _ |].
      rewrite Hname. by eexists _, _. }
  destruct (base64Encoded response) eqn:Hb64.
  - destruct (b64decode data) as [binary|] eqn:Hbin;
      [| by exists (Raise BinasciiError), w1].
    destruct (Hwrite binary) as (r & w' & Heq & Hr).
    { exists data. by rewrite Hb64. }
    exists r, w'. split; [exact Heq |]. destruct r as [[p|]|]; done.
  - destruct (Hwrite (str_encode data)) as (r & w' & Heq & Hr).
    { exists data. by rewrite Hb64. }
    exists r, w'. split; [exact Heq |]. destruct r as [[p|]|]; done.
Qed.

(** X7.  Whatever the browser answers, [_download_resource] writes a file
    only when it returns its path.  Then [Page.getResourceContent], asked
    with the cached or fetched frame id and the URL, gave a content; the one
    file written holds its bytes, decoded when the answer says base64 and
    encoded as text otherwise, under the given path with the suffix
    [_detect_image] chose for these bytes and the URL.  When it returns
    [None] the answer had no content: it has printed the warning and written
    nothing.  When it raises it has written and printed nothing. *)
Theorem download_resource_writes_only_on_success driver b64decode path url w :
  ∃ r w', _download_resource driver b64decode path url w = (r, w')
          ∧ match r with
            | Ok (Some p) =>
                ∃ frame_id w1 content binary final,
                  cached_or_fetched_frame_id driver w = (Ok frame_id, w1)
                  ∧ Page_getResourceContent driver frame_id url = Ok content
                  ∧ downloaded b64decode content binary
                  ∧ with_suffix (Path path) ("." +:+ _detect_image binary url)
                    = Ok final
                  ∧ path_suffix final = "." +:+ _detect_image binary url
                  ∧ p = path_str final
                  ∧ w' = with_file w1 p (Binary binary)
                  ∧ files w' = <[p := Binary binary]> (files w)
                  ∧ trace w' = trace w
            | Ok None =>
                (∃ frame_id w1 content,
                   cached_or_fetched_frame_id driver w = (Ok frame_id, w1)
                   ∧ Page_getResourceContent driver frame_id url = Ok content
                   ∧ resource_content content = None)
                ∧ files w' = files w
                ∧ trace w' = trace w
                             ++ [Printed ("⚠️  Unable to fetch heat map image at " +:+ url)]
            | Raise _ => files w' = files w ∧ trace w' = trace w
            end.
Proof. apply download_resource_cases. Qed.

(** On the sample driver: the one resource it knows is written as a [.gif]
    file with the bytes of its text. *)
Example sample_download_bytes :
  _download_resource sample_driver sample_b64decode "charts/heat-map_0.svg"
    "https://example.test/heat.PNG" new_world
  = (Ok (Some "charts/heat-map_0.gif"),
     {| _frame_id := Some "F1";
        files := <["charts/heat-map_0.gif" := Binary (str_encode "GIF89a-payload")]> ∅;
        trace := [] |}).
Proof. reflexivity. Qed.

(** The files [capture_chart_by_tag] leaves: one more when it returns a
    path, else those it found. *)
Lemma capture_files heat_map_png driver b64decode tag index path w :
  ∃ r w', capture_chart_by_tag heat_map_png driver b64decode tag index path w = (r, w')
          ∧ match r with
            | Ok (Some p) => ∃ key c, files w' = <[key := c]> (files w)
            | _ => files w' = files w
            end.
Proof.
  unfold capture_chart_by_tag, execute_script.
  destruct (capture_script _ _ _ _) as [[svg | data mime | href | reason]|e].
  - py_unfold. destruct (truthy svg).
    + eexists _, _. split; [reflexivity |]. by eexists _, _.
    + by eexists _, _.
  - unfold mbind, mret, Py_bind, Py_ret. destruct (truthy data); [| by eexists _, _].
    destruct (write_data_url_cases b64decode path data mime w)
      as [[_ ->] | [(e & ->) | (final & binary & _ & _ & ->)]];
      eexists _, _; (split; [reflexivity |]); [done | done |].
    by eexists _, _.
  - unfold mbind, mret, Py_bind, Py_ret. destruct (truthy href); [| by eexists _, _].
    destruct (download_resource_cases driver b64decode path href w)
      as (r & w' & -> & Hr).
    exists r, w'. split; [done |]. destruct r as [[p|]|e]; [| tauto..].
    destruct Hr as (fid & w1 & content & binary & final & Hr).
    destruct Hr as (_ & _ & _ & _ & _ & _ & _ & Hfiles & _). by eexists _, _.
  - by eexists _, _.
  - by eexists _, _.
Qed.

(** X8.  [capture_chart_by_tag] writes at most one file, and only when it
    returns a path; when it returns [None] or raises, the files are what
    they were. *)
Theorem capture_writes_only_when_it_returns_a_path
  heat_map_png driver b64decode tag index path w :
  ∃ r w', capture_chart_by_tag heat_map_png driver b64decode tag index path w = (r, w')
          ∧ match r with
            | Ok (Some p) => ∃ key c, files w' = <[key := c]> (files w)
            | _ => files w' = files w
            end.
Proof. apply capture_files. Qed.

(** ** Scraping a page *)

(** X9.  When the Locator reports no chart, [scrape_current_page] returns the
    empty list: it has waited its seven seconds and printed that no charts
    were found, and it has neither created the output directory nor written
    a file. *)
Theorem scrape_page_without_charts heat_map_png driver b64decode output_dir w :
  find_charts_in_shadow_dom driver w = (Ok [], w) →
  scrape_current_page heat_map_png driver b64decode output_dir w
  = (Ok [],
     {| _frame_id := _frame_id w;
        files := files w;
        trace := trace w
                 ++ [Printed (nl +:+ "Waiting for charts to load...");
                     Slept 7;
                     Printed "Finding charts in shadow DOM...";
                     Printed "⚠️  No charts found"] |}).
Proof.
  unfold scrape_current_page, find_charts_in_shadow_dom, execute_script.
  destruct (find_charts_script (browser driver) CHART_TYPES) as [found|e]; [| done].
  intros [= ->]. py_unfold. cbn [trace files _frame_id].
  by rewrite <- !app_assoc.
Qed.

Lemma scrape_page_without_charts_witness :
  scrape_current_page true
    {| browser :=
         {| document := [el "HTML" [] [el "BODY" [] [] None] None];
            drawImage_toDataURL := drawImage_toDataURL sample_browser;
            canvas_toDataURL := canvas_toDataURL sample_browser;
            resolve_URL := resolve_URL sample_browser;
            xhr_get := xhr_get sample_browser;
            btoa := btoa sample_browser |};
       Page_getFrameTree := Page_getFrameTree sample_driver;
       Page_getResourceContent := Page_getResourceContent sample_driver |}
    sample_b64decode "charts" new_world
  = (Ok [],
     {| _frame_id := _frame_id new_world;
        files := files new_world;
        trace := trace new_world
                 ++ [Printed (nl +:+ "Waiting for charts to load...");
                     Slept 7;
                     Printed "Finding charts in shadow DOM...";
                     Printed "⚠️  No charts found"] |}).
Proof. apply scrape_page_without_charts. reflexivity. Defined.

Lemma capture_each_length heat_map_png driver b64decode plan captured result w w' :
  capture_each heat_map_png driver b64decode plan captured w = (Ok result, w') →
  length result ≤ length captured + length plan
  ∧ (Forall (λ p, truthy p = true) captured → Forall (λ p, truthy p = true) result).
Proof.
  revert captured w. induction plan as [|[[tag idx] filepath] plan IH];
    intros captured w.
  { cbn. intros [= <- <-]. split; [lia | done]. }
  cbn [capture_each length]. unfold mbind at 1, Py_bind at 1.
  destruct (capture_chart_by_tag _ _ _ _ _ _ w) as [[[saved|]|e] w1]; [| | done].
  - destruct (truthy saved) eqn:Hsaved.
    + py_unfold. intros [Hlen Hall]%IH. rewrite length_app in Hlen. cbn in Hlen.
      split; [lia |]. intros Hc. apply Hall, List.Forall_app. split; [done |].
      by constructor.
    + intros [Hlen Hall]%IH. split; [lia | done].
  - intros [Hlen Hall]%IH. split; [lia | done].
Qed.

(** X10.  [scrape_current_page] never returns more paths than the Locator
    reported charts, and never an empty path. *)
Theorem scrape_page_captures_at_most_the_located
  heat_map_png driver b64decode output_dir w :
  ∃ charts,
    find_charts_in_shadow_dom driver w = (Ok charts, w)
    ∧ ∀ captured w',
        scrape_current_page heat_map_png driver b64decode output_dir w
        = (Ok captured, w') →
        length captured ≤ length charts
        ∧ Forall (λ p, truthy p = true) captured.
Proof.
  unfold find_charts_in_shadow_dom, execute_script, scrape_current_page.
  destruct (find_charts_script (browser driver) CHART_TYPES) as [charts|e] eqn:Hs.
  2:{ exfalso. revert Hs. unfold find_charts_script.
      destruct (querySelector _ _) as [app|]; [| done].
      destruct (shadowRoot app) as [sr|]; [| done].
      by rewrite findCharts_traversal by lia. }
  exists charts. split; [done |]. intros captured w'.
  unfold find_charts_in_shadow_dom, execute_script. rewrite Hs. py_unfold.
  destruct charts as [|tag charts].
  { intros [= <- _]. split; [cbn; lia | constructor]. }
  intros [Hlen Hall]%capture_each_length. split; [| apply Hall; constructor].
  pose proof (capture_plan_instances (count_charts (tag :: charts)) output_dir) as Hp.
  apply (f_equal length) in Hp. rewrite length_map in Hp.
  pose proof (expand_count_from [] [] (tag :: charts) (λ _, eq_refl)) as Hperm.
  apply Permutation_length in Hperm.
  rewrite length_app, length_descriptors_from in Hperm.
  unfold count_charts in *. cbn [length expand flat_map] in *. lia.
Qed.

(** ** File names *)

Lemma rev_app_app s t acc :
  String.rev_app (s +:+ t) acc = String.rev_app t (String.rev_app s acc).
Proof. revert acc. induction s as [|c s IH]; intros acc; [done |]. apply IH. Qed.

Lemma rev_app_acc s acc : String.rev_app s acc = String.rev_app s "" +:+ acc.
Proof.
  revert acc. induction s as [|c s IH]; intros acc; [done |].
  cbn [String.rev_app]. rewrite IH, (IH (String c "")).
  by rewrite str_app_assoc.
Qed.

Lemma prefix_app s t : String.prefix s (s +:+ t) = true.
Proof.
  induction s as [|c s IH]; [by destruct t |].
  change (String c s +:+ t) with (String c (s +:+ t)). cbn [String.prefix].
  destruct (ascii_dec c c); [done | congruence].
Qed.

Lemma endswith_app s p : endswith (s +:+ p) p = true.
Proof.
  unfold endswith, String.rev.
  rewrite rev_app_app, (rev_app_acc p (String.rev_app s "")).
  apply prefix_app.
Qed.

Lemma endswith_refl p : endswith p p = true.
Proof. apply (endswith_app "" p). Qed.

Lemma os_path_join_endswith a p : endswith (os_path_join a p) p = true.
Proof.
  unfold os_path_join. destruct (startswith p "/"); [apply endswith_refl |].
  destruct (_ || _); [apply endswith_app |].
  rewrite <- str_app_assoc. apply endswith_app.
Qed.

Lemma endswith_trans s p q :
  endswith s p = true → endswith p q = true → endswith s q = true.
Proof.
  unfold endswith. generalize (String.rev s) (String.rev p) (String.rev q).
  intros a b d. revert a b. induction d as [|cd d IH]; intros a b.
  - by destruct a.
  - destruct b as [|cb b]; [by destruct a |]. destruct a as [|ca a]; [done |].
    cbn [String.prefix]. destruct (ascii_dec cb ca) as [-> |]; [| done].
    destruct (ascii_dec cd ca) as [-> |]; [| done].
    apply IH.
Qed.

Lemma count_from_positive d charts :
  (∀ tag count, In (tag, count) d → 0 < count) →
  ∀ tag count, In (tag, count) (count_from d charts) → 0 < count.
Proof.
  revert d. induction charts as [|x charts IH]; intros d Hd; [done |].
  cbn [count_from foldl]. fold (count_from (dict_set d x (dict_get d x 0 + 1)) charts).
  apply IH. clear IH. induction d as [|[k v] d IHd]; cbn [dict_set dict_get].
  - intros tag count [[= <- <-] | []]. cbn. lia.
  - destruct (String.eqb k x).
    + intros tag count [[= <- <-] | Hin]; [lia |]. apply (Hd tag). by right.
    + intros tag count [[= <- <-] | Hin]; [apply (Hd k); by left |].
      revert Hin. apply IHd. intros t c Ht. apply (Hd t). by right.
Qed.

Lemma str_app_inv_head s t t' : s +:+ t = s +:+ t' → t = t'.
Proof.
  induction s as [|c s IH]; [done |].
  change (String c (s +:+ t) = String c (s +:+ t') → t = t'). intros [= H]. by apply IH.
Qed.

Lemma str_app_inv_tail s s' t : s +:+ t = s' +:+ t → s = s'.
Proof.
  revert s'. induction s as [|c s IH]; intros [|c' s'].
  - done.
  - intros H. apply (f_equal String.length) in H.
    rewrite (length_app_str (String c' s')) in H. cbn [String.length] in H.
    change ("" +:+ t) with t in H. lia.
  - intros H. apply (f_equal String.length) in H.
    rewrite (length_app_str (String c s)) in H. cbn [String.length] in H.
    change ("" +:+ t) with t in H. lia.
  - change (String c (s +:+ t) = String c' (s' +:+ t) → String c s = String c' s').
    intros [= -> H]. f_equal. by apply IH.
Qed.

Lemma chart_name_inj tag tag' t t' :
  In tag CHART_TYPES → In tag' CHART_TYPES →
  chart_name tag +:+ t = chart_name tag' +:+ t' →
  (t = ".svg" ∨ ∃ u, t = String "_" u) →
  (t' = ".svg" ∨ ∃ u', t' = String "_" u') →
  tag = tag' ∧ t = t'.
Proof.
  unfold CHART_TYPES. cbn [In].
  intros [<- | [<- | [<- | [<- | [<- | [<- | [<- | []]]]]]]]
         [<- | [<- | [<- | [<- | [<- | [<- | [<- | []]]]]]]] H Ht Ht';
    vm_compute in H;
    first [ split; [reflexivity | congruence]
          | exfalso; destruct Ht as [-> | [u ->]], Ht' as [-> | [u' ->]];
            congruence ].
Qed.

Lemma chart_filename_shape tag idx count :
  ∃ t, chart_filename tag idx count = chart_name tag +:+ t
       ∧ (t = ".svg" ∨ ∃ u, t = String "_" u)
       ∧ t = (if 1 <? count then "_" +:+ pretty idx +:+ ".svg" else ".svg").
Proof.
  unfold chart_filename. destruct (1 <? count); eexists; (split; [reflexivity |]).
  - split; [right; by eexists | done].
  - split; [by left | done].
Qed.

Lemma chart_filename_relative tag idx count :
  In tag CHART_TYPES → startswith (chart_filename tag idx count) "/" = false.
Proof.
  destruct (chart_filename_shape tag idx count) as (t & -> & _). revert t.
  unfold CHART_TYPES. cbn [In].
  intros t [<- | [<- | [<- | [<- | [<- | [<- | [<- | []]]]]]]]; by vm_compute.
Qed.

Lemma os_path_join_inj a p p' :
  startswith p "/" = false → startswith p' "/" = false →
  os_path_join a p = os_path_join a p' → p = p'.
Proof.
  unfold os_path_join. intros -> ->. destruct (_ || _).
  - apply str_app_inv_head.
  - intros H%str_app_inv_head. by apply str_app_inv_head in H.
Qed.

Lemma capture_plan_in d output_dir tag idx filepath :
  In (tag, idx, filepath) (capture_plan d output_dir) ↔
  ∃ count, In (tag, count) d ∧ idx < count
           ∧ filepath = os_path_join output_dir (chart_filename tag idx count).
Proof.
  unfold capture_plan. rewrite in_flat_map. split.
  - intros ([tag' count] & Hentry & Hin).
    apply in_map_iff in Hin as (idx' & [= -> -> <-] & Hidx%in_seq).
    exists count. split; [done |]. split; [lia | done].
  - intros (count & Hentry & Hidx & ->). exists (tag, count). split; [done |].
    apply in_map_iff. exists idx. split; [done |]. apply in_seq. lia.
Qed.

Lemma count_charts_entries charts tag count :
  In (tag, count) (count_charts charts) →
  In tag charts ∧ count = dict_get (count_charts charts) tag 0.
Proof.
  destruct (count_from_invariant [] [] charts) as [Hnodup Hget];
    [constructor | done |]. cbn [app] in Hget.
  unfold count_charts in *.
  intros Hin. assert (Hcount := dict_get_in _ _ _ Hnodup Hin). split; [| done].
  apply occurrences_in. rewrite <- Hget, Hcount.
  by apply (count_from_positive [] charts (λ _ _ H, match H with end) tag).
Qed.

(** Two requests of a page's plan that name the same file are the same
    request. *)
Lemma capture_plan_path_inj charts output_dir tag idx tag' idx' filepath :
  (∀ tag, In tag charts → In tag CHART_TYPES) →
  In (tag, idx, filepath) (capture_plan (count_charts charts) output_dir) →
  In (tag', idx', filepath) (capture_plan (count_charts charts) output_dir) →
  tag = tag' ∧ idx = idx'.
Proof.
  intros Htags (count & Hentry & Hidx & ->)%capture_plan_in.
  intros (count' & Hentry' & Hidx' & Hsame)%capture_plan_in.
  apply count_charts_entries in Hentry as [Htag Hcount].
  apply count_charts_entries in Hentry' as [Htag' Hcount'].
  apply os_path_join_inj in Hsame;
    [| apply chart_filename_relative; auto ..].
  destruct (chart_filename_shape tag idx count) as (t & Ht & Hshape & Hrest).
  destruct (chart_filename_shape tag' idx' count') as (t' & Ht' & Hshape' & Hrest').
  rewrite Ht, Ht' in Hsame.
  apply chart_name_inj in Hsame as [<- Heq]; auto.
  assert (count' = count) as -> by congruence. split; [done |].
  rewrite Hrest, Hrest' in Heq. destruct (1 <? count) eqn:Hseveral.
  - apply str_app_inv_head in Heq. apply str_app_inv_tail in Heq.
    by apply (inj pretty) in Heq.
  - apply Nat.ltb_ge in Hseveral. lia.
Qed.

Lemma capture_plan_NoDup charts output_dir :
  List.NoDup (capture_plan (count_charts charts) output_dir).
Proof.
  apply (NoDup_map_inv (λ '(tag, idx, _), (tag, idx))).
  rewrite capture_plan_instances.
  apply (Permutation_NoDup
           (Permutation_sym (expand_count_from [] [] charts (λ _, eq_refl)))).
  apply descriptors_from_NoDup.
Qed.

(** X11.  The files [scrape_current_page] asks for are pairwise different,
    whatever the output directory: no capture of a page is written over the
    target of another; and each of them ends in [.svg]. *)
Theorem planned_paths_distinct driver w charts w' output_dir :
  find_charts_in_shadow_dom driver w = (Ok charts, w') →
  List.NoDup
    (List.map (λ '(_, _, filepath), filepath)
       (capture_plan (count_charts charts) output_dir))
  ∧ Forall (λ '(_, _, filepath), endswith filepath ".svg" = true)
      (capture_plan (count_charts charts) output_dir).
Proof.
  intros Hfound. assert (Htags := find_charts_recognized _ _ _ _ Hfound). split.
  - apply NoDup_map_NoDup_ForallPairs; [| apply capture_plan_NoDup].
    intros [[tag idx] filepath] [[tag' idx'] filepath'] Hin Hin' <-.
    by destruct (capture_plan_path_inj _ _ _ _ _ _ _ Htags Hin Hin') as [<- <-].
  - apply List.Forall_forall. intros [[tag idx] filepath].
    intros (count & _ & _ & ->)%capture_plan_in.
    apply (endswith_trans _ _ _ (os_path_join_endswith _ _)). unfold chart_filename.
    destruct (1 <? count).
    + rewrite <- !str_app_assoc. apply endswith_app.
    + apply endswith_app.
Qed.

Lemma planned_paths_distinct_witness :
  List.NoDup
    (List.map (λ '(_, _, filepath), filepath)
       (capture_plan
          (count_charts ["tmn-heat-map-baseball"; "tmn-pitch-break-chart-baseball";
                         "tmn-heat-map-baseball"]) "charts"))
  ∧ Forall (λ '(_, _, filepath), endswith filepath ".svg" = true)
      (capture_plan
         (count_charts ["tmn-heat-map-baseball"; "tmn-pitch-break-chart-baseball";
                        "tmn-heat-map-baseball"]) "charts").
Proof.
  apply (planned_paths_distinct sample_driver new_world _ new_world "charts").
  reflexivity.
Defined.

(** ** Extensions *)

Lemma ascii_lower_idem c : ascii_lower (ascii_lower c) = ascii_lower c.
Proof.
  unfold ascii_lower.
  destruct ((65 <=? nat_of_ascii c) && (nat_of_ascii c <=? 90)) eqn:Hup; [| by rewrite Hup].
  apply andb_prop in Hup as [H1%Nat.leb_le H2%Nat.leb_le].
  rewrite nat_ascii_embedding by lia.
  replace ((65 <=? nat_of_ascii c + 32) && (nat_of_ascii c + 32 <=? 90)) with false; [done |].
  symmetry. apply andb_false_iff. right. apply Nat.leb_gt. lia.
Qed.

Lemma lower_idem s : lower (lower s) = lower s.
Proof.
  induction s as [|c s IH]; [done |]. cbn [lower]. by rewrite ascii_lower_idem, IH.
Qed.

Lemma truthy_lower s : truthy (lower s) = truthy s.
Proof. by destruct s. Qed.

(** X12.  [_mime_to_ext] ignores the case of the MIME type, always answers
    with one of png, jpg, gif or webp, and answers png for every type it
    does not know. *)
Theorem mime_to_ext_case_insensitive_default_png :
  (∀ mime, _mime_to_ext (Some (lower mime)) = _mime_to_ext (Some mime))
  ∧ (∀ mime, image_extension (_mime_to_ext mime))
  ∧ (∀ mime,
       In (lower mime) ["image/jpeg"; "image/jpg"; "image/gif"; "image/webp"]
       ∨ _mime_to_ext (Some mime) = "png").
Proof.
  split; [| split].
  - intros mime. unfold _mime_to_ext. by rewrite truthy_lower, lower_idem.
  - apply mime_to_ext_image.
  - intros mime. unfold _mime_to_ext. destruct (truthy mime); [| by right].
    cbn [negb assoc In].
    destruct (String.eqb_spec "image/png" (lower mime)); [right; reflexivity |].
    destruct (String.eqb_spec "image/jpeg" (lower mime)); [tauto |].
    destruct (String.eqb_spec "image/jpg" (lower mime)); [tauto |].
    destruct (String.eqb_spec "image/gif" (lower mime)); [tauto |].
    destruct (String.eqb_spec "image/webp" (lower mime)); [tauto |].
    right; reflexivity.
Qed.

(** X13.  A payload that starts with any of the five signatures gets that
    signature's extension whatever the URL says, and the URL is read without
    regard to case. *)
Theorem detect_image_signature_beats_url :
  (∀ sig ext rest url,
     In (sig, ext) signatures → _detect_image (sig ++ rest) url = ext)
  ∧ (∀ binary url, _detect_image binary (lower url) = _detect_image binary url).
Proof.
  split.
  - intros sig ext rest url. unfold signatures. cbn [In].
    intros [[= <- <-] | [[= <- <-] | [[= <- <-] | [[= <- <-] | [[= <- <-] | []]]]]];
      by vm_compute.
  - intros binary url. unfold _detect_image. by rewrite lower_idem.
Qed.

(** ** Counting charts *)

Lemma dict_get_positive_in d tag :
  0 < dict_get d tag 0 → In (tag, dict_get d tag 0) d.
Proof.
  induction d as [|[k v] d IH]; cbn [dict_get]; [lia |].
  destruct (String.eqb_spec k tag) as [-> | Hne]; [by left |].
  intros Hpos. right. by apply IH.
Qed.

(** X14.  After the counting loop of [scrape_current_page], [chart_counts]
    holds each reported tag once, with the number of charts reported for it,
    which is at least one; a tag that was not reported is absent. *)
Theorem chart_counts_count_each_tag charts :
  List.NoDup (List.map fst (count_charts charts))
  ∧ (∀ tag, dict_get (count_charts charts) tag 0 = occurrences tag charts)
  ∧ (∀ tag count, In (tag, count) (count_charts charts) ↔
                  (count = occurrences tag charts ∧ 0 < count)).
Proof.
  destruct (count_from_invariant [] [] charts) as [Hnodup Hget];
    [constructor | done |]. cbn [app] in Hget.
  split; [done |]. split; [done |]. intros tag count. split.
  - intros Hin. split.
    + rewrite <- (Hget tag). symmetry. by apply dict_get_in.
    + by apply (count_from_positive [] charts (λ _ _ H, match H with end) tag).
  - intros [-> Hpos]. rewrite <- (Hget tag) in *. by apply dict_get_positive_in.
Qed.

(** ** Attaching: what happens before, and after fewer than four refusals *)

Lemma attach_count_retry_steps attempts :
  attach_count (retry_steps attempts) = length attempts.
Proof.
  induction attempts as [|attempt attempts IH]; [done |].
  unfold retry_steps. cbn [flat_map]. rewrite attach_count_app.
  fold (retry_steps attempts). rewrite IH. done.
Qed.

Lemma waits_app l1 l2 : waits (l1 ++ l2) = waits l1 ++ waits l2.
Proof.
  induction l1 as [|st l1 IH]; [done |]. destruct st; cbn [app waits]; by rewrite IH.
Qed.

Lemma waits_retry_steps attempts :
  waits (retry_steps attempts) = List.map (λ attempt, 2 + attempt) attempts.
Proof.
  induction attempts as [|attempt attempts IH]; [done |].
  unfold retry_steps. cbn [flat_map]. rewrite waits_app.
  fold (retry_steps attempts). rewrite IH. done.
Qed.

Lemma attach_count_preamble_steps first_look :
  attach_count (preamble_steps first_look) = 0.
Proof. by destruct first_look. Qed.

Lemma attach_loop_refused chrome k : ∀ a attempts s,
  a + k ≤ 3 →
  (∀ i, i < k →
        is_session_not_created (attach chrome (attach_calls s + i)) = true
        ∧ returned (debugger_ready chrome (ready_calls s + i)) = true
        ∧ returned (debugger_target chrome (target_calls s + i)) = true) →
  attach_loop chrome (seq a k ++ attempts) s
  = attach_loop chrome attempts
      {| ready_calls := ready_calls s + k;
         target_calls := target_calls s + k;
         attach_calls := attach_calls s + k;
         steps := steps s ++ retry_steps (seq a k) |}.
Proof.
  induction k as [|k IH]; intros a attempts s Ha Hrefused.
  - cbn [seq app retry_steps flat_map]. rewrite !Nat.add_0_r, app_nil_r. by destruct s.
  - destruct (Hrefused 0 ltac:(lia)) as (H0 & Hr0 & Ht0).
    rewrite Nat.add_0_r in H0, Hr0, Ht0.
    destruct (attach chrome (attach_calls s)) as [|e] eqn:Hattach; [done |].
    destruct e as [| |msg| | | |]; try done.
    cbn [seq app].
    rewrite (attach_loop_retry chrome a _ s msg Hattach) by (done || lia).
    rewrite IH; cbn [ready_calls target_calls attach_calls steps].
    + f_equal. unfold retry_steps. cbn [flat_map]. rewrite <- app_assoc.
      f_equal; lia.
    + lia.
    + intros i Hi.
      replace (S (attach_calls s) + i) with (attach_calls s + S i) by lia.
      replace (S (ready_calls s) + i) with (ready_calls s + S i) by lia.
      replace (S (target_calls s) + i) with (target_calls s + S i) by lia.
      apply Hrefused. lia.
Qed.

Lemma attach_loop_answer chrome k answer s :
  k ≤ 3 →
  (∀ i, i < k →
        is_session_not_created (attach chrome (attach_calls s + i)) = true
        ∧ returned (debugger_ready chrome (ready_calls s + i)) = true
        ∧ returned (debugger_target chrome (target_calls s + i)) = true) →
  attach chrome (attach_calls s + k) = answer →
  is_session_not_created answer = false →
  attach_loop chrome (seq 0 4) s
  = (match answer with Ok _ => Ok true | Raise e => Raise e end,
     {| ready_calls := ready_calls s + k;
        target_calls := target_calls s + k;
        attach_calls := S (attach_calls s + k);
        steps := steps s ++ retry_steps (seq 0 k) ++ [StartService; Attach] |}).
Proof.
  intros Hk Hrefused Hanswer Hother.
  replace 4 with (k + S (3 - k)) by lia. rewrite seq_app.
  rewrite attach_loop_refused by (done || lia).
  cbn [seq attach_loop]. conn_unfold.
  cbn [ready_calls target_calls attach_calls steps]. rewrite Hanswer.
  destruct answer as [[]|e].
  - by rewrite <- !app_assoc.
  - destruct e; try done; by rewrite <- !app_assoc.
Qed.

(** An attempt that is refused, followed by a check that raises: the error
    of the check leaves the loop. *)
Lemma attach_loop_check_raises chrome attempt attempts s msg e :
  attach chrome (attach_calls s) = Raise (SessionNotCreatedException msg) →
  attempt < 3 →
  debugger_ready chrome (ready_calls s) = Raise e
  ∨ (returned (debugger_ready chrome (ready_calls s)) = true
     ∧ debugger_target chrome (target_calls s) = Raise e) →
  attach_loop chrome (attempt :: attempts) s
  = (Raise e,
     {| ready_calls := S (ready_calls s);
        target_calls :=
          (if returned (debugger_ready chrome (ready_calls s))
           then S (target_calls s) else target_calls s);
        attach_calls := S (attach_calls s);
        steps := steps s ++ [StartService; Attach; StopService;
                             Say (retry_message attempt (2 + attempt));
                             Wait (2 + attempt); WaitForDebuggerReady 15]
                 ++ (if returned (debugger_ready chrome (ready_calls s))
                     then [EnsureDebuggerTarget] else []) |}).
Proof.
  intros Hattach Hlt%Nat.ltb_lt Hcheck. cbn [attach_loop]. conn_unfold.
  cbn [steps ready_calls target_calls attach_calls]. rewrite Hattach, Hlt.
  cbn [steps ready_calls target_calls attach_calls].
  destruct Hcheck as [Hready | [Hready Htarget]].
  - rewrite Hready. cbn [returned]. by rewrite <- !app_assoc.
  - destruct (debugger_ready chrome (ready_calls s)); [| done].
    cbn [steps ready_calls target_calls attach_calls returned].
    rewrite Htarget. by rewrite <- !app_assoc.
Qed.

Lemma from_first_attach_retry_steps pre attempts rest :
  attach_count pre = 0 →
  from_first_attach (pre ++ retry_steps attempts ++ StartService :: Attach :: rest)
  = match attempts with
    | [] => Attach :: rest
    | attempt :: attempts' =>
        Attach :: StopService :: Say (retry_message attempt (2 + attempt))
        :: Wait (2 + attempt) :: WaitForDebuggerReady 15 :: EnsureDebuggerTarget
        :: retry_steps attempts' ++ StartService :: Attach :: rest
    end.
Proof.
  induction pre as [|st pre IH].
  - intros _. by destruct attempts.
  - rewrite attach_count_cons. destruct st; cbn; intros H; try (apply IH; exact H).
    unfold attach_count in H. cbn in H. lia.
Qed.

(** X15.  [connect] tries to attach only after [_find_chromedriver] gave a
    path, [_ensure_debug_session] returned, [_wait_for_debugger_ready]
    answered true, and [_ensure_debugger_target] answered true at the first
    look, or false at the first and true at the second; a helper that raises
    or answers otherwise ends [connect] before any attachment. *)
Theorem connect_attaches_only_when_ready chrome :
  0 < attach_count (steps (connect chrome new_session).2) →
  ∃ launched first_look, ready_to_attach chrome launched first_look.
Proof.
  unfold connect, ready_to_attach. unfold mbind at 1, Conn_bind at 1.
  destruct (chromedriver chrome) as [[driver_path|]|e]; [| cbn; lia ..].
  destruct (truthy driver_path) eqn:Hpath; cbn [negb]; [| cbn; lia].
  conn_unfold. cbn -[attach_loop seq attach_count pretty String.append].
  destruct (debug_session chrome) as [launched|e]; [| cbn; lia].
  destruct (debugger_ready chrome 0) as [[]|e] eqn:Hready;
    cbn -[attach_loop seq attach_count pretty String.append]; [| cbn; lia ..].
  destruct (debugger_target chrome 0) as [[]|e] eqn:Htarget;
    cbn -[attach_loop seq attach_count pretty String.append]; [| | cbn; lia].
  { intros _. exists launched, true. split; [by exists driver_path |].
    repeat split; done. }
  destruct (debugger_target chrome 1) as [[]|e] eqn:Htarget';
    cbn -[attach_loop seq attach_count pretty String.append]; [| cbn; lia ..].
  intros _. exists launched, false. split; [by exists driver_path |].
  repeat split; done.
Qed.

Lemma connect_attaches_only_when_ready_witness :
  ∃ launched first_look,
    ready_to_attach (chrome_answers_after 1 (Ok tt)) launched first_look.
Proof.
  apply (connect_attaches_only_when_ready (chrome_answers_after 1 (Ok tt))).
  vm_compute. lia.
Defined.

(** X16.  Let the preconditions of [connect] be met, at the first or at the
    second look for a tab.  When the first [k] attachments, [k] at most
    three, fail with [SessionNotCreatedException], the checks run after each
    of them return, and the next attachment is accepted, [connect] succeeds:
    it has attached [k + 1] times, waited 2, 3, ... seconds between the
    attempts, and ends by announcing the connection; nothing is stopped or
    logged after the attachment that succeeded. *)
Theorem connect_succeeds_after_refusals chrome k launched first_look :
  k ≤ 3 →
  ready_to_attach chrome launched first_look →
  (∀ i, i < k →
        is_session_not_created (attach chrome i) = true
        ∧ returned (debugger_ready chrome (1 + i)) = true
        ∧ returned (debugger_target chrome (looks first_look + i)) = true) →
  attach chrome k = Ok tt →
  connect chrome new_session
  = (Ok tt,
     {| ready_calls := 1 + k; target_calls := looks first_look + k;
        attach_calls := S k;
        steps := preamble_steps first_look
                 ++ retry_steps (seq 0 k)
                 ++ [StartService; Attach;
                     Say (connected_message chrome launched)] |})
  ∧ attach_count (steps (connect chrome new_session).2) = k + 1
  ∧ backoff_waits (steps (connect chrome new_session).2)
    = List.map (λ attempt, 2 + attempt) (seq 0 k).
Proof.
  intros Hk Hpre Hrefused Haccepted.
  assert (Hrun : connect chrome new_session
    = (Ok tt,
       {| ready_calls := 1 + k; target_calls := looks first_look + k;
          attach_calls := S k;
          steps := preamble_steps first_look
                   ++ retry_steps (seq 0 k)
                   ++ [StartService; Attach;
                       Say (connected_message chrome launched)] |})).
  { rewrite (connect_preamble _ _ _ Hpre). unfold mbind, Conn_bind.
    rewrite (attach_loop_answer chrome k (Ok tt)); [| done | done | done | done].
    unfold record, attaching.
    cbn [steps ready_calls target_calls attach_calls app].
    f_equal. f_equal. by rewrite <- !app_assoc. }
  rewrite Hrun. split; [reflexivity |]. cbn [snd steps]. split.
  - rewrite !attach_count_app, attach_count_preamble_steps,
      attach_count_retry_steps, length_seq.
    unfold attach_count. cbn [List.filter length]. lia.
  - unfold backoff_waits.
    rewrite (from_first_attach_retry_steps
               (preamble_steps first_look) (seq 0 k)
               [Say (connected_message chrome launched)])
      by apply attach_count_preamble_steps.
    destruct (seq 0 k) as [|attempt attempts]; [done |].
    cbn [waits List.map]. f_equal.
    change (StartService :: Attach :: ?l) with ([StartService; Attach] ++ l).
    rewrite waits_app, waits_retry_steps. cbn [waits]. by rewrite app_nil_r.
Qed.

Lemma connect_succeeds_after_refusals_witness :
  connect chrome_opens_tab_late new_session
  = (Ok tt,
     {| ready_calls := 1 + 2; target_calls := looks false + 2;
        attach_calls := 3;
        steps := preamble_steps false
                 ++ retry_steps (seq 0 2)
                 ++ [StartService; Attach;
                     Say (connected_message chrome_opens_tab_late true)] |})
  ∧ attach_count (steps (connect chrome_opens_tab_late new_session).2) = 2 + 1
  ∧ backoff_waits (steps (connect chrome_opens_tab_late new_session).2)
    = List.map (λ attempt, 2 + attempt) (seq 0 2).
Proof.
  apply (connect_succeeds_after_refusals chrome_opens_tab_late 2 true false);
    [lia | | | reflexivity].
  - split; [by eexists |]. repeat split; done.
  - intros [|[|i]] Hi; [by repeat split | by repeat split | lia].
Defined.

(** X17.  Let the preconditions of [connect] be met.  An attachment error
    other than [SessionNotCreatedException] ends [connect] at once, also
    after earlier refusals whose checks returned: the error is raised as it
    is, and after that attachment the service is not stopped, nothing is
    retried, no snapshot is logged and no connection is announced. *)
Theorem connect_raises_other_errors_at_once chrome k e launched first_look :
  k ≤ 3 →
  ready_to_attach chrome launched first_look →
  (∀ i, i < k →
        is_session_not_created (attach chrome i) = true
        ∧ returned (debugger_ready chrome (1 + i)) = true
        ∧ returned (debugger_target chrome (looks first_look + i)) = true) →
  attach chrome k = Raise e →
  is_session_not_created (Raise e) = false →
  connect chrome new_session
  = (Raise e,
     {| ready_calls := 1 + k; target_calls := looks first_look + k;
        attach_calls := S k;
        steps := preamble_steps first_look
                 ++ retry_steps (seq 0 k) ++ [StartService; Attach] |}).
Proof.
  intros Hk Hpre Hrefused Hraised Hother.
  rewrite (connect_preamble _ _ _ Hpre). unfold mbind, Conn_bind.
  by rewrite (attach_loop_answer chrome k (Raise e)).
Qed.

Lemma connect_raises_other_errors_at_once_witness :
  connect (chrome_answers_after 1 (Raise (WebDriverException "unknown error")))
    new_session
  = (Raise (WebDriverException "unknown error"),
     {| ready_calls := 1 + 1; target_calls := looks true + 1; attach_calls := 2;
        steps := preamble_steps true
                 ++ retry_steps (seq 0 1) ++ [StartService; Attach] |}).
Proof.
  apply (connect_raises_other_errors_at_once
           (chrome_answers_after 1 (Raise (WebDriverException "unknown error")))
           1 (WebDriverException "unknown error") true true);
    [lia | | | reflexivity | reflexivity].
  - split; [by eexists |]. repeat split; done.
  - intros [|i] Hi; [by repeat split | lia].
Defined.

(** X28.  The checks [connect] runs again after a refused attachment are
    inside the [except] clause and are not guarded.  Let the preconditions
    be met, the first [k] attachments, [k] at most two, be refused with
    checks that return, and the next attachment be refused too.  When then
    [_wait_for_debugger_ready] raises, or it returns and
    [_ensure_debugger_target] raises, [connect] ends with that error: it has
    attached [k + 1] times, there is no further attempt, no snapshot and no
    announcement. *)
Theorem connect_ends_when_a_check_raises chrome k launched first_look msg e :
  k ≤ 2 →
  ready_to_attach chrome launched first_look →
  (∀ i, i < k →
        is_session_not_created (attach chrome i) = true
        ∧ returned (debugger_ready chrome (1 + i)) = true
        ∧ returned (debugger_target chrome (looks first_look + i)) = true) →
  attach chrome k = Raise (SessionNotCreatedException msg) →
  debugger_ready chrome (1 + k) = Raise e
  ∨ (returned (debugger_ready chrome (1 + k)) = true
     ∧ debugger_target chrome (looks first_look + k) = Raise e) →
  connect chrome new_session
  = (Raise e,
     {| ready_calls := 2 + k;
        target_calls :=
          (if returned (debugger_ready chrome (1 + k))
           then S (looks first_look + k) else looks first_look + k);
        attach_calls := S k;
        steps := preamble_steps first_look
                 ++ retry_steps (seq 0 k)
                 ++ [StartService; Attach; StopService;
                     Say (retry_message k (2 + k)); Wait (2 + k);
                     WaitForDebuggerReady 15]
                 ++ (if returned (debugger_ready chrome (1 + k))
                     then [EnsureDebuggerTarget] else []) |}).
Proof.
  intros Hk Hpre Hrefused Hraised Hcheck.
  rewrite (connect_preamble _ _ _ Hpre). unfold mbind, Conn_bind.
  replace (seq 0 4) with (seq 0 (k + S (3 - k))) by (f_equal; lia).
  rewrite seq_app, attach_loop_refused by (done || lia).
  cbn [seq]. unfold attaching.
  cbn [ready_calls target_calls attach_calls steps].
  rewrite (attach_loop_check_raises chrome (0 + k) _ _ msg e);
    cbn [ready_calls target_calls attach_calls steps];
    [| done | lia | done].
  rewrite Nat.add_0_l. f_equal. by rewrite <- !app_assoc.
Qed.

Lemma connect_ends_when_a_check_raises_witness :
  connect chrome_loses_debugger new_session
  = (Raise (ValueError "Expecting value"),
     {| ready_calls := 2 + 1;
        target_calls :=
          (if returned (debugger_ready chrome_loses_debugger (1 + 1))
           then S (looks true + 1) else looks true + 1);
        attach_calls := 2;
        steps := preamble_steps true
                 ++ retry_steps (seq 0 1)
                 ++ [StartService; Attach; StopService;
                     Say (retry_message 1 (2 + 1)); Wait (2 + 1);
                     WaitForDebuggerReady 15]
                 ++ (if returned (debugger_ready chrome_loses_debugger (1 + 1))
                     then [EnsureDebuggerTarget] else []) |}).
Proof.
  apply (connect_ends_when_a_check_raises chrome_loses_debugger 1 false true
           "session not created" (ValueError "Expecting value"));
    [lia | | | reflexivity | right; split; reflexivity].
  - split; [by eexists |]. repeat split; done.
  - intros [|i] Hi; [by repeat split | lia].
Defined.
(** ** The scouting report's captures: [scrape_pitcher_charts] *)

Ltac scraping_unfold :=
  unfold mbind, mret, Scraping_bind, Scraping_ret, py, append_heatmap,
    set_movement, set_headshot, try_except, log, print, lift, write in *.

Lemma map_add_seq off start n :
  List.map (λ idx, off + idx) (seq start n) = seq (off + start) n.
Proof.
  revert start. induction n as [|n IH]; intros start; [done |].
  cbn [seq List.map]. rewrite IH. by rewrite Nat.add_succ_r.
Qed.

Lemma heat_map_plan_indexes pitcher_index located pitcher_dir :
  List.map fst (heat_map_plan pitcher_index located pitcher_dir)
  = seq (pitcher_index * 18) (Nat.min 18 (located - pitcher_index * 18)).
Proof.
  unfold heat_map_plan. cbv zeta. rewrite List.map_map. cbn [fst].
  by rewrite map_add_seq, Nat.add_0_r.
Qed.

(** X18.  The heat maps asked for on behalf of pitcher [p] are those with
    index [18 p] to [18 p + 17], as far as they were located.  Called for the
    pitchers 0, 1, ... in turn, the function therefore asks for the located
    heat maps in order, each once, up to eighteen per pitcher. *)
Theorem heat_map_windows_partition located :
  (∀ pitcher_index pitcher_dir index filename,
     In (index, filename) (heat_map_plan pitcher_index located pitcher_dir) →
     18 * pitcher_index ≤ index < 18 * pitcher_index + 18 ∧ index < located)
  ∧ (∀ pitchers (pitcher_dir : nat → string),
       flat_map
         (λ pitcher_index,
            List.map fst (heat_map_plan pitcher_index located (pitcher_dir pitcher_index)))
         (seq 0 pitchers)
       = seq 0 (Nat.min located (18 * pitchers))).
Proof.
  split.
  - intros pitcher_index pitcher_dir index filename Hin.
    apply (in_map fst) in Hin. rewrite heat_map_plan_indexes in Hin.
    apply in_seq in Hin. cbn [fst] in Hin. lia.
  - intros pitchers pitcher_dir. induction pitchers as [|pitchers IH].
    + by rewrite Nat.mul_0_r, Nat.min_0_r.
    + rewrite seq_S, flat_map_app, IH. cbn [flat_map Nat.add].
      rewrite app_nil_r, heat_map_plan_indexes.
      destruct (Nat.le_gt_cases located (18 * pitchers)) as [Hle | Hgt].
      * replace (located - pitchers * 18) with 0 by lia.
        rewrite Nat.min_0_r. cbn [seq]. rewrite app_nil_r. f_equal. lia.
      * replace (Nat.min located (18 * pitchers)) with (pitchers * 18) by lia.
        rewrite <- (seq_app (pitchers * 18) _ 0). f_equal. lia.
Qed.

Section ScoutingFacts.

Variable heat_map_png : bool.
Variable driver : Driver.
Variable b64decode : string → option bytes.
Variable requests_get : string → outcome Response.
Variable exception_str : exception → string.

(** The loop adds at most one path per request, each non-empty, and leaves
    the other entries of the dict alone, also when it is left by an error. *)
Lemma capture_heat_maps_adds plan charts w :
  ∃ r new w',
    capture_heat_maps heat_map_png driver b64decode plan charts w
    = (r, {| heatmaps := heatmaps charts ++ new; movement := movement charts;
             headshot := headshot charts |}, w')
    ∧ length new ≤ length plan
    ∧ Forall (λ path, truthy path = true) new.
Proof.
  revert charts w. induction plan as [|[index filename] plan IH]; intros charts w.
  { exists (Ok tt), [], w. rewrite app_nil_r. by destruct charts. }
  cbn [capture_heat_maps]. scraping_unfold.
  destruct (capture_chart_by_tag _ _ _ _ _ _ w) as [[[path|]|e] w1].
  - destruct (truthy path) eqn:Hpath.
    + match goal with
      | |- context [capture_heat_maps _ _ _ _ ?c w1] =>
          destruct (IH c w1) as (r & new & w' & -> & Hlen & Hnew)
      end.
      cbn [heatmaps movement headshot]. exists r, (path :: new), w'.
      rewrite <- app_assoc. split; [done |]. split; [cbn; lia |].
      by constructor.
    + destruct (IH charts w1) as (r & new & w' & -> & Hlen & Hnew).
      exists r, new, w'. split; [done |]. split; [cbn; lia | done].
  - destruct (IH charts w1) as (r & new & w' & -> & Hlen & Hnew).
    exists r, new, w'. split; [done |]. split; [cbn; lia | done].
  - exists (Raise e), [], w1. rewrite app_nil_r. split; [by destruct charts |].
    split; [cbn; lia | done].
Qed.

Lemma length_heat_map_plan pitcher_index located pitcher_dir :
  length (heat_map_plan pitcher_index located pitcher_dir) ≤ 18.
Proof. unfold heat_map_plan. cbv zeta. rewrite length_map, length_seq. lia. Qed.

Lemma download_headshot_returns pitcher_dir url charts w :
  ∃ charts' w',
    download_headshot requests_get exception_str pitcher_dir url charts w
    = (Ok tt, charts', w')
    ∧ heatmaps charts' = heatmaps charts ∧ movement charts' = movement charts
    ∧ (headshot charts' = headshot charts
       ∨ ∃ response,
           requests_get url = Ok response ∧ status_code response = 200
           ∧ headshot charts' = Some (os_path_join pitcher_dir "headshot.png")
           ∧ files w' !! path_str (Path (os_path_join pitcher_dir "headshot.png"))
             = Some (Binary (response_content response))).
Proof.
  unfold download_headshot. scraping_unfold.
  destruct (requests_get url) as [response|e] eqn:Hget.
  - destruct (status_code response =? 200) eqn:Hstatus.
    + eexists _, _. split; [reflexivity |]. cbn [heatmaps movement headshot files].
      split; [done |]. split; [done |]. right. exists response.
      apply Nat.eqb_eq in Hstatus. split; [done |]. split; [done |].
      split; [done |]. apply lookup_insert_eq.
    + eexists _, _. split; [reflexivity |]. auto.
  - eexists _, _. split; [reflexivity |]. auto.
Qed.

Lemma capture_movement_adds pitcher_index pitcher_dir movement_charts charts w :
  ∃ r charts' w',
    capture_movement heat_map_png driver b64decode pitcher_index pitcher_dir
      movement_charts charts w = (r, charts', w')
    ∧ heatmaps charts' = heatmaps charts ∧ headshot charts' = headshot charts
    ∧ (movement charts' = movement charts
       ∨ ∃ path, movement charts' = Some path ∧ truthy path = true).
Proof.
  unfold capture_movement. destruct (pitcher_index <? _); scraping_unfold.
  2:{ eexists _, _, _. split; [reflexivity |]. auto. }
  destruct (capture_chart_by_tag _ _ _ _ _ _ w) as [[[path|]|e] w1].
  - destruct (truthy path) eqn:Hpath.
    + eexists _, _, _. split; [reflexivity |]. cbn [heatmaps movement headshot].
      split; [done |]. split; [done |]. right. by exists path.
    + eexists _, _, _. split; [reflexivity |]. auto.
  - eexists _, _, _. split; [reflexivity |]. auto.
  - eexists _, _, _. split; [reflexivity |]. auto.
Qed.

Lemma capture_headshot_returns pitcher_dir url charts w :
  ∃ charts' w',
    capture_headshot requests_get exception_str pitcher_dir url charts w
    = (Ok tt, charts', w')
    ∧ heatmaps charts' = heatmaps charts ∧ movement charts' = movement charts
    ∧ (headshot charts' = headshot charts
       ∨ ∃ response,
           requests_get url = Ok response ∧ status_code response = 200
           ∧ headshot charts' = Some (os_path_join pitcher_dir "headshot.png")
           ∧ files w' !! path_str (Path (os_path_join pitcher_dir "headshot.png"))
             = Some (Binary (response_content response))).
Proof.
  unfold capture_headshot. destruct (truthy url).
  2:{ exists charts, w. split; [done |]. auto. }
  unfold mbind, Scraping_bind, py at 1, print, log.
  match goal with
  | |- context [download_headshot _ _ _ _ _ ?w1] =>
      destruct (download_headshot_returns pitcher_dir url charts w1)
        as (charts' & w' & -> & H)
  end.
  by exists charts', w'.
Qed.

(** X19.  Once the pitcher's directory is made, [scrape_pitcher_charts]
    never raises.  It returns the dict as the body of its [try] left it:
    when the body raised, the error is reported in a line of output, which
    is all the handler does, and the dict is returned as far as it was
    filled.  The dict holds at most eighteen heat maps; every path in it is
    non-empty; and a headshot is recorded only when the download answered
    with status 200, in which case the file holds the bytes received. *)
Theorem scrape_pitcher_charts_returns pitcher_info pitcher_index output_dir w :
  let pitcher_dir := os_path_join output_dir ("pitcher_" +:+ pretty pitcher_index) in
  let started :=
    {| _frame_id := _frame_id w; files := files w;
       trace := (trace w ++ [MadeDirs pitcher_dir])
                ++ [Printed ("   Scraping charts for "
                             +:+ pitcher_name pitcher_info +:+ "...")] |} in
  ∃ r charts w1,
    scrape_pitcher_charts_body heat_map_png driver b64decode requests_get
      exception_str pitcher_info pitcher_index pitcher_dir
      {| heatmaps := []; movement := None; headshot := None |} started
    = (r, charts, w1)
    ∧ scrape_pitcher_charts heat_map_png driver b64decode requests_get exception_str
        pitcher_info pitcher_index output_dir w
      = (Ok charts,
         match r with
         | Ok _ => w1
         | Raise e =>
             {| _frame_id := _frame_id w1; files := files w1;
                trace := trace w1
                         ++ [Printed ("      ⚠ Error scraping charts: "
                                      +:+ exception_str e)] |}
         end)
    ∧ length (heatmaps charts) ≤ 18
    ∧ Forall (λ path, truthy path = true) (heatmaps charts)
    ∧ (∀ path, movement charts = Some path → truthy path = true)
    ∧ (∀ filename,
         headshot charts = Some filename →
         filename = os_path_join pitcher_dir "headshot.png"
         ∧ ∃ response,
             requests_get (headshot_url pitcher_info) = Ok response
             ∧ status_code response = 200
             ∧ files w1 !! path_str (Path filename)
               = Some (Binary (response_content response))).
Proof.
  intros pitcher_dir started.
  destruct (scrape_pitcher_charts_body heat_map_png driver b64decode requests_get
              exception_str pitcher_info pitcher_index pitcher_dir
              {| heatmaps := []; movement := None; headshot := None |} started)
    as [[r charts] w1] eqn:Hbody.
  exists r, charts, w1. split; [done |]. split.
  { unfold scrape_pitcher_charts. cbv zeta. fold pitcher_dir.
    unfold mbind at 1 2, Scraping_bind at 1 2, try_except, py at 1 2.
    unfold print at 1, log at 1 2.
    cbn [trace files _frame_id]. fold started. rewrite Hbody.
    by destruct r as [[]|e]. }
  revert Hbody. unfold scrape_pitcher_charts_body.
  unfold mbind, Scraping_bind, py, print, log.
  destruct (find_charts_in_shadow_dom driver started) as [[heat_maps|e] w0].
  2:{ intros [= <- <- <-]. cbn. repeat split; (done || lia). }
  cbn [trace files _frame_id].
  match goal with
  | |- context [capture_heat_maps _ _ _ ?plan ?c ?w0] =>
      destruct (capture_heat_maps_adds plan c w0) as (r0 & new & w2 & -> & Hlen & Hnew);
      assert (Hplan : length plan ≤ 18) by apply length_heat_map_plan
  end.
  cbn [heatmaps movement headshot app].
  destruct r0 as [[]|e].
  2:{ intros [= <- <- <-]. cbn [heatmaps movement headshot].
      split; [lia |]. split; [done |]. split; done. }
  match goal with
  | |- context [capture_movement _ _ _ ?a ?b ?c ?d ?e] =>
      destruct (capture_movement_adds a b c d e)
        as (r1 & charts1 & w3 & -> & Hheat1 & Hshot1 & Hmove1)
  end.
  cbn [heatmaps movement headshot] in Hheat1, Hshot1, Hmove1.
  assert (Hmove : ∀ path, movement charts1 = Some path → truthy path = true).
  { destruct Hmove1 as [-> | (path & -> & Hpath)]; [done |]. by intros ? [= <-]. }
  destruct r1 as [[]|e].
  2:{ intros [= <- <- <-]. rewrite Hheat1.
      split; [lia |]. split; [done |]. split; [done |]. by rewrite Hshot1. }
  match goal with
  | |- context [capture_headshot _ _ ?a ?b ?c ?d] =>
      destruct (capture_headshot_returns a b c d)
        as (charts2 & w4 & -> & Hheat2 & Hmove2 & Hshot2)
  end.
  intros [= <- <- <-]. rewrite Hheat2, Hheat1, Hmove2.
  split; [lia |]. split; [done |]. split; [done |]. intros filename Hfile.
  destruct Hshot2 as [Hsame | (response & Hget & Hstatus & Hshot & Hfiles)].
  - congruence.
  - rewrite Hshot in Hfile. injection Hfile as <-. eauto.
Qed.

(** X20.  When the capture of a pitcher's first heat map raises, the error
    is reported and the function returns at once with an empty dict: the
    movement chart is not captured and the headshot is not downloaded, though
    both might have succeeded. *)
Theorem failed_heat_map_skips_the_rest
  pitcher_info pitcher_index output_dir w heat_maps w1 e w2 :
  let pitcher_dir := os_path_join output_dir ("pitcher_" +:+ pretty pitcher_index) in
  find_charts_in_shadow_dom driver
    {| _frame_id := _frame_id w; files := files w;
       trace := (trace w ++ [MadeDirs pitcher_dir])
                ++ [Printed ("   Scraping charts for "
                             +:+ pitcher_name pitcher_info +:+ "...")] |}
  = (Ok heat_maps, w1) →
  pitcher_index * 18 < occurrences "tmn-heat-map-baseball" heat_maps →
  capture_chart_by_tag heat_map_png driver b64decode "tmn-heat-map-baseball"
    (pitcher_index * 18 + 0)
    (os_path_join pitcher_dir ("heatmap_" +:+ pretty 0 +:+ ".png"))
    {| _frame_id := _frame_id w1; files := files w1;
       trace := trace w1
                ++ [Printed ("      Found "
                             +:+ pretty (occurrences "tmn-heat-map-baseball" heat_maps)
                             +:+ " heat map(s)")] |}
  = (Raise e, w2) →
  scrape_pitcher_charts heat_map_png driver b64decode requests_get exception_str
    pitcher_info pitcher_index output_dir w
  = (Ok {| heatmaps := []; movement := None; headshot := None |},
     {| _frame_id := _frame_id w2; files := files w2;
        trace := trace w2
                 ++ [Printed ("      ⚠ Error scraping charts: " +:+ exception_str e)] |}).
Proof.
  intros pitcher_dir Hfound Hlocated Hraise.
  unfold scrape_pitcher_charts, scrape_pitcher_charts_body. fold pitcher_dir.
  cbv zeta. unfold mbind, Scraping_bind, try_except, py, print, log.
  cbn [trace files _frame_id]. rewrite Hfound. cbn [trace files _frame_id].
  unfold heat_map_plan. cbv zeta. fold (occurrences "tmn-heat-map-baseball" heat_maps).
  destruct (Nat.min 18 (occurrences "tmn-heat-map-baseball" heat_maps - pitcher_index * 18))
    as [|n] eqn:Hmin; [lia |].
  cbn [seq List.map capture_heat_maps].
  unfold mbind, Scraping_bind, py. by rewrite Hraise.
Qed.

End ScoutingFacts.

Lemma failed_heat_map_skips_the_rest_witness :
  scrape_pitcher_charts true sample_driver (λ _, None)
    (λ _, Ok {| status_code := 200; response_content := [] |}) (λ _, "Incorrect padding")
    {| pitcher_name := "Smelcer"; headshot_url := "https://example.test/head.png" |}
    0 "scouting_charts" new_world
  = (Ok {| heatmaps := []; movement := None; headshot := None |},
     {| _frame_id := None; files := ∅;
        trace := [MadeDirs "scouting_charts/pitcher_0";
                  Printed "   Scraping charts for Smelcer...";
                  Printed "      Found 2 heat map(s)";
                  Printed "      ⚠ Error scraping charts: Incorrect padding"] |}).
Proof.
  apply (failed_heat_map_skips_the_rest true sample_driver (λ _, None)
           (λ _, Ok {| status_code := 200; response_content := [] |})
           (λ _, "Incorrect padding")
           {| pitcher_name := "Smelcer"; headshot_url := "https://example.test/head.png" |}
           0 "scouting_charts" new_world
           ["tmn-heat-map-baseball"; "tmn-pitch-break-chart-baseball";
            "tmn-heat-map-baseball"]
           {| _frame_id := None; files := ∅;
              trace := [MadeDirs "scouting_charts/pitcher_0";
                        Printed "   Scraping charts for Smelcer..."] |}
           BinasciiError
           {| _frame_id := None; files := ∅;
              trace := [MadeDirs "scouting_charts/pitcher_0";
                        Printed "   Scraping charts for Smelcer...";
                        Printed "      Found 2 heat map(s)"] |}).
  - by vm_compute.
  - vm_compute. lia.
  - by vm_compute.
Defined.

(** ** The keys of the pitching report's chart map *)

Lemma contains_app c s t : contains c (s +:+ t) = contains c s || contains c t.
Proof.
  induction s as [|a s IH]; [done |].
  change (contains c (String a (s +:+ t))
          = contains c (String a s) || contains c t).
  cbn [contains]. by rewrite IH, orb_assoc.
Qed.

Lemma str_app_nil_r s : s +:+ "" = s.
Proof.
  induction s as [|a s IH]; [done |].
  change (String a (s +:+ "") = String a s). by rewrite IH.
Qed.

Lemma str_take_app s t : str_take (String.length s) (s +:+ t) = s.
Proof.
  induction s as [|a s IH]; [by destruct t |].
  change (String a (str_take (String.length s) (s +:+ t)) = String a s).
  by rewrite IH.
Qed.

Lemma pretty_N_go_digits c x s :
  is_digit c = false → contains c s = false → contains c (pretty_N_go x s) = false.
Proof.
  intros Hc. revert s. induction (N.lt_wf_0 x) as [x _ IH]; intros s Hs.
  assert (x = 0 ∨ 0 < x)%N as [-> | Hx] by lia.
  - by rewrite pretty_N_go_0.
  - rewrite pretty_N_go_step by done. apply IH.
    { by apply N.div_lt. }
    cbn [contains]. rewrite Hs, orb_false_r.
    apply Ascii.eqb_neq. intros Heq. subst c.
    unfold pretty_N_char in Hc. by repeat case_match.
Qed.

Lemma pretty_nat_digits c (n : nat) :
  is_digit c = false → contains c (pretty n) = false.
Proof.
  intros Hc. unfold pretty, pretty_nat, pretty, pretty_N.
  destruct (decide (N.of_nat n = 0%N)).
  - cbn [contains]. rewrite orb_false_r. apply Ascii.eqb_neq. by intros <-.
  - by apply pretty_N_go_digits.
Qed.

Lemma file_stem_plain tag idx several :
  In tag CHART_TYPES → plain (file_stem tag idx several).
Proof.
  intros Htag. unfold file_stem, plain.
  assert (Hname : plain (chart_type_name tag)
                  ∧ ∃ c name, chart_type_name tag = String c name).
  { revert Htag. unfold CHART_TYPES, plain. cbn [In].
    intros [<- | [<- | [<- | [<- | [<- | [<- | [<- | []]]]]]]];
      (split; [by vm_compute | eexists _, _; by vm_compute]). }
  destruct Hname as [(Ht & Hs & Hd) (c & name & Hshape)].
  split; [by rewrite Hshape |]. rewrite !contains_app, Hs, Hd.
  destruct several; [| done]. rewrite !contains_app, !pretty_nat_digits by done. done.
Qed.

Lemma rev_app_rev_app s t u :
  String.rev_app (String.rev_app s t) u = String.rev_app t (s +:+ u).
Proof.
  revert t u. induction s as [|c s IH]; intros t u; [done |].
  cbn [String.rev_app]. rewrite IH. done.
Qed.

Lemma rev_involutive s : String.rev (String.rev s) = s.
Proof. unfold String.rev. rewrite rev_app_rev_app. apply str_app_nil_r. Qed.

Lemma rev_cons c s : String.rev (String c s) = String.rev s +:+ String c "".
Proof. unfold String.rev. cbn [String.rev_app]. apply rev_app_acc. Qed.

Lemma endswith_slash a : endswith a "/" = true → ∃ a', a = a' +:+ "/".
Proof.
  unfold endswith. change (String.rev "/") with "/".
  destruct (String.rev a) as [|c x] eqn:Hrev; [done |]. cbn [String.prefix].
  destruct (ascii_dec "/" c) as [<- |]; [| done]. intros _.
  exists (String.rev x). by rewrite <- rev_cons, <- Hrev, rev_involutive.
Qed.

Lemma os_path_join_cases a f :
  startswith f "/" = false →
  os_path_join a f = f ∨ ∃ a', os_path_join a f = a' +:+ String "/" f.
Proof.
  unfold os_path_join. intros ->. destruct (truthy a) eqn:Ha; cbn [negb orb].
  - destruct (endswith a "/") eqn:Hend.
    + apply endswith_slash in Hend as [a' ->]. right. exists a'.
      by rewrite str_app_assoc.
    + right. by exists a.
  - left. unfold truthy in Ha. apply negb_false_iff, String.eqb_eq in Ha. by subst.
Qed.

Lemma not_startswith_slash f : contains "/" f = false → startswith f "/" = false.
Proof.
  destruct f as [|c f]; [done |]. cbn [contains]. intros [Hc _]%orb_false_elim.
  unfold startswith. cbn [String.prefix].
  destruct (ascii_dec "/" c) as [<- |]; [done | done].
Qed.

Lemma basename_slash a f :
  contains "/" f = false → os_path_basename (a +:+ String "/" f) = f.
Proof.
  intros Hf. unfold os_path_basename. rewrite rfind_last by done.
  change (String "/" f) with ("/" +:+ f). rewrite <- str_app_assoc.
  replace (S (String.length a)) with (String.length (a +:+ "/"))
    by (rewrite length_app_str; cbn; lia).
  apply str_drop_app.
Qed.

Lemma basename_plain f : contains "/" f = false → os_path_basename f = f.
Proof. intros Hf. unfold os_path_basename. by rewrite rfind_absent. Qed.

Lemma basename_join a f :
  contains "/" f = false → os_path_basename (os_path_join a f) = f.
Proof.
  intros Hf.
  destruct (os_path_join_cases a f (not_startswith_slash f Hf)) as [-> | [a' ->]].
  - by apply basename_plain.
  - by apply basename_slash.
Qed.

Lemma all_dots_plain s : plain s → all_dots s = false.
Proof.
  intros (Ht & _ & Hd). destruct s as [|c s]; [done |].
  cbn [contains all_dots] in *. apply orb_false_elim in Hd as [-> _]. done.
Qed.

Lemma splitext_stem stem ext :
  plain stem → contains "." ext = false → contains "/" ext = false →
  os_path_splitext (stem +:+ String "." ext) = (stem, String "." ext).
Proof.
  intros Hstem Hd Hs. assert (Hdots := all_dots_plain stem Hstem).
  destruct Hstem as (Ht & Hs' & Hd'). unfold os_path_splitext.
  rewrite rfind_last by done. rewrite rfind_absent.
  2:{ rewrite contains_app. cbn [contains]. by rewrite Hs', Hs. }
  cbn [Nat.leb andb str_drop]. rewrite Nat.sub_0_r, str_take_app, Hdots.
  cbn [negb]. f_equal. change (String "." ext) with ("." +:+ ext).
  rewrite <- (str_drop_app stem ("." +:+ ext)) at 2. done.
Qed.

(** The key of a file named [stem.ext] in whatever directory. *)
Lemma chart_key_slash a stem ext :
  plain stem → contains "." ext = false → contains "/" ext = false →
  fst (os_path_splitext (os_path_basename (a +:+ String "/" (stem +:+ String "." ext))))
  = stem.
Proof.
  intros Hstem Hd Hs. rewrite basename_slash, splitext_stem; try done.
  destruct Hstem as (_ & Hs' & _). rewrite contains_app. cbn [contains].
  by rewrite Hs', Hs.
Qed.

Lemma chart_key_plain stem ext :
  plain stem → contains "." ext = false → contains "/" ext = false →
  fst (os_path_splitext (os_path_basename (stem +:+ String "." ext))) = stem.
Proof.
  intros Hstem Hd Hs. rewrite basename_plain, splitext_stem; try done.
  destruct Hstem as (_ & Hs' & _). rewrite contains_app. cbn [contains].
  by rewrite Hs', Hs.
Qed.

Lemma split_go_plain sep cur f :
  contains sep f = false → split_go sep cur f = [String.rev cur +:+ f].
Proof.
  revert cur. induction f as [|c f IH]; intros cur; cbn [contains split_go].
  - intros _. by rewrite str_app_nil_r.
  - intros [Hc Hf]%orb_false_elim. rewrite Hc, IH by done.
    by rewrite rev_cons, str_app_assoc.
Qed.

Lemma split_go_app sep cur s t :
  split_go sep cur (s +:+ String sep t) = split_go sep cur s ++ split_go sep "" t.
Proof.
  revert cur. induction s as [|c s IH]; intros cur.
  - change ("" +:+ String sep t) with (String sep t). cbn [split_go].
    by rewrite Ascii.eqb_refl.
  - change (String c s +:+ String sep t) with (String c (s +:+ String sep t)).
    cbn [split_go]. destruct (Ascii.eqb c sep); by rewrite IH.
Qed.

Lemma join_snoc sep init n :
  init ≠ [] → join sep (init ++ [n]) = join sep init +:+ sep +:+ n.
Proof.
  induction init as [|x [|y init] IH]; [done | done |]. intros _.
  change (join sep ((x :: y :: init) ++ [n]))
    with (x +:+ sep +:+ join sep ((y :: init) ++ [n])).
  rewrite IH by done.
  change (join sep (x :: y :: init)) with (x +:+ sep +:+ join sep (y :: init)).
  by rewrite !str_app_assoc.
Qed.

(** The parts of a path that ends in the component [f]. *)
Lemma Path_parts_join a f :
  contains "/" f = false → is_component f = true →
  ∃ init, parts (Path (os_path_join a f)) = init ++ [f].
Proof.
  intros Hf Hc. unfold Path, split. cbn [parts].
  destruct (os_path_join_cases a f (not_startswith_slash f Hf)) as [-> | [a' ->]].
  - exists []. rewrite split_go_plain by done. cbn [List.filter app].
    change (String.rev "" +:+ f) with f. by rewrite Hc.
  - rewrite split_go_app, List.filter_app, (split_go_plain "/" "" f) by done.
    cbn [List.filter]. change (String.rev "" +:+ f) with f. rewrite Hc.
    by eexists.
Qed.

Lemma Path_root_cases p : root (Path p) = "" ∨ root (Path p) = "/" ∨ root (Path p) = "//".
Proof.
  unfold Path. cbn [root]. destruct (startswith p "/"); [| by left].
  destruct (_ && _); auto.
Qed.

Lemma path_str_parts p :
  parts p ≠ [] → path_str p = root p +:+ join "/" (parts p).
Proof. unfold path_str. by destruct (root p), (parts p). Qed.

Lemma basename_path_str r init n :
  r = "" ∨ r = "/" ∨ r = "//" → contains "/" n = false →
  os_path_basename (path_str {| root := r; parts := init ++ [n] |}) = n.
Proof.
  intros Hr Hn. rewrite path_str_parts by (cbn [parts]; by destruct init).
  cbn [root parts]. destruct init as [|x init].
  - cbn [app join]. destruct Hr as [-> | [-> | ->]].
    + by apply basename_plain.
    + by apply (basename_slash "" n).
    + by apply (basename_slash "/" n).
  - rewrite join_snoc by done. change ("/" +:+ n) with (String "/" n).
    rewrite <- str_app_assoc. by apply basename_slash.
Qed.

(** What [with_suffix] makes of a path whose last component is
    [stem.svg]. *)
Lemma with_suffix_stem a stem ext final :
  plain stem → image_extension ext →
  with_suffix (Path (os_path_join a (stem +:+ ".svg"))) ("." +:+ ext) = Ok final →
  os_path_basename (path_str final) = stem +:+ String "." ext.
Proof.
  intros Hstem Hext. assert (Hplain := Hstem). destruct Hplain as (Ht & Hs & Hd).
  assert (Hf : contains "/" (stem +:+ ".svg") = false).
  { rewrite contains_app, Hs. done. }
  assert (Hc : is_component (stem +:+ ".svg") = true).
  { unfold is_component. destruct stem as [|c stem]; [done |].
    cbn [contains] in Hd. apply orb_false_elim in Hd as [Hc _].
    apply Ascii.eqb_neq in Hc. unfold truthy.
    change (String c stem +:+ ".svg") with (String c (stem +:+ ".svg")).
    cbn [String.eqb]. destruct (Ascii.eqb_spec c "."); [done |]. done. }
  destruct (Path_parts_join a _ Hf Hc) as [init Hparts].
  assert (Hprops : contains "." ext = false ∧ contains "/" ext = false
                   ∧ contains "/" ("." +:+ ext) = false
                   ∧ ((truthy ("." +:+ ext) && negb (startswith ("." +:+ ext) "."))
                      || String.eqb ("." +:+ ext) ".") = false).
  { destruct Hext as [-> | [-> | [-> | ->]]]; by vm_compute. }
  destruct Hprops as (Hed & Hes & Hs1 & Hv).
  unfold with_suffix. rewrite Hs1, Hv. unfold path_suffix, path_name.
  rewrite Hparts, last_last, removelast_last.
  assert (Htruthy : truthy (stem +:+ ".svg") = true).
  { apply truthy_length. rewrite length_app_str. cbn. lia. }
  rewrite Htruthy. cbn [negb].
  change (stem +:+ ".svg") with (stem +:+ "." +:+ "svg").
  rewrite name_suffix_app by done. cbn [truthy String.eqb negb].
  change ("." +:+ "svg") with ".svg".
  replace (String.length (stem +:+ ".svg") - String.length ".svg")
    with (String.length stem) by (rewrite length_app_str; cbn; lia).
  rewrite str_take_app. intros [= <-].
  rewrite basename_path_str.
  - done.
  - apply Path_root_cases.
  - change ("." +:+ ext) with (String "." ext).
    rewrite contains_app, Hs. cbn [contains]. by rewrite Hes.
Qed.

(** What [capture_chart_by_tag] returns is the path it was given, or that
    path with the extension of an image. *)
Lemma capture_returns_path heat_map_png driver b64decode tag index path w saved w' :
  capture_chart_by_tag heat_map_png driver b64decode tag index path w
  = (Ok (Some saved), w') →
  saved = path
  ∨ ∃ ext final, image_extension ext
                 ∧ with_suffix (Path path) ("." +:+ ext) = Ok final
                 ∧ saved = path_str final.
Proof.
  unfold capture_chart_by_tag, execute_script.
  destruct (capture_script _ _ _ _) as [[svg | data mime | href | reason]|e];
    py_unfold; cbv beta iota; try done.
  - destruct (truthy svg); cbv beta iota; [| done]. intros [= <- <-]. by left.
  - destruct (truthy data); cbv beta iota; [| done]. unfold _write_data_url.
    destruct (startswith data "data:"); cbn [negb]; py_unfold; cbv beta iota; [| done].
    unfold b64decode_or_raise. py_unfold.
    destruct (b64decode _) as [binary|]; cbv beta iota; [| done].
    destruct (with_suffix _ _) as [final|e] eqn:Hfinal; cbv beta iota; [| done].
    intros [= <- <-]. right. exists (_mime_to_ext mime), final.
    split; [apply mime_to_ext_image | done].
  - destruct (truthy href); cbv beta iota; [| done]. unfold _download_resource, b64decode_or_raise.
    py_unfold.
    destruct (cached_or_fetched_frame_id driver w) as [[fid|e] w1]; cbv beta iota; [| done].
    destruct (Page_getResourceContent driver fid href) as [content|e]; cbv beta iota; [| done].
    destruct (resource_content content) as [data|]; cbv beta iota; [| done].
    unfold b64decode_or_raise. py_unfold.
    destruct (base64Encoded content).
    + destruct (b64decode data) as [binary|]; cbv beta iota; [| done].
      destruct (with_suffix _ _) as [final|e] eqn:Hfinal; cbv beta iota; [| done].
      intros [= <- <-]. right. exists (_detect_image binary href), final.
      split; [apply detect_image_cases | done].
    + destruct (with_suffix _ _) as [final|e] eqn:Hfinal; cbv beta iota; [| done].
      intros [= <- <-]. right. exists (_detect_image (str_encode data) href), final.
      split; [apply detect_image_cases | done].
Qed.

(** Every path [capture_each] adds comes from a request of the plan. *)
Lemma capture_each_sources heat_map_png driver b64decode plan captured result w w' :
  capture_each heat_map_png driver b64decode plan captured w = (Ok result, w') →
  ∀ saved, In saved result →
    In saved captured
    ∨ ∃ tag idx filepath,
        In (tag, idx, filepath) plan
        ∧ (saved = filepath
           ∨ ∃ ext final, image_extension ext
                          ∧ with_suffix (Path filepath) ("." +:+ ext) = Ok final
                          ∧ saved = path_str final).
Proof.
  revert captured w. induction plan as [|[[tag idx] filepath] plan IH];
    intros captured w.
  { cbn. intros [= <- <-] saved Hin. by left. }
  cbn [capture_each]. unfold mbind at 1, Py_bind at 1.
  destruct (capture_chart_by_tag _ _ _ _ _ _ w) as [[[path|]|e] w1] eqn:Hcapture;
    [| | done].
  - assert (Hnext : ∀ saved,
      (In saved captured ∨ saved = path
       ∨ ∃ tag0 idx0 filepath0, In (tag0, idx0, filepath0) plan
           ∧ (saved = filepath0
              ∨ ∃ ext final, image_extension ext
                   ∧ with_suffix (Path filepath0) ("." +:+ ext) = Ok final
                   ∧ saved = path_str final)) →
      In saved captured
      ∨ ∃ tag0 idx0 filepath0, In (tag0, idx0, filepath0) ((tag, idx, filepath) :: plan)
          ∧ (saved = filepath0
             ∨ ∃ ext final, image_extension ext
                  ∧ with_suffix (Path filepath0) ("." +:+ ext) = Ok final
                  ∧ saved = path_str final)).
    { intros saved [Hin | [-> | (tag0 & idx0 & filepath0 & Hin & Hsaved)]].
      - by left.
      - right. exists tag, idx, filepath. split; [by left |].
        apply (capture_returns_path _ _ _ _ _ _ _ _ _ Hcapture).
      - right. exists tag0, idx0, filepath0. split; [by right | done]. }
    destruct (truthy path) eqn:Hpath.
    + py_unfold. intros Hrun saved Hin. apply Hnext.
      destruct (IH _ _ Hrun saved Hin) as [[Hc | [<- | []]]%in_app_or | Hplan];
        auto.
    + intros Hrun saved Hin. apply Hnext.
      destruct (IH _ _ Hrun saved Hin) as [Hc | Hplan]; auto.
  - intros Hrun saved Hin.
    destruct (IH _ _ Hrun saved Hin)
      as [Hc | (tag0 & idx0 & filepath0 & Hplan & Hsaved)]; [by left |].
    right. exists tag0, idx0, filepath0. split; [by right | done].
Qed.

(** A request of the plan, by its file stem. *)
Lemma capture_plan_stem charts output_dir tag idx filepath :
  (∀ tag, In tag charts → In tag CHART_TYPES) →
  In (tag, idx, filepath) (capture_plan (count_charts charts) output_dir) →
  In tag CHART_TYPES
  ∧ In (tag, idx) (descriptors charts)
  ∧ filepath
    = os_path_join output_dir
        (file_stem tag idx (1 <? occurrences tag charts) +:+ ".svg").
Proof.
  intros Htags Hplan. assert (Hin := Hplan).
  apply capture_plan_in in Hplan as (count & Hentry & Hidx & ->).
  destruct (count_from_invariant [] [] charts) as [Hnodup Hget];
    [constructor | done |]. cbn [app] in Hget.
  apply count_charts_entries in Hentry as [Htag Hcount].
  unfold count_charts in Hcount. rewrite (Hget tag) in Hcount. subst count.
  assert (Hrecognized : In tag CHART_TYPES) by auto.
  split; [done |]. split.
  - apply (Permutation_in _ (expand_count_from [] [] charts (λ _, eq_refl))).
    fold (count_charts charts).
    rewrite <- (capture_plan_instances (count_charts charts) output_dir).
    apply in_map_iff. by eexists (_, _, _).
  - f_equal. unfold chart_filename, file_stem. rewrite chart_name_strips by done.
    destruct (1 <? occurrences tag charts); by rewrite !str_app_assoc.
Qed.

(** The key of what a capture returned for a file named [stem.svg]. *)
Lemma saved_chart_key a stem saved :
  plain stem →
  (saved = os_path_join a (stem +:+ ".svg")
   ∨ ∃ ext final, image_extension ext
                  ∧ with_suffix (Path (os_path_join a (stem +:+ ".svg"))) ("." +:+ ext)
                    = Ok final
                  ∧ saved = path_str final) →
  fst (os_path_splitext (os_path_basename saved)) = stem.
Proof.
  intros Hstem [-> | (ext & final & Hext & Hfinal & ->)].
  - assert (Hf : contains "/" (stem +:+ ".svg") = false).
    { destruct Hstem as (_ & Hs & _). by rewrite contains_app, Hs. }
    rewrite basename_join by done.
    by rewrite (splitext_stem stem "svg").
  - rewrite (with_suffix_stem _ _ _ _ Hstem Hext Hfinal).
    rewrite splitext_stem; [done | done | |];
      destruct Hext as [-> | [-> | [-> | ->]]]; done.
Qed.

Lemma find_charts_stable driver :
  ∃ charts, ∀ w1, find_charts_in_shadow_dom driver w1 = (Ok charts, w1).
Proof.
  unfold find_charts_in_shadow_dom, execute_script, find_charts_script.
  destruct (querySelector _ _) as [app|]; [| by eexists].
  destruct (shadowRoot app) as [sr|]; [| by eexists].
  rewrite findCharts_traversal by lia. by eexists.
Qed.

(** X21.  The pitching report files each captured chart under the name of
    its file without directory and extension.  For every path
    [scrape_current_page] returns, that key is the file stem of an instance
    the Locator reported: the chart type, followed by an underscore and the
    index exactly when the page holds several charts of the type, whether
    the chart was saved as markup or as an image with another extension. *)
Theorem chart_keys_are_file_stems heat_map_png driver b64decode output_dir w :
  ∃ charts,
    find_charts_in_shadow_dom driver w = (Ok charts, w)
    ∧ ∀ captured w',
        scrape_current_page heat_map_png driver b64decode output_dir w
        = (Ok captured, w') →
        ∀ key path,
          In (key, path) (scraped_charts captured) →
          ∃ tag idx,
            In (tag, idx) (descriptors charts)
            ∧ key = file_stem tag idx (1 <? occurrences tag charts).
Proof.
  destruct (find_charts_stable driver) as [charts Hfound].
  exists charts. split; [done |].
  assert (Htags := find_charts_recognized _ _ _ _ (Hfound w)).
  intros captured w'. unfold scrape_current_page.
  py_unfold. rewrite Hfound. cbn [trace files _frame_id].
  destruct charts as [|tag0 charts0] eqn:Hcharts.
  { intros [= <- _] key path []. }
  rewrite <- Hcharts in *. clear Hcharts tag0 charts0.
  intros Hrun key path (saved & [= <- <-] & Hin)%in_map_iff.
  destruct (capture_each_sources _ _ _ _ _ _ _ _ Hrun saved Hin)
    as [[] | (tag & idx & filepath & Hplan & Hsaved)].
  destruct (capture_plan_stem _ _ _ _ _ Htags Hplan) as (Htag & Hdesc & ->).
  exists tag, idx. split; [done |].
  apply (saved_chart_key output_dir); [by apply file_stem_plain | done].
Qed.

Lemma sublist_map {A B : Type} (f : A → B) l1 l2 :
  sublist l1 l2 → sublist (List.map f l1) (List.map f l2).
Proof. induction 1; cbn [List.map]; by constructor. Qed.

Lemma sublist_In {A : Type} (l1 l2 : list A) x : sublist l1 l2 → In x l1 → In x l2.
Proof.
  induction 1 as [|y l1 l2 _ IH|y l1 l2 _ IH]; [done | |].
  - intros [-> | Hin]; [by left | right; auto].
  - intros Hin. right. auto.
Qed.

(** The paths [capture_each] adds, each with the request it answers; the
    requests are taken from the plan in order, none twice. *)
Lemma capture_each_taken heat_map_png driver b64decode plan captured result w w' :
  capture_each heat_map_png driver b64decode plan captured w = (Ok result, w') →
  ∃ taken : list (string * nat * string * string),
    sublist (List.map fst taken) plan
    ∧ result = captured ++ List.map snd taken
    ∧ Forall
        (λ '(_, _, filepath, saved),
           saved = filepath
           ∨ ∃ ext final, image_extension ext
                          ∧ with_suffix (Path filepath) ("." +:+ ext) = Ok final
                          ∧ saved = path_str final)
        taken.
Proof.
  revert captured w. induction plan as [|[[tag idx] filepath] plan IH];
    intros captured w.
  { cbn. intros [= <- <-]. exists []. split; [constructor |].
    split; [by rewrite app_nil_r | constructor]. }
  cbn [capture_each]. unfold mbind at 1, Py_bind at 1.
  destruct (capture_chart_by_tag _ _ _ _ _ _ w) as [[[path|]|e] w1] eqn:Hcapture;
    [| | done].
  - destruct (truthy path) eqn:Hpath.
    + py_unfold. intros (taken & Hsub & -> & Hall)%IH.
      exists ((tag, idx, filepath, path) :: taken). cbn [List.map fst snd].
      split; [by constructor |]. split; [by rewrite <- app_assoc |].
      constructor; [| done].
      apply (capture_returns_path _ _ _ _ _ _ _ _ _ Hcapture).
    + intros (taken & Hsub & -> & Hall)%IH. exists taken.
      split; [by constructor | done].
  - intros (taken & Hsub & -> & Hall)%IH. exists taken.
    split; [by constructor | done].
Qed.

(** X22.  No two of the paths [scrape_current_page] returns get the same key
    in the pitching report: in the report's chart map no captured chart
    takes the place of another. *)
Theorem chart_keys_distinct heat_map_png driver b64decode output_dir w captured w' :
  scrape_current_page heat_map_png driver b64decode output_dir w = (Ok captured, w') →
  List.NoDup (List.map fst (scraped_charts captured)).
Proof.
  destruct (find_charts_stable driver) as [charts Hfound].
  assert (Htags := find_charts_recognized _ _ _ _ (Hfound w)).
  unfold scrape_current_page. py_unfold. rewrite Hfound. cbn [trace files _frame_id].
  destruct charts as [|tag0 charts0] eqn:Hcharts.
  { intros [= <- _]. constructor. }
  rewrite <- Hcharts in *. clear Hcharts tag0 charts0.
  intros (taken & Hsub & -> & Hall)%capture_each_taken. cbn [app].
  set (plan := capture_plan (count_charts charts) output_dir) in *.
  set (stem_of := λ request : string * nat * string,
         file_stem request.1.1 request.1.2 (1 <? occurrences request.1.1 charts)).
  assert (Hkeys : List.map fst (scraped_charts (List.map snd taken))
                  = List.map stem_of (List.map fst taken)).
  { unfold scraped_charts. rewrite !List.map_map. cbn [fst].
    apply map_ext_in. intros [[[tag idx] filepath] saved] Hin. cbn [fst snd].
    rewrite List.Forall_forall in Hall. specialize (Hall _ Hin). cbn beta iota in Hall.
    assert (Hplan : In (tag, idx, filepath) plan).
    { apply (sublist_In _ _ _ Hsub), in_map_iff. by eexists (_, _, _, _). }
    destruct (capture_plan_stem _ _ _ _ _ Htags Hplan) as (Htag & _ & ->).
    apply (saved_chart_key output_dir); [by apply file_stem_plain | done]. }
  rewrite Hkeys. apply NoDup_ListNoDup.
  apply (sublist_NoDup _ (List.map stem_of plan)); [| by apply sublist_map].
  apply NoDup_ListNoDup.
  apply NoDup_map_NoDup_ForallPairs; [| apply capture_plan_NoDup].
  intros [[tag idx] filepath] [[tag' idx'] filepath'] Hin Hin' Hstem.
  destruct (capture_plan_stem _ _ _ _ _ Htags Hin) as (_ & _ & Hpath).
  destruct (capture_plan_stem _ _ _ _ _ Htags Hin') as (_ & _ & Hpath').
  unfold stem_of in Hstem. cbn [fst snd] in Hstem.
  rewrite Hstem, <- Hpath' in Hpath. subst filepath'.
  by destruct (capture_plan_path_inj _ _ _ _ _ _ _ Htags Hin Hin') as [<- <-].
Qed.

Lemma chart_keys_distinct_witness :
  List.NoDup
    (List.map fst
       (scraped_charts
          ["charts/heat-map_0.png"; "charts/heat-map_1.png";
           "charts/pitch-break-chart.svg"])).
Proof.
  apply (chart_keys_distinct true sample_driver sample_b64decode "charts" new_world _
           {| _frame_id := None;
              files := (scrape_current_page true sample_driver sample_b64decode
                          "charts" new_world).2.(files);
              trace := (scrape_current_page true sample_driver sample_b64decode
                          "charts" new_world).2.(trace) |}).
  by vm_compute.
Defined.

(** ** The files of a scraped page *)










(** The sample page scraped without the preference for images: every chart
    is answered with the markup of its [svg], and each of the three
    instances gets its file. *)
Example sample_scrape_markup :
  let markup := λ (_ : string) (_ : nat), outerHTML sample_svg in
  (∀ tag idx,
     In (tag, idx)
       (descriptors ["tmn-heat-map-baseball"; "tmn-pitch-break-chart-baseball";
                     "tmn-heat-map-baseball"]) →
     capture_script (browser sample_driver) tag idx
       (false && String.eqb tag "tmn-heat-map-baseball")
     = JsOk (KindSvg (markup tag idx))
     ∧ truthy (markup tag idx) = true)
  ∧ fst (scrape_current_page false sample_driver sample_b64decode "charts" new_world)
    = Ok ["charts/heat-map_0.svg"; "charts/heat-map_1.svg";
          "charts/pitch-break-chart.svg"]
  ∧ files (scrape_current_page false sample_driver sample_b64decode "charts"
             new_world).2 !! "charts/heat-map_1.svg"
    = Some (Text (outerHTML sample_svg)).
Proof.
  cbv zeta. split; [| split; by vm_compute].
  intros tag idx Hin. vm_compute in Hin.
  destruct Hin as [[= <- <-] | [[= <- <-] | [[= <- <-] | []]]]; by vm_compute.
Qed.

(** With the preference, the heat maps of the sample page are saved as
    images: the same stems, another extension. *)
Example sample_scrape_images :
  fst (scrape_current_page true sample_driver sample_b64decode "charts" new_world)
  = Ok ["charts/heat-map_0.png"; "charts/heat-map_1.png";
        "charts/pitch-break-chart.svg"].
Proof. by vm_compute. Qed.

(** ** Floats that are not NaN *)

Lemma shr_1_nonneg mrs : (0 <= shr_m mrs)%Z → (0 <= shr_m (shr_1 mrs))%Z.
Proof.
  destruct mrs as [m r s]. cbn [shr_m]. intros Hm.
  destruct m as [|[p|p|]|p]; cbn; lia.
Qed.

Lemma iter_shr_1_nonneg p : ∀ mrs,
  (0 <= shr_m mrs)%Z → (0 <= shr_m (SpecFloat.iter_pos shr_1 p mrs))%Z.
Proof.
  induction p as [p IH|p IH|]; intros mrs Hm; cbn [SpecFloat.iter_pos].
  - apply IH, IH. by apply shr_1_nonneg.
  - by apply IH, IH.
  - by apply shr_1_nonneg.
Qed.

Lemma shr_fexp_nonneg m e l :
  (0 <= m)%Z → (0 <= shr_m (shr_fexp prec emax m e l).1)%Z.
Proof.
  intros Hm. unfold shr_fexp, shr.
  assert (Hrec : (0 <= shr_m (shr_record_of_loc m l))%Z).
  { by destruct l as [|[]]. }
  destruct (_ - e)%Z as [|p|p]; cbn [fst]; [done | | done].
  by apply iter_shr_1_nonneg.
Qed.

Lemma round_nearest_even_nonneg m l : (0 <= m)%Z → (0 <= round_nearest_even m l)%Z.
Proof.
  intros Hm. destruct l as [|[]]; cbn [round_nearest_even]; try lia.
  destruct (Z.even m); lia.
Qed.

Lemma binary_round_aux_not_nan sx mx ex lx :
  (0 <= mx)%Z → binary_round_aux prec emax sx mx ex lx ≠ S754_nan.
Proof.
  intros Hm. unfold binary_round_aux.
  assert (H1 := shr_fexp_nonneg mx ex lx Hm).
  destruct (shr_fexp prec emax mx ex lx) as [mrs' e']. cbn [fst] in H1.
  assert (H2 := shr_fexp_nonneg
                  (round_nearest_even (shr_m mrs') (loc_of_shr_record mrs')) e'
                  loc_Exact (round_nearest_even_nonneg _ _ H1)).
  destruct (shr_fexp prec emax _ e' loc_Exact) as [mrs'' e'']. cbn [fst] in H2.
  destruct (shr_m mrs'') as [|m|m]; [done | | lia].
  by destruct (_ <=? _)%Z.
Qed.

Lemma binary_round_not_nan sx mx ex : binary_round prec emax sx mx ex ≠ S754_nan.
Proof.
  unfold binary_round. destruct (shl_align _ _ _) as [mz ez].
  by apply binary_round_aux_not_nan.
Qed.

Lemma binary_normalize_not_nan m e szero :
  binary_normalize prec emax m e szero ≠ S754_nan.
Proof. destruct m; [done | apply binary_round_not_nan ..]. Qed.

Lemma SFldexp_not_nan f e : f ≠ S754_nan → SFldexp prec emax f e ≠ S754_nan.
Proof. destruct f; try done. intros _. apply binary_round_not_nan. Qed.

Lemma SFopp_not_nan f : f ≠ S754_nan → SFopp f ≠ S754_nan.
Proof. by destruct f. Qed.

(** [is_nan] tells exactly the NaN of the specification. *)
Lemma is_nan_Prim2SF x : PrimFloat.is_nan x = true ↔ Prim2SF x = S754_nan.
Proof.
  split.
  - intros Hnan. unfold Prim2SF. by rewrite Hnan.
  - intros Hx. rewrite <- (SF2Prim_Prim2SF x), Hx. reflexivity.
Qed.

Lemma not_nan_Prim2SF x : Prim2SF x ≠ S754_nan → PrimFloat.is_nan x = false.
Proof.
  intros Hx. destruct (PrimFloat.is_nan x) eqn:Hnan; [| done].
  by apply is_nan_Prim2SF in Hnan.
Qed.

(** A float made from a specification float that is not NaN is not NaN. *)
Lemma SF2Prim_not_nan sf : sf ≠ S754_nan → PrimFloat.is_nan (SF2Prim sf) = false.
Proof.
  intros Hsf. destruct sf as [[]|[]| |s m e]; try done.
  apply not_nan_Prim2SF. unfold SF2Prim, Z.ldexp.
  assert (Hf : ∀ k, Prim2SF (ldshiftexp (of_uint63 (Uint63Axioms.of_Z (Z.pos m))) k)
                    ≠ S754_nan).
  { intros k. rewrite ldshiftexp_spec, of_uint63_spec.
    apply SFldexp_not_nan, binary_normalize_not_nan. }
  destruct s; [rewrite opp_spec; apply SFopp_not_nan |]; apply Hf.
Qed.


(** ** Formatting statistics *)

Lemma pretty_N_go_starts_with_digit x s :
  (0 < x)%N → ∃ c t, pretty_N_go x s = String c t ∧ is_digit c = true.
Proof.
  revert s. induction (N.lt_wf_0 x) as [x _ IH]; intros s Hx.
  rewrite pretty_N_go_step by done.
  destruct (decide (x `div` 10 = 0)%N) as [-> | Hdiv%N.neq_0_lt_0].
  - rewrite pretty_N_go_0. eexists _, _. split; [reflexivity |].
    unfold pretty_N_char. by repeat case_match.
  - apply IH; [by apply N.div_lt | done].
Qed.

Lemma pretty_N_starts_with_digit (x : N) :
  ∃ c t, pretty x = String c t ∧ is_digit c = true.
Proof.
  unfold pretty, pretty_N. destruct (decide (x = 0%N)).
  - by eexists _, _.
  - apply pretty_N_go_starts_with_digit. lia.
Qed.

Lemma numeric_start_not_nan s : numeric_start s → lower s ≠ "nan".
Proof.
  intros (c & t & -> & Hc). cbn [lower]. intros [= Hlow _].
  destruct Hc as [Hc | [-> | ->]]; [| done | done].
  revert Hc Hlow. unfold is_digit, ascii_lower.
  destruct ((65 <=? nat_of_ascii c) && (nat_of_ascii c <=? 90)) eqn:Hup.
  - apply andb_prop in Hup as [H1%Nat.leb_le H2%Nat.leb_le].
    intros [_ H3%Nat.leb_le]%andb_prop. lia.
  - intros Hd ->. done.
Qed.

Lemma pretty_Z_numeric (z : Z) : numeric_start (pretty z).
Proof.
  unfold pretty, pretty_Z. destruct z as [|p|p].
  - eexists _, _. split; [reflexivity | by left].
  - destruct (pretty_N_starts_with_digit (Npos p)) as (c & t & Heq & Hc).
    exists c, t. split; [exact Heq | auto].
  - eexists "-"%char, _. split; [reflexivity | auto].
Qed.

Lemma fixed_digits_numeric n decimals : numeric_start (fixed_digits n decimals).
Proof.
  unfold fixed_digits. cbv zeta.
  destruct (pretty_N_starts_with_digit (Z.to_N (n / 10 ^ Z.of_nat decimals)))
    as (c & t & -> & Hc).
  eexists c, _. split; [reflexivity | auto].
Qed.

Lemma format_fixed_numeric x decimals :
  PrimFloat.is_nan x = false → numeric_start (format_fixed x decimals).
Proof.
  intros Hnan. unfold format_fixed.
  destruct (Prim2SF x) as [s | s | | s m e] eqn:Hx.
  - destruct s; [eexists "-"%char, _ | ]; [split; [reflexivity | auto] |].
    apply (fixed_digits_numeric 0).
  - destruct s; eexists _, _; (split; [reflexivity | auto]).
  - exfalso. rewrite <- (SF2Prim_Prim2SF x), Hx in Hnan. done.
  - cbv zeta. destruct s; [eexists "-"%char, _; split; [reflexivity | auto] |].
    apply fixed_digits_numeric.
Qed.

(** ** Formatting percentages *)







(** X23.  For [None], a string, an integer or a float, [format_stat] never
    shows nan, however cased.  The one error that leaves it is
    [OverflowError]: from [int()] of an infinite float when no decimals are
    asked for, or from formatting an integer too large for a float.  Missing
    values and the strings nan and N/A give the empty string, and so does a
    zero when blanks are asked for. *)
Theorem format_stat_never_shows_nan value decimals blank_if_zero :
  match format_stat value decimals blank_if_zero with
  | Ok shown =>
      lower shown ≠ "nan"
      ∧ (value = StNone ∨ value = StStr "nan" ∨ value = StStr "N/A"
         ∨ (∃ f, value = StFloat f ∧ PrimFloat.is_nan f = true)
         ∨ (blank_if_zero = true
            ∧ (value = StInt 0 ∨ ∃ f, value = StFloat f ∧ (f =? 0)%float = true)) →
         shown = "")
  | Raise e =>
      e = OverflowError
      ∧ ((decimals = 0 ∧ ∃ f s, value = StFloat f ∧ Prim2SF f = S754_infinity s)
         ∨ (0 < decimals
            ∧ ∃ z s, value = StInt z
                     ∧ binary_normalize prec emax z 0 false = S754_infinity s))
  end.
Proof.
  assert (Hint : ∀ z,
    0 < decimals →
    match
      match to_float (PyInt z) with
      | Ok x => Ok (format_fixed x decimals)
      | Raise e => Raise e
      end
    with
    | Ok shown => lower shown ≠ "nan"
    | Raise e =>
        e = OverflowError
        ∧ ∃ s, binary_normalize prec emax z 0 false = S754_infinity s
    end).
  { intros z Hd. unfold to_float.
    assert (Hbn := binary_normalize_not_nan z 0 false).
    destruct (binary_normalize prec emax z 0 false) as [s | s | | s m e] eqn:Hz;
      try (apply numeric_start_not_nan, format_fixed_numeric, SF2Prim_not_nan; done).
    split; [done | by eexists]. }
  destruct value as [|s|z|f]; cbn [format_stat].
  - done.
  - destruct (String.eqb_spec s "nan") as [-> | Hnan]; cbn [orb]; [done |].
    destruct (String.eqb_spec s "N/A") as [-> | Hna]; cbn [orb]; [done |].
    destruct (String.eqb_spec (lower s) "nan"); cbn [negb]; [done |].
    split; [done |].
    intros [? | [[= ?] | [[= ?] | [(f & ? & _) | (_ & [? | (f & ? & _)])]]]]; done.
  - destruct blank_if_zero; cbn [andb].
    + destruct (Z.eqb_spec z 0) as [-> | Hz]; [done |].
      destruct (Nat.eqb_spec decimals 0) as [-> | Hd].
      * split; [apply numeric_start_not_nan, pretty_Z_numeric |].
        intros [? | [? | [? | [(f & ? & _) | (_ & [[= ?] | (f & ? & _)])]]]]; done.
      * specialize (Hint z ltac:(lia)).
        destruct (to_float (PyInt z)) as [x|e].
        -- split; [done |].
           intros [? | [? | [? | [(f & ? & _) | (_ & [[= ?] | (f & ? & _)])]]]]; done.
        -- destruct Hint as [-> [s Hs]]. split; [done |]. right.
           split; [lia | by exists z, s].
    + destruct (Nat.eqb_spec decimals 0) as [-> | Hd].
      * split; [apply numeric_start_not_nan, pretty_Z_numeric |].
        intros [? | [? | [? | [(f & ? & _) | (? & _)]]]]; done.
      * specialize (Hint z ltac:(lia)).
        destruct (to_float (PyInt z)) as [x|e].
        -- split; [done |].
           intros [? | [? | [? | [(f & ? & _) | (? & _)]]]]; done.
        -- destruct Hint as [-> [s Hs]]. split; [done |]. right.
           split; [lia | by exists z, s].
  - destruct (PrimFloat.is_nan f) eqn:Hnan; [done |].
    destruct blank_if_zero; cbn [andb].
    + destruct (f =? 0)%float eqn:Hzero; [done |].
      destruct (Nat.eqb_spec decimals 0) as [-> | Hd].
      * unfold int_of_float. destruct (Prim2SF f) as [s | s | | s m e] eqn:Hf.
        -- split; [apply numeric_start_not_nan, pretty_Z_numeric |].
           intros [? | [? | [? | [(f' & [= <-] & ?) | (_ & [? | (f' & [= <-] & ?)])]]]];
             congruence.
        -- split; [done |]. left. split; [done |]. by eexists _, _.
        -- exfalso. apply is_nan_Prim2SF in Hf. congruence.
        -- split; [apply numeric_start_not_nan, pretty_Z_numeric |].
           intros [? | [? | [? | [(f' & [= <-] & ?) | (_ & [? | (f' & [= <-] & ?)])]]]];
             congruence.
      * split; [by apply numeric_start_not_nan, format_fixed_numeric |].
        intros [? | [? | [? | [(f' & [= <-] & ?) | (_ & [? | (f' & [= <-] & ?)])]]]];
          congruence.
    + destruct (Nat.eqb_spec decimals 0) as [-> | Hd].
      * unfold int_of_float. destruct (Prim2SF f) as [s | s | | s m e] eqn:Hf.
        -- split; [apply numeric_start_not_nan, pretty_Z_numeric |].
           intros [? | [? | [? | [(f' & [= <-] & ?) | (? & _)]]]]; congruence.
        -- split; [done |]. left. split; [done |]. by eexists _, _.
        -- exfalso. apply is_nan_Prim2SF in Hf. congruence.
        -- split; [apply numeric_start_not_nan, pretty_Z_numeric |].
           intros [? | [? | [? | [(f' & [= <-] & ?) | (? & _)]]]]; congruence.
      * split; [by apply numeric_start_not_nan, format_fixed_numeric |].
        intros [? | [? | [? | [(f' & [= <-] & ?) | (? & _)]]]]; congruence.
Qed.

(** Three decimals of 0.005, a tie rounded to even, -0.04 rounded to a
    negative zero, an integer with and without decimals. *)
Example sample_format_stat :
  format_stat (StFloat 0x1.47ae147ae147bp-8) 3 false = Ok "0.005"
  ∧ format_stat (StFloat 2.5) 0 false = Ok "2"
  ∧ format_stat (StFloat 0.125) 2 false = Ok "0.12"
  ∧ format_stat (StFloat (-0x1.47ae147ae147bp-5)) 1 false = Ok "-0.0"
  ∧ format_stat (StFloat 0) 1 true = Ok ""
  ∧ format_stat (StInt 7) 2 false = Ok "7.00"
  ∧ format_stat (StInt (-7)) 0 false = Ok "-7"
  ∧ format_stat (StStr "NaN") 1 false = Ok ""
  ∧ format_stat (StStr "L") 1 false = Ok "L".
Proof. repeat split; by vm_compute. Qed.

(** ** Looking for a tab: [_ensure_debugger_target] *)

Import DebuggerTarget.

Ltac probe_unfold :=
  unfold mbind, mret, Probe_bind, Probe_ret, probe_raise, emit,
    urlopen_list, urlopen_new in *.

Lemma slept_app l1 l2 : slept (l1 ++ l2) = slept l1 + slept l2.
Proof.
  induction l1 as [|ev l1 IH]; [done |]. destruct ev; cbn [app slept]; lia.
Qed.

Lemma within_refl s a b c : within s s a b c.
Proof.
  unfold within. split; [lia |]. split; [lia |].
  exists []. split; [by rewrite app_nil_r | cbn; lia].
Qed.

Ltac within_here :=
  unfold within; cbn [list_calls new_calls output fst snd];
  split; [lia |]; split; [lia |];
  first [ exists []; split; [by rewrite app_nil_r | cbn [slept]; lia]
        | rewrite <- ?app_assoc; eexists; split;
          [reflexivity | cbn [slept app]; lia] ].

Ltac within_after IH :=
  match goal with
  | |- within _ (create_tab_loop _ _ ?s1).2 _ _ _ =>
      destruct (IH s1) as (Hl & Hn & extra & Ho & Hs);
      cbn [list_calls new_calls output] in Hl, Hn, Ho;
      unfold within; cbn [list_calls new_calls output];
      split; [lia |]; split; [lia |];
      rewrite Ho, <- ?app_assoc; eexists; split; [reflexivity |];
      rewrite ?slept_app; cbn [slept app]; lia
  end.

(** One pass of the loop makes one request for a new tab, looks at most once
    at the list and sleeps at most two seconds, one on the last pass. *)
Lemma create_tab_loop_within debugger attempts s :
  within s (create_tab_loop debugger attempts s).2
    (length attempts) (length attempts)
    (length attempts + length (List.filter (λ attempt, attempt <? 2) attempts)).
Proof.
  revert s. induction attempts as [|attempt attempts IH]; intros s.
  { apply within_refl. }
  cbn [create_tab_loop length List.filter]. probe_unfold.
  cbn [list_calls new_calls output].
  destruct (json_new debugger (new_calls s)) as [[]| |e];
    destruct (attempt <? 2); cbn [list_calls new_calls output length];
    try destruct (json_list debugger (list_calls s)) as [body| |e'];
    cbn [list_calls new_calls output length];
    try destruct (json_loads debugger body) as [[]|e''];
    cbn [list_calls new_calls output length fst snd];
    first [ within_after IH | within_here ].
Qed.

Lemma create_tab_loop_true debugger attempts s s' :
  create_tab_loop debugger attempts s = (Ok true, s') →
  ∃ k body, list_calls s' = S k ∧ list_calls s ≤ k
            ∧ json_list debugger k = Answered body
            ∧ json_loads debugger body = Ok true.
Proof.
  revert s. induction attempts as [|attempt attempts IH]; intros s; [done |].
  cbn [create_tab_loop]. probe_unfold. cbn [list_calls new_calls output].
  destruct (json_new debugger (new_calls s)) as [[]| |e];
    destruct (attempt <? 2); cbn [list_calls new_calls output];
    try destruct (json_list debugger (list_calls s)) as [body| |e'] eqn:Hlist;
    cbn [list_calls new_calls output];
    try destruct (json_loads debugger body) as [[]|e''] eqn:Hloads;
    cbn [list_calls new_calls output];
    try done;
    try (intros [= <-]; cbn [list_calls]; exists (list_calls s), body; by eauto);
    intros (k & body' & ? & Hk & ? & ?)%IH; cbn [list_calls] in Hk;
    exists k, body'; (split; [done |]); (split; [lia | done]).
Qed.

Lemma create_tab_loop_raises debugger attempts s e s' :
  create_tab_loop debugger attempts s = (Raise e, s') →
  (∃ k, json_new debugger k = Broke e)
  ∨ (∃ k, json_list debugger k = Broke e)
  ∨ ∃ k body, list_calls s ≤ k ∧ json_list debugger k = Answered body
              ∧ json_loads debugger body = Raise e.
Proof.
  revert s. induction attempts as [|attempt attempts IH]; intros s; [done |].
  cbn [create_tab_loop]. probe_unfold. cbn [list_calls new_calls output].
  destruct (json_new debugger (new_calls s)) as [[]| |e0] eqn:Hnew;
    destruct (attempt <? 2); cbn [list_calls new_calls output];
    try destruct (json_list debugger (list_calls s)) as [body| |e'] eqn:Hlist;
    cbn [list_calls new_calls output];
    try destruct (json_loads debugger body) as [[]|e''] eqn:Hloads;
    cbn [list_calls new_calls output];
    try done;
    try (intros [= <- <-]; by eauto 10);
    intros [? | [? | (k & body' & Hk & ? & ?)]]%IH; cbn [list_calls] in *;
    eauto 10; right; right; exists k, body'; (split; [lia | done]).
Qed.

Lemma create_tab_loop_requests debugger attempts s :
  attempts ≠ [] → new_calls s < new_calls (create_tab_loop debugger attempts s).2.
Proof.
  destruct attempts as [|attempt attempts]; [done |]. intros _.
  cbn [create_tab_loop]. probe_unfold. cbn [list_calls new_calls output].
  assert (Hmono : ∀ s1, new_calls s1 ≤ new_calls (create_tab_loop debugger attempts s1).2).
  { intros s1. apply create_tab_loop_within. }
  destruct (json_new debugger (new_calls s)) as [[]| |e0];
    destruct (attempt <? 2); cbn [list_calls new_calls output];
    try destruct (json_list debugger (list_calls s)) as [body| |e'];
    cbn [list_calls new_calls output];
    try destruct (json_loads debugger body) as [[]|e''];
    cbn [list_calls new_calls output snd];
    try lia;
    match goal with
    | |- _ < new_calls (create_tab_loop _ _ ?s1).2 =>
        specialize (Hmono s1); cbn [new_calls] in Hmono; lia
    end.
Qed.

(** X24.  Whatever the debugger answers, [_ensure_debugger_target] looks at
    the tab list at most four times, asks for a new tab at most three times
    and sleeps at most five seconds; it asks for a new tab exactly when its
    first look at the list was answered with a list that decodes and is
    empty. *)
Theorem ensure_debugger_target_effort debugger s :
  within s (_ensure_debugger_target debugger s).2 4 3 5
  ∧ (new_calls s < new_calls (_ensure_debugger_target debugger s).2 ↔
     ∃ body, json_list debugger (list_calls s) = Answered body
             ∧ json_loads debugger body = Ok false).
Proof.
  unfold _ensure_debugger_target. probe_unfold. cbn [list_calls new_calls output].
  destruct (json_list debugger (list_calls s)) as [body| |e] eqn:Hlist;
    cbn [snd new_calls].
  2,3: split; [within_here | split; [lia | by intros (? & ? & ?)]].
  destruct (json_loads debugger body) as [[]|e] eqn:Hloads; cbn [snd new_calls].
  1,3: split; [within_here | split; [lia | intros (? & [= <-] & ?); congruence]].
  split.
  - match goal with
    | |- within _ (create_tab_loop _ _ ?s1).2 _ _ _ =>
        destruct (create_tab_loop_within debugger (seq 0 3) s1)
          as (Hl & Hn & extra & Ho & Hs)
    end.
    cbn [list_calls new_calls output length seq List.filter Nat.ltb Nat.leb] in *.
    split; [lia |]. split; [lia |]. rewrite Ho, <- app_assoc.
    eexists. split; [reflexivity |]. cbn [app slept]. lia.
  - split; [by eauto |]. intros _.
    match goal with
    | |- _ < new_calls (create_tab_loop _ _ ?s1).2 =>
        assert (H := create_tab_loop_requests debugger (seq 0 3) s1)
    end.
    cbn [new_calls] in H. apply H. done.
Qed.

(** X25.  [_ensure_debugger_target] answers [True] only when its last look
    at the tab list showed a tab. *)
Theorem ensure_debugger_target_true_means_tab debugger s s' :
  _ensure_debugger_target debugger s = (Ok true, s') →
  ∃ k body, list_calls s' = S k ∧ list_calls s ≤ k
            ∧ json_list debugger k = Answered body
            ∧ json_loads debugger body = Ok true.
Proof.
  unfold _ensure_debugger_target. probe_unfold. cbn [list_calls new_calls output].
  destruct (json_list debugger (list_calls s)) as [body| |e] eqn:Hlist; try done.
  destruct (json_loads debugger body) as [[]|e] eqn:Hloads; try done.
  - intros [= <-]. cbn [list_calls]. exists (list_calls s), body. by eauto.
  - intros (k & body' & ? & Hk & ? & ?)%create_tab_loop_true.
    cbn [list_calls] in Hk. exists k, body'. split; [done |]. split; [lia | done].
Qed.

Lemma ensure_debugger_target_true_means_tab_witness :
  ∃ k body, list_calls
              {| list_calls := 3; new_calls := 3;
                 output := [Printed "No tabs open in Chrome. Attempting to create a new tab...";
                            Slept 1; Slept 1; Slept 1;
                            Printed "✓ New tab created successfully"] |} = S k
            ∧ list_calls new_probe ≤ k
            ∧ json_list debugger_opens_tab_late k = Answered body
            ∧ json_loads debugger_opens_tab_late body = Ok true.
Proof.
  apply (ensure_debugger_target_true_means_tab debugger_opens_tab_late new_probe).
  reflexivity.
Defined.

(** X26.  A tab list that is not JSON makes [_ensure_debugger_target] answer
    [False] at its first look, without asking for a tab.  An error leaves the
    function only when a request fails outside the family of errors the code
    catches, or when the list read after asking for a new tab is not JSON:
    that second [json.loads] is not guarded. *)
Theorem ensure_debugger_target_decode_errors debugger s :
  (∀ body e,
     json_list debugger (list_calls s) = Answered body →
     json_loads debugger body = Raise e →
     _ensure_debugger_target debugger s
     = (Ok false, {| list_calls := S (list_calls s); new_calls := new_calls s;
                     output := output s |}))
  ∧ (∀ e s',
       _ensure_debugger_target debugger s = (Raise e, s') →
       (∃ k, json_new debugger k = Broke e)
       ∨ (∃ k, json_list debugger k = Broke e)
       ∨ ∃ k body, list_calls s < k ∧ json_list debugger k = Answered body
                   ∧ json_loads debugger body = Raise e).
Proof.
  unfold _ensure_debugger_target. probe_unfold. cbn [list_calls new_calls output].
  split.
  - intros body e -> ->. done.
  - intros e s'.
    destruct (json_list debugger (list_calls s)) as [body| |e0] eqn:Hlist; try done.
    + destruct (json_loads debugger body) as [[]|e1] eqn:Hloads; try done.
      intros [? | [? | (k & body' & Hk & ? & ?)]]%create_tab_loop_raises; eauto.
      cbn [list_calls] in Hk. right. right. exists k, body'. split; [lia | done].
    + intros [= <- <-]. eauto.
Qed.

(** ** The path a capture returns *)

(** X27.  The path [capture_chart_by_tag] returns is the path it was given,
    as it was given, or that path with its suffix replaced by the extension
    of an image: png, jpg, gif or webp. *)
Theorem capture_returns_given_path_or_image
  heat_map_png driver b64decode tag index path w saved w' :
  capture_chart_by_tag heat_map_png driver b64decode tag index path w
  = (Ok (Some saved), w') →
  saved = path
  ∨ ∃ ext final, image_extension ext
                 ∧ with_suffix (Path path) ("." +:+ ext) = Ok final
                 ∧ path_suffix final = "." +:+ ext
                 ∧ saved = path_str final.
Proof.
  intros [-> | (ext & final & Hext & Hfinal & ->)]%capture_returns_path; [by left |].
  right. exists ext, final. split; [done |]. split; [done |]. split; [| done].
  assert (Hname : truthy (path_name (Path path)) = true).
  { revert Hfinal. unfold with_suffix.
    destruct (contains "/" _); [done |]. destruct (_ || _); [done |].
    by destruct (truthy (path_name (Path path))). }
  destruct (with_suffix_image_extension (Path path) ext Hext Hname)
    as (final' & Hfinal' & Hsuffix).
  congruence.
Qed.

Lemma capture_returns_given_path_or_image_witness :
  "charts/heat-map_0.png" = "charts/heat-map_0.svg"
  ∨ ∃ ext final, image_extension ext
                 ∧ with_suffix (Path "charts/heat-map_0.svg") ("." +:+ ext) = Ok final
                 ∧ path_suffix final = "." +:+ ext
                 ∧ "charts/heat-map_0.png" = path_str final.
Proof.
  apply (capture_returns_given_path_or_image true sample_driver sample_b64decode
           "tmn-heat-map-baseball" 0 "charts/heat-map_0.svg" new_world
           "charts/heat-map_0.png"
           (capture_chart_by_tag true sample_driver sample_b64decode
              "tmn-heat-map-baseball" 0 "charts/heat-map_0.svg" new_world).2).
  by vm_compute.
Defined.
